(** * Riichi scoreboard: scoring and round progression of [src/App.tsx]

    A shallow embedding of the scoring table, the three settlement previews,
    the three confirmation handlers, undo / redo and the loader of the
    persisted document, followed by the properties the specification states
    about them.

    Conventions of the embedding.
    - A JavaScript [number] that the program keeps integral (points, sticks,
      counters, seat and round indices) is a [Z].  Every intermediate value of
      the scoring arithmetic is an integer far below 2^53, where doubles are
      exact, so [Z] arithmetic is the arithmetic of the program.
    - An array is a [list]; an array index coming from [forEach], [map] or
      [findIndex] is a [nat] turned into the [Z] the callback receives.
    - [SeatIndex | null] is [option Z].
    - A string is the [string] of the bytes of its UTF-8 encoding; the
      program's own labels are written as they stand in the source file.
    - A number that comes from outside, typed into a numeric field or read
      by [JSON.parse], need not be whole; it is a [JS.number]. *)

From stdpp Require Import base list sets strings numbers sorting.
From Stdlib Require Import ZArith Lia Ascii DecimalString.

Local Open Scope Z_scope.

(** ** The pieces of the JavaScript runtime the program relies on *)

Module JS.

(** The result of [parseInt]: [NaN] or the integer that was read.  The
    double nearest to a very long digit string compares with the small
    constants of the program exactly as the integer itself does, so the
    integer is kept; only the overflow to [Infinity] is visible, through
    [isFinite]. *)
Inductive num : Type :=
| NaN
| Int (z : Z).

Definition num_val (n : num) : Z :=
  match n with NaN => 0 | Int z => z end.

(** Integers of magnitude 2^1024 - 2^970 and above round to an infinity. *)
Definition DOUBLE_OVERFLOW : Z := 2 ^ 1024 - 2 ^ 970.

(** [Number.isFinite]. *)
Definition isFinite (n : num) : bool :=
  match n with
  | NaN => false
  | Int z => Z.abs z <? DOUBLE_OVERFLOW
  end.

(** [n <= k]; every comparison with [NaN] is false. *)
Definition le (n : num) (k : Z) : bool :=
  match n with
  | NaN => false
  | Int z => z <=? k
  end.

Definition byte (n : Z) : ascii := ascii_of_N (Z.to_N n).

(** The bytes that encode a code point in UTF-8. *)
Definition utf8 (codePoint : Z) : string :=
  if codePoint <? 0x80 then String (byte codePoint) EmptyString
  else if codePoint <? 0x800 then
    String (byte (0xC0 + codePoint / 64))
      (String (byte (0x80 + codePoint mod 64)) EmptyString)
  else if codePoint <? 0x10000 then
    String (byte (0xE0 + codePoint / 4096))
      (String (byte (0x80 + codePoint / 64 mod 64))
         (String (byte (0x80 + codePoint mod 64)) EmptyString))
  else
    String (byte (0xF0 + codePoint / 262144))
      (String (byte (0x80 + codePoint / 4096 mod 64))
         (String (byte (0x80 + codePoint / 64 mod 64))
            (String (byte (0x80 + codePoint mod 64)) EmptyString))).

(** The code points [parseInt] and [trim] strip: the [WhiteSpace] and
    [LineTerminator] of ECMAScript.  TAB, LF, VT, FF, CR, SPACE, NO-BREAK
    SPACE, OGHAM SPACE MARK, EN QUAD to HAIR SPACE, LINE and PARAGRAPH
    SEPARATOR, NARROW NO-BREAK SPACE, MEDIUM MATHEMATICAL SPACE,
    IDEOGRAPHIC SPACE and the BYTE ORDER MARK. *)
Definition WHITE_SPACE : list Z :=
  [0x9; 0xA; 0xB; 0xC; 0xD; 0x20; 0xA0; 0x1680;
   0x2000; 0x2001; 0x2002; 0x2003; 0x2004; 0x2005; 0x2006; 0x2007; 0x2008;
   0x2009; 0x200A; 0x2028; 0x2029; 0x202F; 0x205F; 0x3000; 0xFEFF].

(** [s] is exactly one white-space character. *)
Definition isWhiteSpace (s : string) : bool :=
  existsb (fun codePoint => String.eqb s (utf8 codePoint)) WHITE_SPACE.

(** [String.prototype.trimStart]: white-space characters of one, two or
    three bytes are dropped from the front as long as there are any. *)
Fixpoint trimStart (s : string) : string :=
  match s with
  | EmptyString => s
  | String a r1 =>
      if isWhiteSpace (String a EmptyString) then trimStart r1
      else
        match r1 with
        | EmptyString => s
        | String b r2 =>
            if isWhiteSpace (String a (String b EmptyString))
            then trimStart r2
            else
              match r2 with
              | EmptyString => s
              | String c r3 =>
                  if isWhiteSpace (String a (String b (String c EmptyString)))
                  then trimStart r3
                  else s
              end
        end
  end.

(** [String.prototype.trimEnd]: what the rest of the string keeps is
    computed first; a character in front of nothing but white space is
    dropped as well when it is white space itself. *)
Fixpoint trimEnd (s : string) : string :=
  match s with
  | EmptyString => s
  | String c rest =>
      let kept := String c (trimEnd rest) in
      if isWhiteSpace kept then EmptyString else kept
  end.

Definition digit (c : ascii) : option Z :=
  let n := Z.of_N (N_of_ascii c) in
  if (48 <=? n) && (n <=? 57) then Some (n - 48) else None.

(** The longest prefix of decimal digits, read as a number; [None] when
    the prefix is empty and nothing has been read before. *)
Fixpoint readDigits (s : string) (acc : option Z) : option Z :=
  match s with
  | String c rest =>
      match digit c with
      | Some d => readDigits rest (Some (10 * default 0 acc + d))
      | None => acc
      end
  | EmptyString => acc
  end.

(** [parseInt(s, 10)]: skip leading white space, read an optional sign,
    then the longest run of decimal digits; [NaN] when there is none. *)
Definition parseInt (s : string) : num :=
  let s1 := trimStart s in
  let '(sign, s2) :=
    match s1 with
    | String "-" rest => (-1, rest)
    | String "+" rest => (1, rest)
    | _ => (1, s1)
    end in
  match readDigits s2 None with
  | Some n => Int (sign * n)
  | None => NaN
  end.

(** [s || dflt] on strings: the empty string is falsy. *)
Definition orElse (s dflt : string) : string :=
  match s with
  | EmptyString => dflt
  | _ => s
  end.

(** [String.prototype.trim]. *)
Definition trim (s : string) : string := trimEnd (trimStart s).

(** [a % b], the remainder that takes the sign of the dividend. *)
Definition rem (a b : Z) : Z := Z.rem a b.

(** [Math.ceil(a / b)] for integers [a] and positive [b]. *)
Definition ceilDiv (a b : Z) : Z := - ((- a) / b).

(** [arr[i]], [None] standing for [undefined]. *)
Definition get {A : Type} (arr : list A) (i : Z) : option A :=
  if 0 <=? i then arr !! Z.to_nat i else None.

(** [arr[i] = f(arr[i])] as done by [arr[i] += d] and [arr[i] -= d].  An
    index outside the array makes JavaScript add a property or a trailing
    element that no reader of the first [length arr] elements ever sees;
    the model leaves the array as it is. *)
Definition update (f : Z -> Z) (i : Z) (arr : list Z) : list Z :=
  if 0 <=? i then alter f (Z.to_nat i) arr else arr.

(** The elements of an array paired with the index [forEach], [map],
    [filter] and [findIndex] hand to their callback. *)
Definition entries {A : Type} (arr : list A) : list (Z * A) :=
  imap (fun i v => (Z.of_nat i, v)) arr.

(** [arr.forEach((v, idx) => body)] where the body updates the captured
    variables [S]. *)
Definition forEach {A S : Type} (arr : list A) (body : A -> Z -> S -> S)
    (captured : S) : S :=
  fold_left (fun st e => body e.2 e.1 st) (entries arr) captured.

(** [arr.map((v, idx) => f)]. *)
Definition mapi {A B : Type} (f : A -> Z -> B) (arr : list A) : list B :=
  map (fun e => f e.2 e.1) (entries arr).

(** [arr.filter((v) => v !== null)]. *)
Definition notNull {A : Type} (arr : list (option A)) : list A :=
  omap (fun v => v) arr.

(** [arr.filter(Boolean).length]. *)
Definition countTrue (arr : list bool) : Z :=
  Z.of_nat (length (List.filter (fun v => v) arr)).

(** [a ?? b]. *)
Definition nullish {A : Type} (a b : option A) : option A :=
  match a with
  | Some v => Some v
  | None => b
  end.

(** [arr.findIndex(p)]. *)
Definition findIndex {A : Type} (p : A -> bool) (arr : list A) : Z :=
  match List.filter (fun e => p e.2) (entries arr) with
  | e :: _ => e.1
  | [] => -1
  end.

(** A number that reaches the program from outside: [Number(text)] of a
    numeric field, or a number read by [JSON.parse].  It is [NaN], an
    infinity, a whole number, or a finite number that is not whole.
    [Fraction z d] is the number strictly between [z] and [z + 1] whose
    binary digits after the point are the bits of [d], lowest bit first:
    [Fraction 2 1] is 2.5, [Fraction 0 2] is 0.25, [Fraction (-3) 1] is
    -2.5.  Every finite double that is not whole is written in exactly one
    way.  The two zeros of JavaScript are not told apart. *)
Inductive number : Type :=
| NotANumber
| Infinity (negative : bool)
| Whole (z : Z)
| Fraction (below : Z) (digits : positive).

Definition whole (x : number) : option Z :=
  match x with
  | Whole z => Some z
  | _ => None
  end.

(** [ToBoolean] of a number: [NaN] and zero are falsy. *)
Definition toBoolean (x : number) : bool :=
  match x with
  | NotANumber => false
  | Whole z => negb (z =? 0)
  | Infinity _ | Fraction _ _ => true
  end.

(** [x || dflt] on numbers. *)
Definition orNumber (x dflt : number) : number :=
  if toBoolean x then x else dflt.

(** [k <= x] and [x <= k] for a whole [k]; false for [NaN]. *)
Definition atLeast (k : Z) (x : number) : bool :=
  match x with
  | NotANumber => false
  | Infinity negative => negb negative
  | Whole z => k <=? z
  | Fraction z _ => k <=? z
  end.

Definition atMost (k : Z) (x : number) : bool :=
  match x with
  | NotANumber => false
  | Infinity negative => negative
  | Whole z => z <=? k
  | Fraction z _ => z <? k
  end.

(** [Math.max(k, x)] and [Math.min(k, x)] for a whole [k]. *)
Definition mathMax (k : Z) (x : number) : number :=
  match x with
  | NotANumber => NotANumber
  | _ => if atLeast k x then x else Whole k
  end.

Definition mathMin (k : Z) (x : number) : number :=
  match x with
  | NotANumber => NotANumber
  | _ => if atMost k x then x else Whole k
  end.

(** [x % k] for a whole [k > 0], that is [x - k * trunc(x / k)]: the
    digits after the point stay, and [trunc(x / k)] is the quotient of the
    whole number next to [x] on the side of zero. *)
Definition remainder (x : number) (k : Z) : number :=
  match x with
  | NotANumber | Infinity _ => NotANumber
  | Whole z => Whole (Z.rem z k)
  | Fraction z d =>
      Fraction (z - k * Z.quot (if 0 <=? z then z else z + 1) k) d
  end.

End JS.

(** ** ScoreTable *)

Definition roundUpToHundred (value : Z) : Z :=
  JS.ceilDiv value 100 * 100.

(** [han] and [fu] reach this function only after the caller has checked
    that they are positive, so the exponent [han + 2] is positive. *)
Definition calcBasePoints (han fu : Z) : Z :=
  if 13 <=? han then 8000
  else if 11 <=? han then 6000
  else if 8 <=? han then 4000
  else if 6 <=? han then 3000
  else if 5 <=? han then 2000
  else
    let raw := fu * 2 ^ (han + 2) in
    if ((han =? 4) && (fu =? 30)) || ((han =? 3) && (fu =? 60)) then 2000
    else if 2000 <? raw then 2000
    else raw.

(** The table of the specification, row by row, first match wins. *)
Module ScoreTableSpec.

Inductive row : Type :=
| Fixed (cond : Z -> Z -> bool) (value : Z)
| Formula (value : Z -> Z -> Z).

Definition table : list row :=
  [ Fixed (fun han _ => 13 <=? han) 8000;
    Fixed (fun han _ => 11 <=? han) 6000;
    Fixed (fun han _ => 8 <=? han) 4000;
    Fixed (fun han _ => 6 <=? han) 3000;
    Fixed (fun han _ => 5 <=? han) 2000;
    Fixed (fun han fu =>
             ((han =? 4) && (fu =? 30)) || ((han =? 3) && (fu =? 60))) 2000;
    Formula (fun han fu => Z.min 2000 (fu * 2 ^ (han + 2))) ].

Fixpoint firstMatch (rows : list row) (han fu : Z) : option Z :=
  match rows with
  | [] => None
  | Fixed cond value :: rest =>
      if cond han fu then Some value else firstMatch rest han fu
  | Formula value :: _ => Some (value han fu)
  end.

Definition basePoints (han fu : Z) : option Z := firstMatch table han fu.

End ScoreTableSpec.

(** ** Data model *)

Definition PLAYER_LABELS : list string :=
  ["东风家"; "南风家"; "西风家"; "北风家"]%string.

Inductive SettlementType : Type := tsumo | ron | draw.

Module HistoryEntry.
(** [dealerLabel] and the [riichiPlayers] are read with
    [names[i] ?? PLAYER_LABELS[i]], which is [undefined] ([None]) for an
    index outside both arrays. *)
Record t : Type := mk {
  id : string;
  type : SettlementType;
  roundLabel : string;
  dealerLabel : option string;
  riichiCount : Z;
  description : string;
  timestamp : string;
  playerNames : list string;
  riichiPlayers : list (option string);
  deltas : list Z
}.
End HistoryEntry.

Module CoreSnapshot.
Record t : Type := mk {
  points : list Z;
  kyotaku : Z;
  honba : Z;
  kyokuIndex : Z;
  dealerIndex : Z;
  history : list HistoryEntry.t;
  names : list string
}.
End CoreSnapshot.

Module LastSettlementMeta.
Record t : Type := mk {
  type : SettlementType;
  summary : string;
  timestamp : string
}.
End LastSettlementMeta.

Record GameState : Type := mkGameState {
  points : list Z;
  kyotaku : Z;
  honba : Z;
  kyokuIndex : Z;
  dealerIndex : Z;
  history : list HistoryEntry.t;
  names : list string;
  lastSettlementBefore : option CoreSnapshot.t;
  lastSettlementAfter : option CoreSnapshot.t;
  lastSettlementMeta : option LastSettlementMeta.t;
  isInUndo : bool
}.

Module SettlementPreview.
Record t : Type := mk {
  deltas : list Z;
  winnerIndex : option Z;
  kyotakuBefore : Z;
  kyotakuAfter : Z;
  kyotakuIncome : Z;
  riichiIncome : Z
}.
End SettlementPreview.

Definition createDefaultNames : list string := PLAYER_LABELS.

Definition createInitialGameState : GameState :=
  {| points := [25000; 25000; 25000; 25000];
     kyotaku := 0;
     honba := 0;
     kyokuIndex := 0;
     dealerIndex := 0;
     history := [];
     names := createDefaultNames;
     lastSettlementBefore := None;
     lastSettlementAfter := None;
     lastSettlementMeta := None;
     isInUndo := false |}.

Definition createCoreSnapshotFromState (source : GameState) : CoreSnapshot.t :=
  {| CoreSnapshot.points := points source;
     CoreSnapshot.kyotaku := kyotaku source;
     CoreSnapshot.honba := honba source;
     CoreSnapshot.kyokuIndex := kyokuIndex source;
     CoreSnapshot.dealerIndex := dealerIndex source;
     CoreSnapshot.history := history source;
     CoreSnapshot.names := names source |}.

Definition ensureSeatIndex (value : Z) : Z := JS.rem value 4.

(** [ensureSeatIndex] applied by the loader to a stored number, which need
    not be whole: the same [value % 4]. *)
Definition ensureSeatIndexOfNumber (value : JS.number) : JS.number :=
  JS.remainder value 4.

(** The check both the previews and the handlers make on a parsed input:
    [!Number.isFinite(n) || n <= 0]. *)
Definition rejected (n : JS.num) : bool :=
  negb (JS.isFinite n) || JS.le n 0.

(** ** SettlementEngine: the three previews *)

Definition computeTsumoPreview (state : GameState) (winner : option Z)
    (hanInput fuInput : string) (riichiFlags : list bool)
    : option SettlementPreview.t :=
  match winner with
  | None => None
  | Some winner =>
    let han := JS.parseInt (JS.orElse hanInput "0") in
    let fu := JS.parseInt (JS.orElse fuInput "0") in
    if rejected han || rejected fu then None
    else
      let basePoints := calcBasePoints (JS.num_val han) (JS.num_val fu) in
      let '(deltas, riichiIndices) :=
        JS.forEach riichiFlags
          (fun (v : bool) idx '(deltas, riichiIndices) =>
             if v then (JS.update (fun d => d - 1000) idx deltas,
                        (riichiIndices ++ [idx])%list)
             else (deltas, riichiIndices))
          ([0; 0; 0; 0], []) in
      let riichiCount := Z.of_nat (length riichiIndices) in
      let riichiIncome := riichiCount * 1000 in
      let kyotakuPoints := kyotaku state * 1000 in
      let winnerIsDealer := winner =? dealerIndex state in
      let '(deltas, totalBaseFromOthers, totalHonbaFromOthers) :=
        if winnerIsDealer then
          JS.forEach (points state)
            (fun _ idx '(deltas, totalBase, totalHonba) =>
               if idx =? winner then (deltas, totalBase, totalHonba)
               else
                 let rawBase := 2 * basePoints in
                 let basePay := roundUpToHundred rawBase in
                 let honbaPay := honba state * 100 in
                 let payment := basePay + honbaPay in
                 (JS.update (fun d => d - payment) idx deltas,
                  totalBase + basePay, totalHonba + honbaPay))
            (deltas, 0, 0)
        else
          JS.forEach (points state)
            (fun _ idx '(deltas, totalBase, totalHonba) =>
               if idx =? winner then (deltas, totalBase, totalHonba)
               else
                 let isDealer := idx =? dealerIndex state in
                 let rawBase := basePoints * (if isDealer then 2 else 1) in
                 let basePay := roundUpToHundred rawBase in
                 let honbaPay := honba state * 100 in
                 let payment := basePay + honbaPay in
                 (JS.update (fun d => d - payment) idx deltas,
                  totalBase + basePay, totalHonba + honbaPay))
            (deltas, 0, 0) in
      let deltas :=
        JS.update (fun d => d + (totalBaseFromOthers + totalHonbaFromOthers))
          winner deltas in
      let deltas :=
        JS.update (fun d => d + (kyotakuPoints + riichiIncome)) winner deltas in
      Some {| SettlementPreview.deltas := deltas;
              SettlementPreview.winnerIndex := Some winner;
              SettlementPreview.kyotakuBefore := kyotaku state;
              SettlementPreview.kyotakuAfter := 0;
              SettlementPreview.kyotakuIncome := kyotakuPoints;
              SettlementPreview.riichiIncome := riichiIncome |}
  end.

Definition computeRonPreview (state : GameState) (winner loser : option Z)
    (hanInput fuInput : string) (riichiFlags : list bool)
    : option SettlementPreview.t :=
  match winner, loser with
  | Some winner, Some loser =>
    if winner =? loser then None
    else
      let han := JS.parseInt (JS.orElse hanInput "0") in
      let fu := JS.parseInt (JS.orElse fuInput "0") in
      if rejected han || rejected fu then None
      else
        let basePoints := calcBasePoints (JS.num_val han) (JS.num_val fu) in
        let '(deltas, riichiIndices) :=
          JS.forEach riichiFlags
            (fun (v : bool) idx '(deltas, riichiIndices) =>
               if v then (JS.update (fun d => d - 1000) idx deltas,
                          (riichiIndices ++ [idx])%list)
               else (deltas, riichiIndices))
            ([0; 0; 0; 0], []) in
        let riichiCount := Z.of_nat (length riichiIndices) in
        let riichiIncome := riichiCount * 1000 in
        let kyotakuPoints := kyotaku state * 1000 in
        let winnerIsDealer := winner =? dealerIndex state in
        let multiplier := if winnerIsDealer then 6 else 4 in
        let rawBase := multiplier * basePoints in
        let basePay := roundUpToHundred rawBase in
        let honbaPay := honba state * 300 in
        let payment := basePay + honbaPay in
        let deltas := JS.update (fun d => d - payment) loser deltas in
        let deltas :=
          JS.update (fun d => d + (payment + kyotakuPoints + riichiIncome))
            winner deltas in
        Some {| SettlementPreview.deltas := deltas;
                SettlementPreview.winnerIndex := Some winner;
                SettlementPreview.kyotakuBefore := kyotaku state;
                SettlementPreview.kyotakuAfter := 0;
                SettlementPreview.kyotakuIncome := kyotakuPoints;
                SettlementPreview.riichiIncome := riichiIncome |}
  | _, _ => None
  end.

Definition computeDrawPreview (state : GameState)
    (tenpaiFlags riichiFlags : list bool) : SettlementPreview.t :=
  let '(deltas, riichiIndices) :=
    JS.forEach riichiFlags
      (fun (v : bool) idx '(deltas, riichiIndices) =>
         if v then (JS.update (fun d => d - 1000) idx deltas,
                    (riichiIndices ++ [idx])%list)
         else (deltas, riichiIndices))
      ([0; 0; 0; 0], []) in
  let riichiCount := Z.of_nat (length riichiIndices) in
  let riichiIncome := riichiCount * 1000 in
  let tenpaiCount := JS.countTrue tenpaiFlags in
  let deltas :=
    if tenpaiCount =? 1 then
      let tenpaiIndex := JS.findIndex (fun v => v) tenpaiFlags in
      JS.forEach (points state)
        (fun _ idx deltas =>
           if idx =? tenpaiIndex then deltas
           else
             let deltas := JS.update (fun d => d - 1000) idx deltas in
             JS.update (fun d => d + 1000) tenpaiIndex deltas)
        deltas
    else if tenpaiCount =? 2 then
      let tenpaiIndices :=
        JS.notNull
          (JS.mapi (fun (v : bool) idx => if v then Some idx else None)
             tenpaiFlags) in
      let notTenpaiIndices :=
        JS.notNull
          (JS.mapi (fun (v : bool) idx => if negb v then Some idx else None)
             tenpaiFlags) in
      let deltas :=
        JS.forEach notTenpaiIndices
          (fun i _ deltas => JS.update (fun d => d - 1500) i deltas) deltas in
      JS.forEach tenpaiIndices
        (fun i _ deltas => JS.update (fun d => d + 1500) i deltas) deltas
    else if tenpaiCount =? 3 then
      let notIndex := JS.findIndex negb tenpaiFlags in
      JS.forEach (points state)
        (fun _ idx deltas =>
           if idx =? notIndex then deltas
           else
             let deltas := JS.update (fun d => d - 1000) notIndex deltas in
             JS.update (fun d => d + 1000) idx deltas)
        deltas
    else deltas in
  let newKyotaku := kyotaku state + riichiCount in
  {| SettlementPreview.deltas := deltas;
     SettlementPreview.winnerIndex := None;
     SettlementPreview.kyotakuBefore := kyotaku state;
     SettlementPreview.kyotakuAfter := newKyotaku;
     SettlementPreview.kyotakuIncome := 0;
     SettlementPreview.riichiIncome := riichiIncome |}.

(** ** HistoryLedger and UndoController *)

(** The strings a handler renders through [Date], [Intl.NumberFormat] and
    template literals: the entry's id, round label, description and
    timestamp, and the summary of the undo metadata.  They are taken as
    given; no property below depends on what they say. *)
Record Rendering : Type := mkRendering {
  entryId : string;
  roundLabelText : string;
  descriptionText : string;
  timestampText : string;
  summaryText : string
}.

(** [buildHistoryEntry] reads the state of the current render, [state],
    while the updaters below work on [prev]. *)
Definition buildHistoryEntry (state : GameState) (text : Rendering)
    (type : SettlementType) (description : string) (riichiCount : Z)
    (riichiPlayers : list (option string)) (deltas : list Z)
    : HistoryEntry.t :=
  let dealerLabel :=
    JS.nullish (JS.get (names state) (dealerIndex state))
      (JS.get PLAYER_LABELS (dealerIndex state)) in
  {| HistoryEntry.id := entryId text;
     HistoryEntry.type := type;
     HistoryEntry.roundLabel := roundLabelText text;
     HistoryEntry.dealerLabel := dealerLabel;
     HistoryEntry.riichiCount := riichiCount;
     HistoryEntry.description := description;
     HistoryEntry.timestamp := timestampText text;
     HistoryEntry.playerNames := names state;
     HistoryEntry.riichiPlayers := riichiPlayers;
     HistoryEntry.deltas := deltas |}.

Definition applyDeltas (points deltas : list Z) : list Z :=
  JS.mapi (fun p idx => p + default 0 (JS.get deltas idx)) points.

(** [{ ...prev, ...afterSnapshot, lastSettlementBefore, lastSettlementAfter,
    lastSettlementMeta, isInUndo: false }]: every field of [prev] is
    overwritten. *)
Definition commit (beforeSnapshot afterSnapshot : CoreSnapshot.t)
    (meta : LastSettlementMeta.t) : GameState :=
  {| points := CoreSnapshot.points afterSnapshot;
     kyotaku := CoreSnapshot.kyotaku afterSnapshot;
     honba := CoreSnapshot.honba afterSnapshot;
     kyokuIndex := CoreSnapshot.kyokuIndex afterSnapshot;
     dealerIndex := CoreSnapshot.dealerIndex afterSnapshot;
     history := CoreSnapshot.history afterSnapshot;
     names := CoreSnapshot.names afterSnapshot;
     lastSettlementBefore := Some beforeSnapshot;
     lastSettlementAfter := Some afterSnapshot;
     lastSettlementMeta := Some meta;
     isInUndo := false |}.

(** [{ ...prev, <the seven fields of snapshot>, isInUndo }]. *)
Definition restore (prev : GameState) (snapshot : CoreSnapshot.t)
    (undone : bool) : GameState :=
  {| points := CoreSnapshot.points snapshot;
     kyotaku := CoreSnapshot.kyotaku snapshot;
     honba := CoreSnapshot.honba snapshot;
     kyokuIndex := CoreSnapshot.kyokuIndex snapshot;
     dealerIndex := CoreSnapshot.dealerIndex snapshot;
     history := CoreSnapshot.history snapshot;
     names := CoreSnapshot.names snapshot;
     lastSettlementBefore := lastSettlementBefore prev;
     lastSettlementAfter := lastSettlementAfter prev;
     lastSettlementMeta := lastSettlementMeta prev;
     isInUndo := undone |}.

Definition handleUndoLastSettlement (prev : GameState) : GameState :=
  match lastSettlementBefore prev, lastSettlementAfter prev,
        lastSettlementMeta prev with
  | Some snapshot, Some _, Some _ => restore prev snapshot true
  | _, _, _ => prev
  end.

Definition handleRedoLastSettlement (prev : GameState) : GameState :=
  match lastSettlementBefore prev, lastSettlementAfter prev,
        lastSettlementMeta prev with
  | Some _, Some snapshot, Some _ =>
      if negb (isInUndo prev) then prev
      else restore prev snapshot false
  | _, _, _ => prev
  end.

(** ** RoundStateMachine: the confirmation handlers

    A handler validates the form fields it closes over and then hands React
    an updater [prev => next].  [Confirm] records what the handler returned,
    the message it passed to [window.alert] if any, and the state once the
    updater, if one was queued, has run on [prev]. *)
Record Confirm : Type := mkConfirm {
  returned : bool;
  alert : option string;
  next : GameState
}.

Definition ALERT_HAN_FU : string := "请填写合法的番数和符数".
Definition ALERT_SAME_SEAT : string := "和牌家与点炮家不能是同一家".

Definition handleTsumoConfirm (state : GameState) (text : Rendering)
    (tsumoWinner : option Z) (tsumoHan tsumoFu : string)
    (tsumoRiichi : list bool) (prev : GameState) : Confirm :=
  match tsumoWinner with
  | None => mkConfirm false None prev
  | Some tsumoWinner =>
    let han := JS.parseInt (JS.orElse tsumoHan "0") in
    let fu := JS.parseInt (JS.orElse tsumoFu "0") in
    if rejected han || rejected fu
    then mkConfirm false (Some ALERT_HAN_FU) prev
    else
      let han := JS.num_val han in
      let fu := JS.num_val fu in
      let winner := tsumoWinner in
      let beforeSnapshot := createCoreSnapshotFromState prev in
      let basePoints := calcBasePoints han fu in
      let '(deltas, riichiIndices) :=
        JS.forEach tsumoRiichi
          (fun (v : bool) idx '(deltas, riichiIndices) =>
             if v then (JS.update (fun d => d - 1000) idx deltas,
                        (riichiIndices ++ [idx])%list)
             else (deltas, riichiIndices))
          ([0; 0; 0; 0], []) in
      let riichiCount := Z.of_nat (length riichiIndices) in
      let riichiIncome := riichiCount * 1000 in
      let kyotakuPoints := kyotaku prev * 1000 in
      let riichiPlayers :=
        map (fun i => JS.nullish (JS.get (names prev) i)
                        (JS.get PLAYER_LABELS i)) riichiIndices in
      let winnerIsDealer := winner =? dealerIndex prev in
      let '(deltas, totalBaseFromOthers, totalHonbaFromOthers) :=
        if winnerIsDealer then
          JS.forEach (points prev)
            (fun _ idx '(deltas, totalBase, totalHonba) =>
               if idx =? winner then (deltas, totalBase, totalHonba)
               else
                 let rawBase := 2 * basePoints in
                 let basePay := roundUpToHundred rawBase in
                 let honbaPay := honba prev * 100 in
                 let payment := basePay + honbaPay in
                 (JS.update (fun d => d - payment) idx deltas,
                  totalBase + basePay, totalHonba + honbaPay))
            (deltas, 0, 0)
        else
          JS.forEach (points prev)
            (fun _ idx '(deltas, totalBase, totalHonba) =>
               if idx =? winner then (deltas, totalBase, totalHonba)
               else
                 let isDealer := idx =? dealerIndex prev in
                 let rawBase := basePoints * (if isDealer then 2 else 1) in
                 let basePay := roundUpToHundred rawBase in
                 let honbaPay := honba prev * 100 in
                 let payment := basePay + honbaPay in
                 (JS.update (fun d => d - payment) idx deltas,
                  totalBase + basePay, totalHonba + honbaPay))
            (deltas, 0, 0) in
      let deltas :=
        JS.update (fun d => d + (totalBaseFromOthers + totalHonbaFromOthers))
          winner deltas in
      let deltas :=
        JS.update (fun d => d + (kyotakuPoints + riichiIncome)) winner deltas in
      let newPoints := applyDeltas (points prev) deltas in
      let entry :=
        buildHistoryEntry state text tsumo (descriptionText text) riichiCount
          riichiPlayers deltas in
      let winnerIsDealerNow := winner =? dealerIndex prev in
      let '(nextDealer, nextHonba, nextKyoku) :=
        if winnerIsDealerNow
        then (dealerIndex prev, honba prev + 1, kyokuIndex prev)
        else (ensureSeatIndex (dealerIndex prev + 1), 0,
              JS.rem (kyokuIndex prev + 1) 8) in
      let afterSnapshot :=
        {| CoreSnapshot.points := newPoints;
           CoreSnapshot.kyotaku := 0;
           CoreSnapshot.honba := nextHonba;
           CoreSnapshot.kyokuIndex := nextKyoku;
           CoreSnapshot.dealerIndex := nextDealer;
           CoreSnapshot.history := entry :: history prev;
           CoreSnapshot.names := names prev |} in
      let meta :=
        {| LastSettlementMeta.type := tsumo;
           LastSettlementMeta.summary := summaryText text;
           LastSettlementMeta.timestamp := HistoryEntry.timestamp entry |} in
      mkConfirm true None (commit beforeSnapshot afterSnapshot meta)
  end.

Definition handleRonConfirm (state : GameState) (text : Rendering)
    (ronWinner ronLoser : option Z) (ronHan ronFu : string)
    (ronRiichi : list bool) (prev : GameState) : Confirm :=
  match ronWinner, ronLoser with
  | Some ronWinner, Some ronLoser =>
    if ronWinner =? ronLoser
    then mkConfirm false (Some ALERT_SAME_SEAT) prev
    else
      let han := JS.parseInt (JS.orElse ronHan "0") in
      let fu := JS.parseInt (JS.orElse ronFu "0") in
      if rejected han || rejected fu
      then mkConfirm false (Some ALERT_HAN_FU) prev
      else
        let han := JS.num_val han in
        let fu := JS.num_val fu in
        let winner := ronWinner in
        let loser := ronLoser in
        let beforeSnapshot := createCoreSnapshotFromState prev in
        let basePoints := calcBasePoints han fu in
        let '(deltas, riichiIndices) :=
          JS.forEach ronRiichi
            (fun (v : bool) idx '(deltas, riichiIndices) =>
               if v then (JS.update (fun d => d - 1000) idx deltas,
                          (riichiIndices ++ [idx])%list)
               else (deltas, riichiIndices))
            ([0; 0; 0; 0], []) in
        let riichiCount := Z.of_nat (length riichiIndices) in
        let riichiIncome := riichiCount * 1000 in
        let kyotakuPoints := kyotaku prev * 1000 in
        let riichiPlayers :=
          map (fun i => JS.nullish (JS.get (names prev) i)
                          (JS.get PLAYER_LABELS i)) riichiIndices in
        let winnerIsDealer := winner =? dealerIndex prev in
        let multiplier := if winnerIsDealer then 6 else 4 in
        let rawBase := multiplier * basePoints in
        let basePay := roundUpToHundred rawBase in
        let honbaPay := honba prev * 300 in
        let payment := basePay + honbaPay in
        let deltas := JS.update (fun d => d - payment) loser deltas in
        let deltas :=
          JS.update (fun d => d + (payment + kyotakuPoints + riichiIncome))
            winner deltas in
        let newPoints := applyDeltas (points prev) deltas in
        let entry :=
          buildHistoryEntry state text ron (descriptionText text) riichiCount
            riichiPlayers deltas in
        let winnerIsDealerNow := winner =? dealerIndex prev in
        let '(nextDealer, nextHonba, nextKyoku) :=
          if winnerIsDealerNow
          then (dealerIndex prev, honba prev + 1, kyokuIndex prev)
          else (ensureSeatIndex (dealerIndex prev + 1), 0,
                JS.rem (kyokuIndex prev + 1) 8) in
        let afterSnapshot :=
          {| CoreSnapshot.points := newPoints;
             CoreSnapshot.kyotaku := 0;
             CoreSnapshot.honba := nextHonba;
             CoreSnapshot.kyokuIndex := nextKyoku;
             CoreSnapshot.dealerIndex := nextDealer;
             CoreSnapshot.history := entry :: history prev;
             CoreSnapshot.names := names prev |} in
        let meta :=
          {| LastSettlementMeta.type := ron;
             LastSettlementMeta.summary := summaryText text;
             LastSettlementMeta.timestamp := HistoryEntry.timestamp entry |} in
        mkConfirm true None (commit beforeSnapshot afterSnapshot meta)
  | _, _ => mkConfirm false None prev
  end.

Definition handleDrawConfirm (state : GameState) (text : Rendering)
    (drawTenpai drawRiichi : list bool) (prev : GameState) : Confirm :=
  let tenpaiCount := JS.countTrue drawTenpai in
  let beforeSnapshot := createCoreSnapshotFromState prev in
  let '(deltas, riichiIndices) :=
    JS.forEach drawRiichi
      (fun (v : bool) idx '(deltas, riichiIndices) =>
         if v then (JS.update (fun d => d - 1000) idx deltas,
                    (riichiIndices ++ [idx])%list)
         else (deltas, riichiIndices))
      ([0; 0; 0; 0], []) in
  let riichiCount := Z.of_nat (length riichiIndices) in
  let riichiPlayers :=
    map (fun i => JS.nullish (JS.get (names prev) i)
                    (JS.get PLAYER_LABELS i)) riichiIndices in
  let deltas :=
    if tenpaiCount =? 1 then
      let tenpaiIndex := JS.findIndex (fun v => v) drawTenpai in
      JS.forEach (points prev)
        (fun _ idx deltas =>
           if idx =? tenpaiIndex then deltas
           else
             let deltas := JS.update (fun d => d - 1000) idx deltas in
             JS.update (fun d => d + 1000) tenpaiIndex deltas)
        deltas
    else if tenpaiCount =? 2 then
      let tenpaiIndices :=
        JS.notNull
          (JS.mapi (fun (v : bool) idx => if v then Some idx else None)
             drawTenpai) in
      let notTenpaiIndices :=
        JS.notNull
          (JS.mapi (fun (v : bool) idx => if negb v then Some idx else None)
             drawTenpai) in
      let deltas :=
        JS.forEach notTenpaiIndices
          (fun i _ deltas => JS.update (fun d => d - 1500) i deltas) deltas in
      JS.forEach tenpaiIndices
        (fun i _ deltas => JS.update (fun d => d + 1500) i deltas) deltas
    else if tenpaiCount =? 3 then
      let notIndex := JS.findIndex negb drawTenpai in
      JS.forEach (points prev)
        (fun _ idx deltas =>
           if idx =? notIndex then deltas
           else
             let deltas := JS.update (fun d => d - 1000) notIndex deltas in
             JS.update (fun d => d + 1000) idx deltas)
        deltas
    else deltas in
  let newPoints := applyDeltas (points prev) deltas in
  let newKyotaku := kyotaku prev + riichiCount in
  let entry :=
    buildHistoryEntry state text draw (descriptionText text) riichiCount
      riichiPlayers deltas in
  (* drawTenpai[prev.dealerIndex]; [undefined] is falsy *)
  let dealerTenpai := default false (JS.get drawTenpai (dealerIndex prev)) in
  let nextHonba := honba prev + 1 in
  let '(nextDealer, nextKyoku) :=
    if negb dealerTenpai
    then (ensureSeatIndex (dealerIndex prev + 1),
          JS.rem (kyokuIndex prev + 1) 8)
    else (dealerIndex prev, kyokuIndex prev) in
  let afterSnapshot :=
    {| CoreSnapshot.points := newPoints;
       CoreSnapshot.kyotaku := newKyotaku;
       CoreSnapshot.honba := nextHonba;
       CoreSnapshot.kyokuIndex := nextKyoku;
       CoreSnapshot.dealerIndex := nextDealer;
       CoreSnapshot.history := entry :: history prev;
       CoreSnapshot.names := names prev |} in
  let meta :=
    {| LastSettlementMeta.type := draw;
       LastSettlementMeta.summary := summaryText text;
       LastSettlementMeta.timestamp := HistoryEntry.timestamp entry |} in
  mkConfirm true None (commit beforeSnapshot afterSnapshot meta).

(** ** Sequences of settlements *)

(** What the three dialogs hold when their confirm button is pressed. *)
Inductive Settlement : Type :=
| Tsumo (winner : option Z) (han fu : string) (riichi : list bool)
| Ron (winner loser : option Z) (han fu : string) (riichi : list bool)
| Draw (tenpai riichi : list bool).

(** Pressing confirm in a dialog rendered from [state] while the current
    state is [prev]. *)
Definition settle (state : GameState) (text : Rendering) (e : Settlement)
    (prev : GameState) : Confirm :=
  match e with
  | Tsumo winner han fu riichi =>
      handleTsumoConfirm state text winner han fu riichi prev
  | Ron winner loser han fu riichi =>
      handleRonConfirm state text winner loser han fu riichi prev
  | Draw tenpai riichi =>
      handleDrawConfirm state text tenpai riichi prev
  end.

(** In a sequence of settlements each dialog is rendered from the state the
    previous settlement left. *)
Definition confirm (text : Rendering) (e : Settlement) (s : GameState)
    : Confirm :=
  settle s text e s.

Fixpoint play (log : list (Rendering * Settlement)) (s : GameState)
    : GameState :=
  match log with
  | [] => s
  | (text, e) :: rest => play rest (next (confirm text e s))
  end.

(** A seat of the table: 0, 1, 2 or 3. *)
Definition isSeat (i : Z) : bool := (0 <=? i) && (i <? 4).

Definition seatChoice (c : option Z) : bool :=
  match c with
  | None => true
  | Some i => isSeat i
  end.

(** One flag per seat, as the dialogs keep them. *)
Definition fourFlags (flags : list bool) : bool :=
  Nat.eqb (length flags) 4.

(** The inputs the dialogs can produce: seats of the table (or no choice)
    and four flags per check-box group; the han and fu fields are free
    text. *)
Definition validSettlement (e : Settlement) : bool :=
  match e with
  | Tsumo winner _ _ riichi => seatChoice winner && fourFlags riichi
  | Ron winner loser _ _ riichi =>
      seatChoice winner && seatChoice loser && fourFlags riichi
  | Draw tenpai riichi => fourFlags tenpai && fourFlags riichi
  end.

Definition sumList (l : list Z) : Z := fold_right Z.add 0 l.

(** The conservation law: the four stacks and the sticks on the table. *)
Definition conserved (s : GameState) : Prop :=
  sumList (points s) + kyotaku s * 1000 = 100000.

(** ** Persisted state *)

(** A value produced by [JSON.parse]. *)
#[local] Unset Elimination Schemes.
Inductive json : Type :=
| JNull
| JBool (b : bool)
| JNum (n : JS.number)
| JStr (s : string)
| JArr (items : list json)
| JObj (members : list (string * json)).
#[local] Set Elimination Schemes.

(** A whole number as a parsed value. *)
Definition JInt (z : Z) : json := JNum (JS.Whole z).

Module Json.

(** The last member with the given key, as [JSON.parse] keeps it. *)
Fixpoint member (key : string) (members : list (string * json))
    : option json :=
  match members with
  | [] => None
  | (k, v) :: rest =>
      match member key rest with
      | Some later => Some later
      | None => if String.eqb k key then Some v else None
      end
  end.

(** [v.key] for one of the keys the loader reads; [None] is
    [undefined]. *)
Definition prop (v : json) (key : string) : option json :=
  match v with
  | JObj members => member key members
  | _ => None
  end.

(** The truthiness of a parsed value. *)
Definition truthy (v : json) : bool :=
  match v with
  | JNull => false
  | JBool b => b
  | JNum n => JS.toBoolean n
  | JStr s => negb (String.eqb s EmptyString)
  | JArr _ | JObj _ => true
  end.

(** [Array.isArray(v) ? v : undefined]. *)
Definition asArray (v : option json) : option (list json) :=
  match v with
  | Some (JArr items) => Some items
  | _ => None
  end.

(** [typeof v === "number" ? v : undefined]. *)
Definition asNumber (v : option json) : option JS.number :=
  match v with
  | Some (JNum n) => Some n
  | _ => None
  end.

(** [v ?? dflt]: [undefined] and [null] give way to the default. *)
Definition orDefault (v : option json) (dflt : json) : json :=
  match v with
  | None | Some JNull => dflt
  | Some other => other
  end.

End Json.

(** [PLAYER_LABELS[index]] for an index of a four-element array. *)
Definition playerLabel (index : Z) : string :=
  default EmptyString (JS.get PLAYER_LABELS index).

Definition sanitizeNames (input : option json) : list string :=
  match Json.asArray input with
  | Some items =>
      if negb (Nat.eqb (length items) 4) then createDefaultNames
      else
        JS.mapi
          (fun value index =>
             match value with
             | JStr value =>
                 let trimmed := JS.trim value in
                 if (0 <? Z.of_nat (String.length trimmed))%Z then trimmed
                 else playerLabel index
             | _ => playerLabel index
             end)
          items
  | None => createDefaultNames
  end.

(** The object the loader passes to [setState].  Nothing checks the elements
    of [points] or [history] nor the shape of the undo fields, so they stay
    parsed values; nothing checks that the four numbers are whole, so they
    stay numbers as parsed. *)
Module Loaded.
Record t : Type := mk {
  points : list json;
  kyotaku : JS.number;
  honba : JS.number;
  kyokuIndex : JS.number;
  dealerIndex : JS.number;
  history : list json;
  names : list string;
  lastSettlementBefore : json;
  lastSettlementAfter : json;
  lastSettlementMeta : json;
  isInUndo : json
}.
End Loaded.

(** What the storage holds under [STORAGE_KEY]. *)
Inductive Stored : Type :=
| Absent                      (* [getItem] gave [null] or the empty string *)
| Unparsable                  (* [JSON.parse] throws *)
| Document (parsed : json).

(** The body of the loading effect: [Some baseState] when it reaches
    [setState(baseState)], [None] when it returns, or catches the exception
    of [JSON.parse], without touching the state. *)
Definition load (stored : Stored) : option Loaded.t :=
  match stored with
  | Absent => None
  | Unparsable => None
  | Document parsed =>
      if negb (Json.truthy parsed) then None
      else
        match Json.asArray (Json.prop parsed "points"),
              Json.asNumber (Json.prop parsed "honba"),
              Json.asNumber (Json.prop parsed "kyokuIndex"),
              Json.asNumber (Json.prop parsed "dealerIndex") with
        | Some points, Some honba, Some kyokuIndex, Some dealerIndex =>
            if negb (Nat.eqb (length points) 4) then None
            else
              Some
                {| Loaded.points := points;
                   Loaded.kyotaku :=
                     default (JS.Whole 0)
                       (Json.asNumber (Json.prop parsed "kyotaku"));
                   Loaded.honba := honba;
                   Loaded.kyokuIndex := kyokuIndex;
                   Loaded.dealerIndex := ensureSeatIndexOfNumber dealerIndex;
                   Loaded.history :=
                     default [] (Json.asArray (Json.prop parsed "history"));
                   Loaded.names := sanitizeNames (Json.prop parsed "names");
                   Loaded.lastSettlementBefore :=
                     Json.orDefault (Json.prop parsed "lastSettlementBefore")
                       JNull;
                   Loaded.lastSettlementAfter :=
                     Json.orDefault (Json.prop parsed "lastSettlementAfter")
                       JNull;
                   Loaded.lastSettlementMeta :=
                     Json.orDefault (Json.prop parsed "lastSettlementMeta")
                       JNull;
                   Loaded.isInUndo :=
                     Json.orDefault (Json.prop parsed "isInUndo")
                       (JBool false) |}
        | _, _, _, _ => None
        end
  end.

(** The state of the application once the loading effect has run on the
    state [current] it started with. *)
Definition stateAfterLoad (stored : Stored) (current : GameState)
    : GameState + Loaded.t :=
  match load stored with
  | Some baseState => inr baseState
  | None => inl current
  end.

(** ** The statements of the specification, in its own terms *)

Definition seats : list Z := [0; 1; 2; 3].

(** The flag of a seat in a check-box group. *)
Definition flagAt (flags : list bool) (seat : Z) : bool :=
  default false (JS.get flags seat).

(** The number of riichi declarers of the hand. *)
Definition declarers (riichi : list bool) : Z :=
  sumList (map (fun v : bool => if v then 1 else 0) riichi).

(** The stick a declarer puts on the table. *)
Definition riichiStick (riichi : list bool) (seat : Z) : Z :=
  if flagAt riichi seat then -1000 else 0.

(** The text of a han or fu field reads as the positive finite integer
    [n]. *)
Definition positiveFinite (input : string) (n : Z) : Prop :=
  JS.parseInt input = JS.Int n /\ 0 < n /\ n < JS.DOUBLE_OVERFLOW.

Definition readable (input : string) : Prop :=
  exists n, positiveFinite input n.

Module TsumoSpec.

(** What [seat] pays to a self-drawing [winner]. *)
Definition payment (basePoints honba dealer winner seat : Z) : Z :=
  if winner =? dealer
  then roundUpToHundred (2 * basePoints) + honba * 100
  else if seat =? dealer
  then roundUpToHundred (2 * basePoints) + honba * 100
  else roundUpToHundred basePoints + honba * 100.

Definition collected (basePoints honba dealer winner : Z) : Z :=
  sumList (map (payment basePoints honba dealer winner)
         (List.filter (fun seat => negb (seat =? winner)) seats)).

Definition delta (state : GameState) (winner han fu : Z)
    (riichi : list bool) (seat : Z) : Z :=
  let basePoints := calcBasePoints han fu in
  riichiStick riichi seat +
  (if seat =? winner
   then collected basePoints (honba state) (dealerIndex state) winner
        + kyotaku state * 1000 + 1000 * declarers riichi
   else - payment basePoints (honba state) (dealerIndex state) winner seat).

End TsumoSpec.

Module RonSpec.

Definition multiplier (state : GameState) (winner : Z) : Z :=
  if winner =? dealerIndex state then 6 else 4.

Definition payment (state : GameState) (winner han fu : Z) : Z :=
  roundUpToHundred (multiplier state winner * calcBasePoints han fu)
  + honba state * 300.

Definition delta (state : GameState) (winner loser han fu : Z)
    (riichi : list bool) (seat : Z) : Z :=
  riichiStick riichi seat +
  (if seat =? loser then - payment state winner han fu
   else if seat =? winner
   then payment state winner han fu + kyotaku state * 1000
        + 1000 * declarers riichi
   else 0).

End RonSpec.

Module DrawSpec.

Definition tenpaiCount (tenpai : list bool) : Z :=
  sumList (map (fun v : bool => if v then 1 else 0) tenpai).

(** The noten payment received (positive) or paid (negative) by a seat. *)
Definition transfer (tenpai : list bool) (seat : Z) : Z :=
  let k := tenpaiCount tenpai in
  if flagAt tenpai seat then
    if k =? 1 then 3000
    else if k =? 2 then 1500
    else if k =? 3 then 1000
    else 0
  else
    if k =? 1 then -1000
    else if k =? 2 then -1500
    else if k =? 3 then -3000
    else 0.

Definition delta (tenpai riichi : list bool) (seat : Z) : Z :=
  riichiStick riichi seat + transfer tenpai seat.

End DrawSpec.

(** The state of the round state machine. *)
Definition position (s : GameState) : Z * Z * Z :=
  (dealerIndex s, kyokuIndex s, honba s).

Module RoundSpec.

Definition nextSeat (d : Z) : Z := (d + 1) mod 4.
Definition nextRound (r : Z) : Z := (r + 1) mod 8.

Definition afterWin (s : GameState) (winner : Z) : Z * Z * Z :=
  if winner =? dealerIndex s
  then (dealerIndex s, kyokuIndex s, honba s + 1)
  else (nextSeat (dealerIndex s), nextRound (kyokuIndex s), 0).

Definition afterDraw (s : GameState) (tenpai : list bool) : Z * Z * Z :=
  if flagAt tenpai (dealerIndex s)
  then (dealerIndex s, kyokuIndex s, honba s + 1)
  else (nextSeat (dealerIndex s), nextRound (kyokuIndex s), honba s + 1).

End RoundSpec.

(** Every stack has grown by the delta of its seat; a stack whose seat has
    no delta is kept. *)
Definition deltasAdded (before deltas after : list Z) : Prop :=
  length after = length before /\
  (forall seat p d,
     JS.get before seat = Some p -> JS.get deltas seat = Some d ->
     JS.get after seat = Some (p + d)) /\
  (forall seat p,
     JS.get before seat = Some p -> JS.get deltas seat = None ->
     JS.get after seat = Some p).

(** A before / after pair is pending. *)
Definition hasLastSettlement (s : GameState) : bool :=
  match lastSettlementBefore s, lastSettlementAfter s,
        lastSettlementMeta s with
  | Some _, Some _, Some _ => true
  | _, _, _ => false
  end.

Module LoadSpec.

Definition isNumber (v : option json) : bool :=
  match v with
  | Some (JNum _) => true
  | _ => false
  end.

Definition isArrayOf4 (v : option json) : bool :=
  match v with
  | Some (JArr items) => Nat.eqb (length items) 4
  | _ => false
  end.

Definition isNumericArrayOf4 (v : option json) : bool :=
  match v with
  | Some (JArr items) =>
      Nat.eqb (length items) 4 && forallb (fun x => isNumber (Some x)) items
  | _ => false
  end.

Definition isNullish (v : option json) : bool :=
  match v with
  | None | Some JNull => true
  | _ => false
  end.

(** A stored name, trimmed, or the label of its position when nothing is
    left of it or it is no string. *)
Definition name (v : json) (index : Z) : string :=
  match v with
  | JStr s =>
      if String.eqb (JS.trim s) EmptyString then playerLabel index
      else JS.trim s
  | _ => playerLabel index
  end.

(** The conditions under which the loader accepts a parsed document. *)
Definition accepted (parsed : json) : bool :=
  Json.truthy parsed
  && isArrayOf4 (Json.prop parsed "points")
  && isNumber (Json.prop parsed "honba")
  && isNumber (Json.prop parsed "kyokuIndex")
  && isNumber (Json.prop parsed "dealerIndex").

(** The acceptance condition as the specification words it. *)
Definition acceptedAsStated (parsed : json) : bool :=
  isNumericArrayOf4 (Json.prop parsed "points")
  && isNumber (Json.prop parsed "honba")
  && isNumber (Json.prop parsed "kyokuIndex")
  && isNumber (Json.prop parsed "dealerIndex").

End LoadSpec.

(** A stored document with texts for points, a negative dealer and a number
    where a snapshot belongs. *)
Definition strayDocument : json :=
  JObj [ ("points", JArr [JStr "a"; JStr "b"; JStr "c"; JStr "d"]);
         ("honba", JInt 0);
         ("kyokuIndex", JInt 0);
         ("dealerIndex", JInt (-1));
         ("lastSettlementBefore", JInt 5) ].

(** A stored document whose dealer index is 6.5 and whose first nickname
    is wrapped in an ideographic and a no-break space. *)
Definition fractionalDocument : json :=
  JObj [ ("points", JArr [JInt 25000; JInt 25000; JInt 25000; JInt 25000]);
         ("honba", JInt 0);
         ("kyokuIndex", JInt 0);
         ("dealerIndex", JNum (JS.Fraction 6 1));
         ("names",
          JArr [JStr (JS.utf8 0x3000 +:+ "Aki" +:+ JS.utf8 0xA0);
                JStr (JS.utf8 0x3000); JNull; JNull]) ].

(** A document as the program saves it after a first hand. *)
Definition savedDocument : json :=
  JObj [ ("points", JArr [JInt 32800; JInt 22400; JInt 22400; JInt 22400]);
         ("kyotaku", JInt 0);
         ("honba", JInt 1);
         ("kyokuIndex", JInt 0);
         ("dealerIndex", JInt 0);
         ("history", JArr []);
         ("names", JArr [JStr " Aki "; JStr "  "; JStr "Chie"; JNull]);
         ("lastSettlementBefore", JNull);
         ("isInUndo", JBool false) ].

(** The inputs on which a confirmation has to be refused. *)
Definition mustReject (e : Settlement) : Prop :=
  match e with
  | Tsumo winner han fu _ =>
      winner = None \/ ~ readable han \/ ~ readable fu
  | Ron winner loser han fu _ =>
      winner = None \/ loser = None \/ winner = loser
      \/ ~ readable han \/ ~ readable fu
  | Draw _ _ => False
  end.

(** Where the round state machine has to go after a settlement of [s]. *)
Definition expectedPosition (s : GameState) (e : Settlement) : Z * Z * Z :=
  match e with
  | Tsumo (Some winner) _ _ _ => RoundSpec.afterWin s winner
  | Ron (Some winner) _ _ _ _ => RoundSpec.afterWin s winner
  | Draw tenpai _ => RoundSpec.afterDraw s tenpai
  | _ => position s
  end.

(** The position the handlers compute, with the remainders they use. *)
Definition positionInstalled (s : GameState) (e : Settlement) : Z * Z * Z :=
  let rotated (h : Z) :=
    (ensureSeatIndex (dealerIndex s + 1), JS.rem (kyokuIndex s + 1) 8, h) in
  let stayed := (dealerIndex s, kyokuIndex s, honba s + 1) in
  match e with
  | Tsumo (Some winner) _ _ _ | Ron (Some winner) _ _ _ _ =>
      if winner =? dealerIndex s then stayed else rotated 0
  | Draw tenpai _ =>
      if flagAt tenpai (dealerIndex s) then stayed else rotated (honba s + 1)
  | _ => position s
  end.

(** What every state of a match satisfies: four stacks, a dealer among the
    seats, and the conservation law. *)
Definition tableInvariant (s : GameState) : Prop :=
  length (points s) = 4%nat /\ isSeat (dealerIndex s) = true /\ conserved s.

(** ** The rest of the scoreboard: round display, manual edits, reset *)

(** [RoundWind = "东" | "南"]. *)
Inductive RoundWind : Type := East | South.

Definition windText (wind : RoundWind) : string :=
  match wind with
  | East => "东"
  | South => "南"
  end.

(** [`${n}`] for an integer below 10^21 in magnitude: its decimal digits,
    with a minus sign when negative. *)
Definition showInt (n : Z) : string :=
  DecimalString.NilZero.string_of_int (Z.to_int n).

Module RoundInfo.
Record t : Type := mk {
  wind : RoundWind;
  number : Z;
  label : string
}.
End RoundInfo.

Definition getRoundInfo (kyokuIndex honba : Z) : RoundInfo.t :=
  let wind := if kyokuIndex <? 4 then East else South in
  let number := if kyokuIndex <? 4 then kyokuIndex + 1 else kyokuIndex - 3 in
  let label :=
    windText wind +:+ showInt number +:+ "局" +:+ showInt honba +:+ "本场" in
  {| RoundInfo.wind := wind;
     RoundInfo.number := number;
     RoundInfo.label := label |}.

(** The availability of the undo and redo buttons. *)
Definition canUndo (state : GameState) : bool :=
  hasLastSettlement state && negb (isInUndo state).

Definition canRedo (state : GameState) : bool :=
  hasLastSettlement state && isInUndo state.

Definition resetGame (resetNames : bool) (prev : GameState) : GameState :=
  {| points := points createInitialGameState;
     kyotaku := kyotaku createInitialGameState;
     honba := honba createInitialGameState;
     kyokuIndex := kyokuIndex createInitialGameState;
     dealerIndex := dealerIndex createInitialGameState;
     history := history createInitialGameState;
     names := if resetNames then createDefaultNames else names prev;
     lastSettlementBefore := lastSettlementBefore createInitialGameState;
     lastSettlementAfter := lastSettlementAfter createInitialGameState;
     lastSettlementMeta := lastSettlementMeta createInitialGameState;
     isInUndo := isInUndo createInitialGameState |}.

(** The four fields of the edit-round dialog.  The number and the honba
    are what the change handlers below leave of the typed text, which need
    not be whole. *)
Record EditRound : Type := mkEditRound {
  editWind : RoundWind;
  editNumber : JS.number;
  editHonba : JS.number;
  editDealer : Z
}.

(** The state of this development holds whole numbers.  With a form number
    that is not whole the program installs [editNumber - 1] or
    [3 + editNumber] rounded to a double, and with a honba that is not
    whole [Math.max(0, editHonba)] as it is; no [GameState] stands for
    that, and the result is [None]. *)
Definition handleEditRoundConfirm (form : EditRound) (prev : GameState)
    : option GameState :=
  match JS.whole (editNumber form),
        JS.whole (JS.mathMax 0 (editHonba form)) with
  | Some editNumber, Some honba =>
      let kyokuIndex :=
        match editWind form with
        | East => editNumber - 1
        | South => 3 + editNumber
        end in
      Some
        {| points := points prev;
           kyotaku := kyotaku prev;
           honba := honba;
           kyokuIndex := kyokuIndex;
           dealerIndex := editDealer form;
           history := history prev;
           names := names prev;
           lastSettlementBefore := lastSettlementBefore prev;
           lastSettlementAfter := lastSettlementAfter prev;
           lastSettlementMeta := lastSettlementMeta prev;
           isInUndo := isInUndo prev |}
  | _, _ => None
  end.

(** The effect that fills the dialog from the state when it opens. *)
Definition openEditRound (state : GameState) : EditRound :=
  let info := getRoundInfo (kyokuIndex state) (honba state) in
  {| editWind := RoundInfo.wind info;
     editNumber := JS.Whole (RoundInfo.number info);
     editHonba := JS.Whole (honba state);
     editDealer := dealerIndex state |}.

(** The change handlers of the two numeric fields, applied to the value
    [Number(e.target.value)] of the typed text. *)
Definition changeEditNumber (typed : JS.number) (form : EditRound)
    : EditRound :=
  {| editWind := editWind form;
     editNumber := JS.mathMin 4 (JS.mathMax 1 (JS.orNumber typed (JS.Whole 1)));
     editHonba := editHonba form;
     editDealer := editDealer form |}.


(** The save button of the nickname dialog. *)
Definition saveNames (editNames : list string) (prev : GameState)
    : GameState :=
  {| points := points prev;
     kyotaku := kyotaku prev;
     honba := honba prev;
     kyokuIndex := kyokuIndex prev;
     dealerIndex := dealerIndex prev;
     history := history prev;
     names := sanitizeNames (Some (JArr (map JStr editNames)));
     lastSettlementBefore := lastSettlementBefore prev;
     lastSettlementAfter := lastSettlementAfter prev;
     lastSettlementMeta := lastSettlementMeta prev;
     isInUndo := isInUndo prev |}.

(** Everything an operator can do to the match. *)
Inductive Action : Type :=
| Settle (text : Rendering) (e : Settlement)
| Undo
| Redo
| EditRoundAction (form : EditRound)
| SaveNames (editNames : list string)
| Reset (resetNames : bool).

(** The state after an action; [None] only for a round edit with numbers
    that are not whole. *)
Definition act (a : Action) (s : GameState) : option GameState :=
  match a with
  | Settle text e => Some (next (confirm text e s))
  | Undo => Some (handleUndoLastSettlement s)
  | Redo => Some (handleRedoLastSettlement s)
  | EditRoundAction form => handleEditRoundConfirm form s
  | SaveNames editNames => Some (saveNames editNames s)
  | Reset resetNames => Some (resetGame resetNames s)
  end.

Fixpoint runActions (actions : list Action) (s : GameState)
    : option GameState :=
  match actions with
  | [] => Some s
  | a :: rest =>
      match act a s with
      | Some s' => runActions rest s'
      | None => None
      end
  end.

(** The largest honba a round edit is taken to set.  With it every payment
    and every stack stays far below 2^53, where the sums of the program are
    exact, for a million hands. *)
Definition EDITED_HONBA_LIMIT : Z := 1000000.

(** A round edit with whole numbers: a dealer among the seats, a round
    number that is one of 1, 2, 3 and 4, and a honba that the clamp
    [Math.max(0, editHonba)] leaves whole and not above
    [EDITED_HONBA_LIMIT]. *)
Definition wholeEdit (form : EditRound) : bool :=
  isSeat (editDealer form)
  && match JS.whole (editNumber form),
           JS.whole (JS.mathMax 0 (editHonba form)) with
     | Some number, Some honba =>
         (1 <=? number) && (number <=? 4) && (honba <=? EDITED_HONBA_LIMIT)
     | _, _ => false
     end.

(** The actions considered below: settlements as the dialogs produce them
    and round edits with whole numbers. *)
Definition validAction (a : Action) : bool :=
  match a with
  | Settle _ e => validSettlement e
  | EditRoundAction form => wholeEdit form
  | _ => true
  end.

(** A snapshot with four stacks, a seated dealer and the full total. *)
Definition snapshotSound (snapshot : option CoreSnapshot.t) : Prop :=
  match snapshot with
  | None => True
  | Some c =>
      length (CoreSnapshot.points c) = 4%nat /\
      isSeat (CoreSnapshot.dealerIndex c) = true /\
      sumList (CoreSnapshot.points c) + CoreSnapshot.kyotaku c * 1000
      = 100000
  end.

Definition matchInvariant (s : GameState) : Prop :=
  tableInvariant s /\
  snapshotSound (lastSettlementBefore s) /\
  snapshotSound (lastSettlementAfter s).

(** The kind and the riichi flags of a settlement. *)
Definition settlementType (e : Settlement) : SettlementType :=
  match e with
  | Tsumo _ _ _ _ => tsumo
  | Ron _ _ _ _ _ => ron
  | Draw _ _ => draw
  end.

Definition riichiOf (e : Settlement) : list bool :=
  match e with
  | Tsumo _ _ _ riichi | Ron _ _ _ _ riichi | Draw _ riichi => riichi
  end.

(** ** Ranking *)

(** [Array.prototype.sort(cmp)] for a comparator that orders the elements
    consistently: the sorted arrangement that keeps elements comparing equal
    in their original order, which every conforming engine returns.  It is
    computed here by insertion from the right. *)
Fixpoint insertSorted {A : Type} (cmp : A -> A -> Z) (x : A)
    (sorted : list A) : list A :=
  match sorted with
  | [] => [x]
  | y :: rest =>
      if cmp x y <=? 0 then x :: y :: rest
      else y :: insertSorted cmp x rest
  end.

Definition sortWith {A : Type} (cmp : A -> A -> Z) (arr : list A) : list A :=
  fold_right (insertSorted cmp) [] arr.

Module Ranking.
Record entry : Type := mk {
  index : Z;
  score : Z
}.
End Ranking.

Definition computePlayerRanks (points : list Z) : list Z :=
  let entries :=
    JS.mapi (fun score index => Ranking.mk index score) points in
  let entries :=
    sortWith
      (fun a b =>
         if negb (Ranking.score b =? Ranking.score a)
         then Ranking.score b - Ranking.score a
         else Ranking.index a - Ranking.index b)
      entries in
  let ranks := replicate (length points) 0 in
  let '(ranks, lastScore, lastRank) :=
    JS.forEach entries
      (fun entry idx '(ranks, lastScore, lastRank) =>
         if match lastScore with
            | Some last => Ranking.score entry =? last
            | None => false
            end
         then (JS.update (fun _ => lastRank) (Ranking.index entry) ranks,
               lastScore, lastRank)
         else
           let rank := idx + 1 in
           (JS.update (fun _ => rank) (Ranking.index entry) ranks,
            Some (Ranking.score entry), rank))
      (ranks, None, 0) in
  ranks.

(** [ranks.length ? Math.min(...ranks) : 1] and its counterpart. *)
Definition bestRank (playerRanks : list Z) : Z :=
  match playerRanks with
  | [] => 1
  | r :: rest => fold_left Z.min rest r
  end.

Definition worstRank (playerRanks : list Z) : Z :=
  match playerRanks with
  | [] => 1
  | r :: rest => fold_left Z.max rest r
  end.

(** The loop of [forEach] from index [k] on. *)
Fixpoint forEachFrom {A S : Type} (k : Z) (arr : list A)
    (body : A -> Z -> S -> S) (captured : S) : S :=
  match arr with
  | [] => captured
  | x :: rest => forEachFrom (k + 1) rest body (body x k captured)
  end.

(** The number of scores above [p]. *)
Definition higherScores (points : list Z) (p : Z) : Z :=
  Z.of_nat (length (List.filter (fun q => p <? q) points)).

(** ** Saving the state *)

(** The persist effect writes [JSON.stringify(state)] under [STORAGE_KEY]
    and the loader reads it back with [JSON.parse].  The functions below
    give the value [JSON.parse] returns for the text [JSON.stringify]
    wrote: whole numbers, strings and booleans as they are, arrays element
    by element, objects key by key in the order the program creates them, an
    [undefined] property left out and an [undefined] array element turned
    into [null]. *)
Definition encodeType (type : SettlementType) : json :=
  match type with
  | tsumo => JStr "tsumo"
  | ron => JStr "ron"
  | draw => JStr "draw"
  end.

Definition encodeEntry (h : HistoryEntry.t) : json :=
  JObj
    ([("id", JStr (HistoryEntry.id h));
      ("type", encodeType (HistoryEntry.type h));
      ("roundLabel", JStr (HistoryEntry.roundLabel h))]
     ++ match HistoryEntry.dealerLabel h with
        | Some label => [("dealerLabel", JStr label)]
        | None => []
        end
     ++ [("riichiCount", JInt (HistoryEntry.riichiCount h));
         ("description", JStr (HistoryEntry.description h));
         ("timestamp", JStr (HistoryEntry.timestamp h));
         ("playerNames", JArr (map JStr (HistoryEntry.playerNames h)));
         ("riichiPlayers",
          JArr (map (fun name => match name with
                                 | Some n => JStr n
                                 | None => JNull
                                 end)
                  (HistoryEntry.riichiPlayers h)));
         ("deltas", JArr (map JInt (HistoryEntry.deltas h)))])%list.

Definition encodeSnapshot (snapshot : option CoreSnapshot.t) : json :=
  match snapshot with
  | None => JNull
  | Some c =>
      JObj [("points", JArr (map JInt (CoreSnapshot.points c)));
            ("kyotaku", JInt (CoreSnapshot.kyotaku c));
            ("honba", JInt (CoreSnapshot.honba c));
            ("kyokuIndex", JInt (CoreSnapshot.kyokuIndex c));
            ("dealerIndex", JInt (CoreSnapshot.dealerIndex c));
            ("history", JArr (map encodeEntry (CoreSnapshot.history c)));
            ("names", JArr (map JStr (CoreSnapshot.names c)))]
  end.

Definition encodeMeta (meta : option LastSettlementMeta.t) : json :=
  match meta with
  | None => JNull
  | Some m =>
      JObj [("type", encodeType (LastSettlementMeta.type m));
            ("summary", JStr (LastSettlementMeta.summary m));
            ("timestamp", JStr (LastSettlementMeta.timestamp m))]
  end.

Definition encodeState (state : GameState) : json :=
  JObj [("points", JArr (map JInt (points state)));
        ("kyotaku", JInt (kyotaku state));
        ("honba", JInt (honba state));
        ("kyokuIndex", JInt (kyokuIndex state));
        ("dealerIndex", JInt (dealerIndex state));
        ("history", JArr (map encodeEntry (history state)));
        ("names", JArr (map JStr (names state)));
        ("lastSettlementBefore", encodeSnapshot (lastSettlementBefore state));
        ("lastSettlementAfter", encodeSnapshot (lastSettlementAfter state));
        ("lastSettlementMeta", encodeMeta (lastSettlementMeta state));
        ("isInUndo", JBool (isInUndo state))].

(** The state as the application holds it after a reload that changed
    nothing. *)
Definition reloaded (state : GameState) : Loaded.t :=
  {| Loaded.points := map JInt (points state);
     Loaded.kyotaku := JS.Whole (kyotaku state);
     Loaded.honba := JS.Whole (honba state);
     Loaded.kyokuIndex := JS.Whole (kyokuIndex state);
     Loaded.dealerIndex := JS.Whole (dealerIndex state);
     Loaded.history := map encodeEntry (history state);
     Loaded.names := names state;
     Loaded.lastSettlementBefore :=
       encodeSnapshot (lastSettlementBefore state);
     Loaded.lastSettlementAfter := encodeSnapshot (lastSettlementAfter state);
     Loaded.lastSettlementMeta := encodeMeta (lastSettlementMeta state);
     Loaded.isInUndo := JBool (isInUndo state) |}.

(** Four nicknames, none empty, each trimmed. *)
Definition cleanNames (names : list string) : Prop :=
  length names = 4%nat /\
  Forall (fun n => n <> EmptyString /\ JS.trim n = n) names.

Definition snapshotNamesClean (snapshot : option CoreSnapshot.t) : Prop :=
  match snapshot with
  | None => True
  | Some c => cleanNames (CoreSnapshot.names c)
  end.

Definition namesInvariant (s : GameState) : Prop :=
  cleanNames (names s) /\
  snapshotNamesClean (lastSettlementBefore s) /\
  snapshotNamesClean (lastSettlementAfter s).

(** The table of point differences between the seats. *)
Definition diffMatrix (points : list Z) : list (list Z) :=
  JS.mapi
    (fun score i =>
       JS.mapi (fun other j => if i =? j then 0 else score - other) points)
    points.

(** The dealer's seat follows the round, the round is one of the eight of
    a match and the honba is not negative. *)
Definition roundInvariant (s : GameState) : Prop :=
  dealerIndex s = kyokuIndex s mod 4 /\
  0 <= kyokuIndex s < 8 /\
  0 <= honba s.

(** The string begins with a white-space character. *)
Definition startsWithWhiteSpace (s : string) : bool :=
  match s with
  | String a (String b (String c _)) =>
      JS.isWhiteSpace (String a EmptyString)
      || JS.isWhiteSpace (String a (String b EmptyString))
      || JS.isWhiteSpace (String a (String b (String c EmptyString)))
  | String a (String b EmptyString) =>
      JS.isWhiteSpace (String a EmptyString)
      || JS.isWhiteSpace (String a (String b EmptyString))
  | String a EmptyString => JS.isWhiteSpace (String a EmptyString)
  | EmptyString => false
  end.

(** * Properties *)

(** ** Worked hands *)

Example parseInt_reads_a_prefix : JS.parseInt "  -12px" = JS.Int (-12).
Proof. reflexivity. Qed.

Example parseInt_without_digits : JS.parseInt "han" = JS.NaN.
Proof. reflexivity. Qed.

(** The encoder agrees with the bytes of the labels in this file. *)
Example utf8_of_a_label :
  (JS.utf8 0x4E1C +:+ JS.utf8 0x98CE +:+ JS.utf8 0x5BB6 = "东风家")%string.
Proof. reflexivity. Qed.

(** An ideographic space, a no-break space and a byte order mark in front
    of the digits are skipped like a blank. *)
Example parseInt_skips_wide_space :
  JS.parseInt (JS.utf8 0x3000 +:+ JS.utf8 0xA0 +:+ JS.utf8 0xFEFF +:+ "3")
  = JS.Int 3.
Proof. reflexivity. Qed.

Example trim_wide_space :
  JS.trim (JS.utf8 0x3000 +:+ " Aki Ben" +:+ JS.utf8 0xA0 +:+ JS.utf8 0x3000)
  = "Aki Ben"%string /\
  JS.trim (JS.utf8 0xA0) = EmptyString /\
  JS.trim "东风家" = "东风家"%string.
Proof. repeat split. Qed.

(** NEXT LINE (U+0085) and the zero width space (U+200B) are no white
    space of ECMAScript. *)
Example trim_keeps_other_marks :
  JS.trim (JS.utf8 0x85 +:+ "Aki" +:+ JS.utf8 0x200B)
  = (JS.utf8 0x85 +:+ "Aki" +:+ JS.utf8 0x200B)%string.
Proof. reflexivity. Qed.

Example blank_names_get_labels :
  sanitizeNames
    (Some (JArr [JStr (JS.utf8 0x3000 +:+ "Aki"); JStr (JS.utf8 0xA0);
                 JStr EmptyString; JInt 4]))
  = ["Aki"; "南风家"; "西风家"; "北风家"]%string.
Proof. reflexivity. Qed.

Example wide_space_han_is_settled :
  let c :=
    handleTsumoConfirm createInitialGameState
      (mkRendering "1-0" "E1" "tsumo" "12:00" "tsumo") (Some 0)
      (JS.utf8 0x3000 +:+ "3") "40" [false; false; false; false]
      createInitialGameState in
  returned c = true /\ points (next c) = [32800; 22400; 22400; 22400].
Proof. split; reflexivity. Qed.

(** 6.5 % 4 is 2.5, -4.5 % 4 is -0.5 and -7 % 4 is -3. *)
Example remainders :
  JS.remainder (JS.Fraction 6 1) 4 = JS.Fraction 2 1 /\
  JS.remainder (JS.Fraction (-5) 1) 4 = JS.Fraction (-1) 1 /\
  JS.remainder (JS.Whole (-7)) 4 = JS.Whole (-3).
Proof. repeat split. Qed.

Example roundUpToHundred_2560 : roundUpToHundred 2560 = 2600.
Proof. reflexivity. Qed.

Example dealer_tsumo_3_40 :
  SettlementPreview.deltas <$>
    computeTsumoPreview createInitialGameState (Some 0) "3" "40"
      [false; false; false; false]
  = Some [7800; -2600; -2600; -2600].
Proof. reflexivity. Qed.

Example nondealer_tsumo_with_riichi :
  SettlementPreview.deltas <$>
    computeTsumoPreview createInitialGameState (Some 2) "3" "40"
      [false; true; false; false]
  = Some [-2600; -2300; 6200; -1300].
Proof. reflexivity. Qed.

Example nondealer_ron_3_40 :
  SettlementPreview.deltas <$>
    computeRonPreview createInitialGameState (Some 2) (Some 1) "3" "40"
      [false; false; false; false]
  = Some [0; -5200; 5200; 0].
Proof. reflexivity. Qed.

Example draw_with_one_tenpai :
  SettlementPreview.deltas
    (computeDrawPreview createInitialGameState [false; false; true; false]
       [false; false; false; false])
  = [-1000; -1000; 3000; -1000].
Proof. reflexivity. Qed.

Example empty_han_is_refused :
  computeTsumoPreview createInitialGameState (Some 0) EmptyString "40"
    [false; false; false; false] = None.
Proof. reflexivity. Qed.

(** Eight hands won by a non-dealer bring the round back to East 1. *)
Example eighth_advance_wraps :
  let text := mkRendering "1-0" "E1" "ron" "12:00" "ron" in
  let hand d :=
    (text, Ron (Some ((d + 1) mod 4)) (Some d) "1" "30"
             [false; false; false; false]) in
  position (play (map hand [0; 1; 2; 3; 0; 1; 2; 3]) createInitialGameState)
  = (0, 0, 0) /\
  position (play (map hand [0; 1; 2; 3; 0; 1; 2]) createInitialGameState)
  = (3, 7, 0).
Proof. split; reflexivity. Qed.

(** ** Tactics and parsing facts shared by the proofs *)

(** Name the elements of a list known to have four of them. *)
Ltac four l H :=
  destruct l as [|? [|? [|? [|? [|? ?]]]]]; try discriminate H; clear H.

(** Enumerate the seats allowed by a hypothesis [isSeat i = true]. *)
Ltac seat_cases i H :=
  let R := fresh "R" in
  assert (R : i = 0 \/ i = 1 \/ i = 2 \/ i = 3)
    by (unfold isSeat in H; lia);
  clear H; destruct R as [-> | [-> | [-> | ->]]].

(** Split the pairs that a [let '(x, y) := e in _] takes apart. *)
Ltac split_lets :=
  repeat match goal with
         | |- context [match ?e with pair _ _ => _ end] => destruct e
         end.

Lemma mapi_imap {A B : Type} (g : A -> Z -> B) (arr : list A) :
  JS.mapi g arr = imap (fun i v => g v (Z.of_nat i)) arr.
Proof.
  unfold JS.mapi, JS.entries.
  generalize Z.of_nat as f. intros f. revert f.
  induction arr as [| x arr IH]; intros f; [reflexivity |].
  cbn [imap map fst snd]. f_equal. apply (IH (fun i => f (S i))).
Qed.

Lemma get_mapi {A B : Type} (g : A -> Z -> B) (l : list A) (i : Z) (x : A) :
  JS.get l i = Some x -> JS.get (JS.mapi g l) i = Some (g x i).
Proof.
  unfold JS.get. destruct (Z.leb_spec 0 i); [| discriminate].
  intros Hx. rewrite mapi_imap, list_lookup_imap, Hx. cbn.
  rewrite Z2Nat.id by lia. reflexivity.
Qed.

(** [applyDeltas] adds to every stack the delta of its seat. *)
Lemma applyDeltas_added (pts ds : list Z) :
  deltasAdded pts ds (applyDeltas pts ds).
Proof.
  unfold deltasAdded, applyDeltas. split.
  - rewrite mapi_imap. apply length_imap.
  - split.
    + intros seat p d Hp Hd. rewrite (get_mapi _ _ _ _ Hp), Hd. reflexivity.
    + intros seat p Hp Hd. rewrite (get_mapi _ _ _ _ Hp), Hd.
      cbn [default]. f_equal. lia.
Qed.

Lemma parseInt_empty : JS.parseInt EmptyString = JS.NaN.
Proof. reflexivity. Qed.

Lemma orElse_nonempty (s d : string) : s <> EmptyString -> JS.orElse s d = s.
Proof. destruct s; [congruence | reflexivity]. Qed.

(** A readable field passes the check of the previews and handlers, and is
    read as the same number with or without the [|| "0"] fallback. *)
Lemma positiveFinite_accepted (input : string) (n : Z) :
  positiveFinite input n ->
  JS.parseInt (JS.orElse input "0") = JS.Int n /\
  rejected (JS.Int n) = false.
Proof.
  intros (Hp & Hpos & Hfin). split.
  - rewrite orElse_nonempty; [exact Hp |].
    intros ->. rewrite parseInt_empty in Hp. discriminate.
  - unfold rejected, JS.isFinite, JS.le.
    apply orb_false_intro.
    + apply negb_false_iff, Z.ltb_lt. lia.
    + apply Z.leb_gt. lia.
Qed.

(** Conversely the check lets nothing else through. *)
Lemma accepted_positiveFinite (input : string) :
  rejected (JS.parseInt (JS.orElse input "0")) = false ->
  positiveFinite input (JS.num_val (JS.parseInt (JS.orElse input "0"))).
Proof.
  unfold rejected. intros H. apply orb_false_elim in H as [Hf Hle].
  destruct input as [|c rest].
  - discriminate.
  - unfold positiveFinite. cbn [JS.orElse] in *.
    destruct (JS.parseInt (String c rest)) as [|z]; [discriminate |].
    cbn [JS.isFinite JS.le JS.num_val] in *.
    apply negb_false_iff, Z.ltb_lt in Hf. apply Z.leb_gt in Hle.
    split; [reflexivity | lia].
Qed.

Lemma unreadable_rejected (input : string) :
  ~ readable input -> rejected (JS.parseInt (JS.orElse input "0")) = true.
Proof.
  intros H. destruct (rejected _) eqn:E; [reflexivity |].
  exfalso. apply H. eexists. apply accepted_positiveFinite. exact E.
Qed.

(** ** ScoreTable *)

(** C2: for positive han and fu, [calcBasePoints] is the tiered table read
    top-down with the first matching row winning, the last row being
    [min(2000, fu * 2^(han+2))]; in particular (4,30) and (3,60) give 2000,
    (13,20) gives 8000 and (6,30) gives 3000. *)
Theorem calcBasePoints_is_table (han fu : Z) :
  0 < han -> 0 < fu ->
  ScoreTableSpec.basePoints han fu = Some (calcBasePoints han fu) /\
  calcBasePoints 4 30 = 2000 /\
  calcBasePoints 3 60 = 2000 /\
  calcBasePoints 13 20 = 8000 /\
  calcBasePoints 6 30 = 3000.
Proof.
  intros Hhan Hfu. split; [| repeat split; reflexivity].
  unfold ScoreTableSpec.basePoints, ScoreTableSpec.table, calcBasePoints.
  cbn [ScoreTableSpec.firstMatch].
  repeat match goal with
         | |- context [if ?c then _ else _] => destruct c; [reflexivity |]
         end.
  f_equal. destruct (Z.ltb_spec 2000 (fu * 2 ^ (han + 2))); lia.
Qed.

Lemma calcBasePoints_is_table_witness :
  ScoreTableSpec.basePoints 3 40 = Some (calcBasePoints 3 40) /\
  calcBasePoints 4 30 = 2000 /\
  calcBasePoints 3 60 = 2000 /\
  calcBasePoints 13 20 = 8000 /\
  calcBasePoints 6 30 = 3000.
Proof. apply (calcBasePoints_is_table 3 40); lia. Defined.

(** ** Preview and confirmation compute the same settlement *)

Lemma tsumo_confirm_preview state text winner han fu riichi prev :
  let c := handleTsumoConfirm state text winner han fu riichi prev in
  match computeTsumoPreview prev winner han fu riichi with
  | None => returned c = false /\ next c = prev
  | Some preview =>
      returned c = true /\
      points (next c) =
        applyDeltas (points prev) (SettlementPreview.deltas preview) /\
      kyotaku (next c) = SettlementPreview.kyotakuAfter preview /\
      HistoryEntry.deltas <$> head (history (next c)) =
        Some (SettlementPreview.deltas preview)
  end.
Proof.
  unfold handleTsumoConfirm, computeTsumoPreview.
  destruct winner as [w|]; [| split; reflexivity].
  destruct (rejected _ || rejected _); [split; reflexivity |].
  cbv zeta. split_lets. cbn. repeat split; reflexivity.
Qed.

Lemma ron_confirm_preview state text winner loser han fu riichi prev :
  let c := handleRonConfirm state text winner loser han fu riichi prev in
  match computeRonPreview prev winner loser han fu riichi with
  | None => returned c = false /\ next c = prev
  | Some preview =>
      returned c = true /\
      points (next c) =
        applyDeltas (points prev) (SettlementPreview.deltas preview) /\
      kyotaku (next c) = SettlementPreview.kyotakuAfter preview /\
      HistoryEntry.deltas <$> head (history (next c)) =
        Some (SettlementPreview.deltas preview)
  end.
Proof.
  unfold handleRonConfirm, computeRonPreview.
  destruct winner as [w|], loser as [l|]; try (split; reflexivity).
  destruct (w =? l); [split; reflexivity |].
  destruct (rejected _ || rejected _); [split; reflexivity |].
  cbv zeta. split_lets. cbn. repeat split; reflexivity.
Qed.

Lemma draw_confirm_preview state text tenpai riichi prev :
  let c := handleDrawConfirm state text tenpai riichi prev in
  let preview := computeDrawPreview prev tenpai riichi in
  returned c = true /\
  points (next c) =
    applyDeltas (points prev) (SettlementPreview.deltas preview) /\
  kyotaku (next c) = SettlementPreview.kyotakuAfter preview /\
  HistoryEntry.deltas <$> head (history (next c)) =
    Some (SettlementPreview.deltas preview).
Proof.
  unfold handleDrawConfirm, computeDrawPreview.
  cbv zeta. split_lets. cbn. repeat split; reflexivity.
Qed.

(** ** The previews in closed form *)

(** Evaluate a settlement on explicit seats and flags, keeping the
    arithmetic on the symbolic amounts untouched. *)
Ltac settle_eval :=
  cbv - [Z.add Z.sub Z.mul Z.opp Z.pow Z.div roundUpToHundred calcBasePoints].

Lemma list4_eq (a b c d a' b' c' d' : Z) :
  a = a' -> b = b' -> c = c' -> d = d' -> [a; b; c; d] = [a'; b'; c'; d'].
Proof. congruence. Qed.

Lemma preview_eq ds ds' w kb ka ka' ki ri ri' :
  ds = ds' -> ka = ka' -> ri = ri' ->
  SettlementPreview.mk ds w kb ka ki ri =
  SettlementPreview.mk ds' w kb ka' ki ri'.
Proof. congruence. Qed.

Lemma tsumo_preview_closed state winner hanInput fuInput riichi han fu :
  length (points state) = 4%nat -> length riichi = 4%nat ->
  isSeat winner = true -> isSeat (dealerIndex state) = true ->
  positiveFinite hanInput han -> positiveFinite fuInput fu ->
  computeTsumoPreview state (Some winner) hanInput fuInput riichi =
  Some {| SettlementPreview.deltas :=
            map (TsumoSpec.delta state winner han fu riichi) seats;
          SettlementPreview.winnerIndex := Some winner;
          SettlementPreview.kyotakuBefore := kyotaku state;
          SettlementPreview.kyotakuAfter := 0;
          SettlementPreview.kyotakuIncome := kyotaku state * 1000;
          SettlementPreview.riichiIncome := declarers riichi * 1000 |}.
Proof.
  intros Hp Hr Hw Hd Hhan Hfu.
  apply positiveFinite_accepted in Hhan as [Hhan Hhan'].
  apply positiveFinite_accepted in Hfu as [Hfu Hfu'].
  unfold computeTsumoPreview. rewrite Hhan, Hfu, Hhan', Hfu'.
  cbn [orb JS.num_val]. cbv zeta.
  unfold TsumoSpec.delta, TsumoSpec.collected, TsumoSpec.payment.
  generalize (calcBasePoints han fu) as b. intros b.
  destruct state as [pts k h r d hist nm lb la lm u].
  cbn [points kyotaku honba dealerIndex] in *.
  four pts Hp. four riichi Hr.
  seat_cases winner Hw; seat_cases d Hd;
    repeat match goal with v : bool |- _ => destruct v end;
    settle_eval;
    rewrite ?(Z.mul_comm b 2), ?Z.mul_1_r;
    (apply (f_equal (@Some SettlementPreview.t)), preview_eq;
       [apply list4_eq | |]; lia).
Qed.

Lemma ron_preview_closed state winner loser hanInput fuInput riichi han fu :
  length riichi = 4%nat ->
  isSeat winner = true -> isSeat loser = true -> winner <> loser ->
  positiveFinite hanInput han -> positiveFinite fuInput fu ->
  computeRonPreview state (Some winner) (Some loser) hanInput fuInput riichi =
  Some {| SettlementPreview.deltas :=
            map (RonSpec.delta state winner loser han fu riichi) seats;
          SettlementPreview.winnerIndex := Some winner;
          SettlementPreview.kyotakuBefore := kyotaku state;
          SettlementPreview.kyotakuAfter := 0;
          SettlementPreview.kyotakuIncome := kyotaku state * 1000;
          SettlementPreview.riichiIncome := declarers riichi * 1000 |}.
Proof.
  intros Hr Hw Hl Hne Hhan Hfu.
  apply positiveFinite_accepted in Hhan as [Hhan Hhan'].
  apply positiveFinite_accepted in Hfu as [Hfu Hfu'].
  unfold computeRonPreview.
  destruct (Z.eqb_spec winner loser) as [|_]; [contradiction |].
  rewrite Hhan, Hfu, Hhan', Hfu'.
  cbn [orb JS.num_val]. cbv zeta.
  unfold RonSpec.delta, RonSpec.payment, RonSpec.multiplier.
  generalize (calcBasePoints han fu) as b. intros b.
  generalize (winner =? dealerIndex state) as isDealer. intros isDealer.
  generalize (kyotaku state) as k, (honba state) as h. intros k h.
  four riichi Hr.
  seat_cases winner Hw; seat_cases loser Hl; try congruence;
    destruct isDealer;
    repeat match goal with v : bool |- _ => destruct v end;
    settle_eval;
    (apply (f_equal (@Some SettlementPreview.t)), preview_eq;
       [apply list4_eq | |]; lia).
Qed.

Lemma draw_preview_closed state tenpai riichi :
  length (points state) = 4%nat ->
  length tenpai = 4%nat -> length riichi = 4%nat ->
  computeDrawPreview state tenpai riichi =
  {| SettlementPreview.deltas := map (DrawSpec.delta tenpai riichi) seats;
     SettlementPreview.winnerIndex := None;
     SettlementPreview.kyotakuBefore := kyotaku state;
     SettlementPreview.kyotakuAfter := kyotaku state + declarers riichi;
     SettlementPreview.kyotakuIncome := 0;
     SettlementPreview.riichiIncome := declarers riichi * 1000 |}.
Proof.
  intros Hp Ht Hr.
  unfold computeDrawPreview, DrawSpec.delta.
  generalize (kyotaku state) as k. intros k.
  destruct (points state) as [|? [|? [|? [|? [|? ?]]]]]; try discriminate Hp.
  clear Hp. four tenpai Ht. four riichi Hr.
  repeat match goal with v : bool |- _ => destruct v end;
    settle_eval;
    (apply preview_eq; [vm_compute; reflexivity | lia | lia]).
Qed.

Lemma get_map_seats (f : Z -> Z) (seat : Z) :
  isSeat seat = true -> JS.get (map f seats) seat = Some (f seat).
Proof. intros H. seat_cases seat H; reflexivity. Qed.

(** ** SettlementEngine *)

(** C3: a self-draw preview with a chosen winner and readable han and fu
    exists; every riichi declarer's delta carries -1000; the payers are
    charged [roundUpToHundred(2 * base) + honba * 100] (all three of them
    when the winner is the dealer, otherwise only the dealer) or
    [roundUpToHundred(base) + honba * 100] (the other two non-dealers); the
    winner receives the collected payments, [kyotaku * 1000] and 1000 per
    declarer; the reported pool-after is 0.  For a dealer winner with 3 han
    40 fu, no honba, an empty pool and no riichi, each other seat pays 2600
    and the winner gains 7800. *)
Theorem tsumo_preview_deltas state winner hanInput fuInput riichi han fu :
  length (points state) = 4%nat -> length riichi = 4%nat ->
  isSeat winner = true -> isSeat (dealerIndex state) = true ->
  positiveFinite hanInput han -> positiveFinite fuInput fu ->
  exists preview,
    computeTsumoPreview state (Some winner) hanInput fuInput riichi
      = Some preview /\
    (forall seat, isSeat seat = true ->
       JS.get (SettlementPreview.deltas preview) seat =
       Some (TsumoSpec.delta state winner han fu riichi seat)) /\
    SettlementPreview.kyotakuAfter preview = 0 /\
    (winner = dealerIndex state -> han = 3 -> fu = 40 ->
     honba state = 0 -> kyotaku state = 0 ->
     riichi = [false; false; false; false] ->
     forall seat, isSeat seat = true ->
       JS.get (SettlementPreview.deltas preview) seat =
       Some (if seat =? winner then 7800 else -2600)).
Proof.
  intros Hp Hr Hw Hd Hhan Hfu.
  eexists. split; [apply tsumo_preview_closed; eassumption |].
  cbn [SettlementPreview.deltas SettlementPreview.kyotakuAfter].
  split; [intros seat Hs; apply get_map_seats, Hs |].
  split; [reflexivity |].
  intros Hwd -> -> Hh Hk -> seat Hs.
  rewrite get_map_seats by exact Hs. f_equal.
  unfold TsumoSpec.delta, TsumoSpec.collected, TsumoSpec.payment.
  rewrite <- Hwd, Hh, Hk, Z.eqb_refl.
  seat_cases seat Hs; seat_cases winner Hw; reflexivity.
Qed.

Lemma tsumo_preview_deltas_witness :
  exists preview,
    computeTsumoPreview createInitialGameState (Some 0) "3" "40"
      [false; false; false; false] = Some preview /\
    (forall seat, isSeat seat = true ->
       JS.get (SettlementPreview.deltas preview) seat =
       Some (TsumoSpec.delta createInitialGameState 0 3 40
               [false; false; false; false] seat)) /\
    SettlementPreview.kyotakuAfter preview = 0 /\
    (0 = dealerIndex createInitialGameState -> 3 = 3 -> 40 = 40 ->
     honba createInitialGameState = 0 -> kyotaku createInitialGameState = 0 ->
     [false; false; false; false] = [false; false; false; false] ->
     forall seat, isSeat seat = true ->
       JS.get (SettlementPreview.deltas preview) seat =
       Some (if seat =? 0 then 7800 else -2600)).
Proof.
  apply (tsumo_preview_deltas createInitialGameState 0 "3" "40"
           [false; false; false; false] 3 40);
    [reflexivity | reflexivity | reflexivity | reflexivity
    | repeat split | repeat split].
Defined.

(** C4: a discard-win preview with distinct winner and loser and readable
    han and fu exists; the payment is
    [roundUpToHundred(multiplier * base) + honba * 300] with multiplier 6
    for a dealer winner and 4 otherwise; the loser's delta loses the
    payment, the winner's gains the payment, [kyotaku * 1000] and 1000 per
    riichi declarer, every declarer's delta carries -1000, the two other
    seats carry nothing else, and the reported pool-after is 0.  With 3 han
    40 fu and no honba the payment is 7700 for a dealer winner and 5200
    otherwise. *)
Theorem ron_preview_deltas state winner loser hanInput fuInput riichi han fu :
  length riichi = 4%nat ->
  isSeat winner = true -> isSeat loser = true -> winner <> loser ->
  positiveFinite hanInput han -> positiveFinite fuInput fu ->
  exists preview,
    computeRonPreview state (Some winner) (Some loser) hanInput fuInput riichi
      = Some preview /\
    (forall seat, isSeat seat = true ->
       JS.get (SettlementPreview.deltas preview) seat =
       Some (RonSpec.delta state winner loser han fu riichi seat)) /\
    SettlementPreview.kyotakuAfter preview = 0 /\
    (han = 3 -> fu = 40 -> honba state = 0 ->
     JS.get (SettlementPreview.deltas preview) loser =
     Some (riichiStick riichi loser
           - (if winner =? dealerIndex state then 7700 else 5200))).
Proof.
  intros Hr Hw Hl Hne Hhan Hfu.
  eexists. split; [apply ron_preview_closed; eassumption |].
  cbn [SettlementPreview.deltas SettlementPreview.kyotakuAfter].
  split; [intros seat Hs; apply get_map_seats, Hs |].
  split; [reflexivity |].
  intros -> -> Hh.
  rewrite get_map_seats by exact Hl. f_equal.
  unfold RonSpec.delta, RonSpec.payment, RonSpec.multiplier.
  rewrite Hh, Z.eqb_refl.
  destruct (winner =? dealerIndex state); vm_compute roundUpToHundred; lia.
Qed.

Lemma ron_preview_deltas_witness :
  exists preview,
    computeRonPreview createInitialGameState (Some 2) (Some 1) "3" "40"
      [false; true; false; false] = Some preview /\
    (forall seat, isSeat seat = true ->
       JS.get (SettlementPreview.deltas preview) seat =
       Some (RonSpec.delta createInitialGameState 2 1 3 40
               [false; true; false; false] seat)) /\
    SettlementPreview.kyotakuAfter preview = 0 /\
    (3 = 3 -> 40 = 40 -> honba createInitialGameState = 0 ->
     JS.get (SettlementPreview.deltas preview) 1 =
     Some (riichiStick [false; true; false; false] 1
           - (if 2 =? dealerIndex createInitialGameState
              then 7700 else 5200))).
Proof.
  apply (ron_preview_deltas createInitialGameState 2 1 "3" "40"
           [false; true; false; false] 3 40);
    [reflexivity | reflexivity | reflexivity | lia
    | repeat split | repeat split].
Defined.

Lemma draw_deltas_sum tenpai riichi :
  length tenpai = 4%nat -> length riichi = 4%nat ->
  sumList (map (DrawSpec.delta tenpai riichi) seats) = - (1000 * declarers riichi).
Proof.
  intros Ht Hr. four tenpai Ht. four riichi Hr.
  repeat match goal with v : bool |- _ => destruct v end; reflexivity.
Qed.

(** C5: for every choice of the four tenpai flags and the four riichi flags
    [computeDrawPreview] yields a preview (it is a total function with no
    null result) whose deltas are -1000 per riichi declarer plus the noten
    transfer: +3000 / -1000 with one tenpai seat, +1500 / -1500 with two,
    +1000 / -3000 with three, nothing with none or four.  Pool-after is
    pool-before plus the number of declarers, the pool-income field is 0,
    and the deltas hold no income from the pool or the sticks: they add up
    to minus the sticks laid down. *)
Theorem draw_preview_deltas state tenpai riichi :
  length (points state) = 4%nat ->
  length tenpai = 4%nat -> length riichi = 4%nat ->
  let preview := computeDrawPreview state tenpai riichi in
  (forall seat, isSeat seat = true ->
     JS.get (SettlementPreview.deltas preview) seat =
     Some (riichiStick riichi seat + DrawSpec.transfer tenpai seat)) /\
  SettlementPreview.kyotakuBefore preview = kyotaku state /\
  SettlementPreview.kyotakuAfter preview =
    SettlementPreview.kyotakuBefore preview + declarers riichi /\
  SettlementPreview.kyotakuIncome preview = 0 /\
  sumList (SettlementPreview.deltas preview) = - (1000 * declarers riichi).
Proof.
  intros Hp Ht Hr preview. subst preview.
  rewrite draw_preview_closed by assumption.
  cbn [SettlementPreview.deltas SettlementPreview.kyotakuBefore
       SettlementPreview.kyotakuAfter SettlementPreview.kyotakuIncome].
  split.
  { intros seat Hs.
    exact (get_map_seats (DrawSpec.delta tenpai riichi) seat Hs). }
  repeat split. apply draw_deltas_sum; assumption.
Qed.

Lemma draw_preview_deltas_witness :
  let preview :=
    computeDrawPreview createInitialGameState [true; false; true; false]
      [false; true; false; false] in
  (forall seat, isSeat seat = true ->
     JS.get (SettlementPreview.deltas preview) seat =
     Some (riichiStick [false; true; false; false] seat
           + DrawSpec.transfer [true; false; true; false] seat)) /\
  SettlementPreview.kyotakuBefore preview = kyotaku createInitialGameState /\
  SettlementPreview.kyotakuAfter preview =
    SettlementPreview.kyotakuBefore preview
    + declarers [false; true; false; false] /\
  SettlementPreview.kyotakuIncome preview = 0 /\
  sumList (SettlementPreview.deltas preview)
    = - (1000 * declarers [false; true; false; false]).
Proof.
  apply (draw_preview_deltas createInitialGameState
           [true; false; true; false] [false; true; false; false]);
    reflexivity.
Defined.

(** ** What a confirmed settlement installs *)

(** Split only the pairs produced by the loops, leaving the choice of the
    next position in place. *)
Ltac split_loops :=
  repeat match goal with
         | |- context [match ?e with pair _ _ => _ end] =>
             first [ is_var e
                   | lazymatch e with context [JS.forEach] => idtac end ];
             destruct e
         end.

Lemma settle_commits state text e prev :
  returned (settle state text e prev) = true ->
  exists afterSnapshot meta,
    next (settle state text e prev) =
      commit (createCoreSnapshotFromState prev) afterSnapshot meta /\
    CoreSnapshot.names afterSnapshot = names prev /\
    tl (CoreSnapshot.history afterSnapshot) = history prev /\
    (CoreSnapshot.dealerIndex afterSnapshot,
     CoreSnapshot.kyokuIndex afterSnapshot,
     CoreSnapshot.honba afterSnapshot) = positionInstalled prev e.
Proof.
  destruct e as [winner han fu riichi | winner loser han fu riichi
                | tenpai riichi];
    cbn [settle positionInstalled].
  - unfold handleTsumoConfirm.
    destruct winner as [w|]; [| discriminate].
    destruct (rejected _ || rejected _); [discriminate |].
    cbv zeta. split_loops. intros _.
    destruct (w =? dealerIndex prev);
      cbn; do 2 eexists; (split; [reflexivity |]); repeat split.
  - unfold handleRonConfirm.
    destruct winner as [w|], loser as [l|]; try discriminate.
    destruct (w =? l); [discriminate |].
    destruct (rejected _ || rejected _); [discriminate |].
    cbv zeta. split_loops. intros _.
    destruct (w =? dealerIndex prev);
      cbn; do 2 eexists; (split; [reflexivity |]); repeat split.
  - unfold handleDrawConfirm, flagAt.
    cbv zeta. split_loops. intros _.
    destruct (default false (JS.get tenpai (dealerIndex prev)));
      cbn; do 2 eexists; (split; [reflexivity |]); repeat split.
Qed.

Lemma settle_position state text e prev :
  returned (settle state text e prev) = true ->
  position (next (settle state text e prev)) = positionInstalled prev e.
Proof.
  intros H. destruct (settle_commits _ _ _ _ H) as (a & m & -> & _ & _ & Hp).
  exact Hp.
Qed.

Lemma installed_expected prev e :
  0 <= dealerIndex prev -> 0 <= kyokuIndex prev ->
  positionInstalled prev e = expectedPosition prev e.
Proof.
  intros Hd Hr.
  assert (Hs : ensureSeatIndex (dealerIndex prev + 1)
               = RoundSpec.nextSeat (dealerIndex prev))
    by (apply Z.rem_mod_nonneg; lia).
  assert (Hk : JS.rem (kyokuIndex prev + 1) 8
               = RoundSpec.nextRound (kyokuIndex prev))
    by (apply Z.rem_mod_nonneg; lia).
  unfold positionInstalled, expectedPosition, RoundSpec.afterWin,
    RoundSpec.afterDraw.
  rewrite Hs, Hk.
  destruct e as [[w|] ? ? ? | [w|] ? ? ? ? | ? ?]; reflexivity.
Qed.

(** ** RoundStateMachine *)

(** C6: after a confirmed settlement of a state with dealer d, round r and
    honba h, a win (self-draw or discard) by the dealer leaves d and r and
    makes the honba h+1; a win by another seat gives dealer (d+1) mod 4,
    round (r+1) mod 8 and honba 0; an exhaustive draw makes the honba h+1
    and moves dealer and round in the same way unless the dealer's seat is
    flagged tenpai.  From round 7 a settlement that moves the dealer leads
    to round 0. *)
Theorem round_progression state text e prev :
  0 <= dealerIndex prev -> 0 <= kyokuIndex prev ->
  returned (settle state text e prev) = true ->
  position (next (settle state text e prev)) = expectedPosition prev e /\
  (kyokuIndex prev = 7 ->
   dealerIndex (next (settle state text e prev)) <> dealerIndex prev ->
   kyokuIndex (next (settle state text e prev)) = 0).
Proof.
  intros Hd Hr Hok.
  pose proof (settle_position _ _ _ _ Hok) as Hpos.
  rewrite installed_expected in Hpos by assumption.
  split; [exact Hpos |].
  intros H7 Hmoved. unfold position in Hpos.
  assert (Hcases :
    expectedPosition prev e
      = (dealerIndex prev, kyokuIndex prev, honba prev + 1)
    \/ expectedPosition prev e = position prev
    \/ exists h, expectedPosition prev e =
         (RoundSpec.nextSeat (dealerIndex prev),
          RoundSpec.nextRound (kyokuIndex prev), h)).
  { unfold expectedPosition, RoundSpec.afterWin, RoundSpec.afterDraw.
    destruct e as [[w|] ? ? ? | [w|] ? ? ? ? | tenpai ?];
      repeat match goal with
             | |- context [if ?c then _ else _] => destruct c
             end; eauto. }
  destruct Hcases as [E | [E | [h E]]]; rewrite E in Hpos;
    injection Hpos as Hd' Hk' _; [congruence | congruence |].
  rewrite Hk', H7. reflexivity.
Qed.

Lemma round_progression_witness :
  let prev := createInitialGameState in
  let text := mkRendering "1-0" "E1" "ron" "12:00" "ron" in
  let e := Ron (Some 2) (Some 1) "3" "40" [false; true; false; false] in
  position (next (settle prev text e prev)) = expectedPosition prev e /\
  (kyokuIndex prev = 7 ->
   dealerIndex (next (settle prev text e prev)) <> dealerIndex prev ->
   kyokuIndex (next (settle prev text e prev)) = 0).
Proof.
  intros prev text e.
  apply (round_progression prev text e prev);
    [vm_compute; discriminate | vm_compute; discriminate | reflexivity].
Defined.

(** ** Rejections *)

(** C9: [handleTsumoConfirm] returns false and leaves the whole state as it
    was (no field, no history entry, no undo pair changes) when no winner is
    chosen or han or fu do not read as positive finite integers;
    [handleRonConfirm] does the same when winner or loser is missing, when
    they are the same seat, or when han or fu are not readable. *)
Theorem rejection_leaves_state state text e prev :
  mustReject e ->
  returned (settle state text e prev) = false /\
  next (settle state text e prev) = prev.
Proof.
  destruct e as [winner han fu riichi | winner loser han fu riichi
                | tenpai riichi];
    cbn [mustReject settle]; [| | contradiction].
  - unfold handleTsumoConfirm. intros [-> | H]; [split; reflexivity |].
    destruct winner as [w|]; [| split; reflexivity].
    destruct H as [H | H]; apply unreadable_rejected in H; rewrite H;
      rewrite ?orb_true_r; split; reflexivity.
  - unfold handleRonConfirm.
    intros [-> | [-> | H]];
      [split; reflexivity | destruct winner; split; reflexivity |].
    destruct winner as [w|], loser as [l|]; try (split; reflexivity).
    destruct (Z.eqb_spec w l) as [_ | Hne]; [split; reflexivity |].
    destruct H as [H | H]; [congruence |].
    destruct H as [H | H]; apply unreadable_rejected in H; rewrite H;
      rewrite ?orb_true_r; split; reflexivity.
Qed.

Lemma rejection_leaves_state_witness :
  let prev := createInitialGameState in
  let text := mkRendering "1-0" "E1" "ron" "12:00" "ron" in
  let e := Ron (Some 1) (Some 1) "3" "40" [false; false; false; false] in
  returned (settle prev text e prev) = false /\
  next (settle prev text e prev) = prev.
Proof.
  intros prev text e.
  apply (rejection_leaves_state prev text e prev).
  simpl. right. right. left. reflexivity.
Defined.

(** C7: for each kind of outcome, on the same state and the same inputs,
    the preview is null exactly when the handler rejects (and then the
    state is untouched), and otherwise the handler adds to every seat's
    stack the preview's delta of that seat, installs the preview's
    pool-after as kyotaku and records the same deltas in the history
    entry. *)
Theorem preview_is_what_is_applied state text prev winner loser han fu
    riichi tenpai :
  (let c := handleTsumoConfirm state text winner han fu riichi prev in
   match computeTsumoPreview prev winner han fu riichi with
   | None => returned c = false /\ next c = prev
   | Some preview =>
       returned c = true /\
       deltasAdded (points prev) (SettlementPreview.deltas preview)
         (points (next c)) /\
       kyotaku (next c) = SettlementPreview.kyotakuAfter preview /\
       HistoryEntry.deltas <$> head (history (next c)) =
         Some (SettlementPreview.deltas preview)
   end) /\
  (let c := handleRonConfirm state text winner loser han fu riichi prev in
   match computeRonPreview prev winner loser han fu riichi with
   | None => returned c = false /\ next c = prev
   | Some preview =>
       returned c = true /\
       deltasAdded (points prev) (SettlementPreview.deltas preview)
         (points (next c)) /\
       kyotaku (next c) = SettlementPreview.kyotakuAfter preview /\
       HistoryEntry.deltas <$> head (history (next c)) =
         Some (SettlementPreview.deltas preview)
   end) /\
  (let c := handleDrawConfirm state text tenpai riichi prev in
   let preview := computeDrawPreview prev tenpai riichi in
   returned c = true /\
   deltasAdded (points prev) (SettlementPreview.deltas preview)
     (points (next c)) /\
   kyotaku (next c) = SettlementPreview.kyotakuAfter preview /\
   HistoryEntry.deltas <$> head (history (next c)) =
     Some (SettlementPreview.deltas preview)).
Proof.
  pose proof (tsumo_confirm_preview state text winner han fu riichi prev)
    as Htsumo.
  pose proof (ron_confirm_preview state text winner loser han fu riichi prev)
    as Hron.
  pose proof (draw_confirm_preview state text tenpai riichi prev) as Hdraw.
  cbv zeta in *.
  split; [| split].
  - destruct (computeTsumoPreview prev winner han fu riichi);
      [| exact Htsumo].
    destruct Htsumo as (Hr & Hp & Hk & Hh). rewrite Hp.
    repeat split; try assumption; apply applyDeltas_added.
  - destruct (computeRonPreview prev winner loser han fu riichi);
      [| exact Hron].
    destruct Hron as (Hr & Hp & Hk & Hh). rewrite Hp.
    repeat split; try assumption; apply applyDeltas_added.
  - destruct Hdraw as (Hr & Hp & Hk & Hh). rewrite Hp.
    repeat split; try assumption; apply applyDeltas_added.
Qed.

(** ** UndoController *)

Lemma undo_without_pair s :
  hasLastSettlement s = false -> handleUndoLastSettlement s = s.
Proof.
  unfold hasLastSettlement, handleUndoLastSettlement.
  destruct (lastSettlementBefore s), (lastSettlementAfter s),
    (lastSettlementMeta s); congruence.
Qed.

Lemma redo_without_pair s :
  hasLastSettlement s = false -> handleRedoLastSettlement s = s.
Proof.
  unfold hasLastSettlement, handleRedoLastSettlement.
  destruct (lastSettlementBefore s), (lastSettlementAfter s),
    (lastSettlementMeta s); congruence.
Qed.

Lemma undo_idempotent s :
  handleUndoLastSettlement (handleUndoLastSettlement s) =
  handleUndoLastSettlement s.
Proof.
  unfold handleUndoLastSettlement.
  destruct (lastSettlementBefore s) as [b|] eqn:Eb;
    destruct (lastSettlementAfter s) as [a|] eqn:Ea;
    destruct (lastSettlementMeta s) as [m|] eqn:Em;
    cbn; rewrite ?Eb, ?Ea, ?Em; reflexivity.
Qed.

(** C8: after a confirmed settlement, undo puts points, kyotaku, honba,
    kyokuIndex, dealerIndex, history and names back to their values before
    the settlement, sets [isInUndo] and keeps the pending pair; redo then
    puts the seven fields back to their values after the settlement and
    clears [isInUndo] (the whole state is the one the settlement left);
    undo and redo leave a state without a pending pair unchanged; and a
    second undo in a row changes nothing. *)
Theorem undo_redo_restore state text e prev :
  returned (settle state text e prev) = true ->
  let settled := next (settle state text e prev) in
  let undone := handleUndoLastSettlement settled in
  let redone := handleRedoLastSettlement undone in
  (points undone = points prev /\
   kyotaku undone = kyotaku prev /\
   honba undone = honba prev /\
   kyokuIndex undone = kyokuIndex prev /\
   dealerIndex undone = dealerIndex prev /\
   history undone = history prev /\
   names undone = names prev) /\
  isInUndo undone = true /\
  (lastSettlementBefore undone = lastSettlementBefore settled /\
   lastSettlementAfter undone = lastSettlementAfter settled /\
   lastSettlementMeta undone = lastSettlementMeta settled) /\
  (points redone = points settled /\
   kyotaku redone = kyotaku settled /\
   honba redone = honba settled /\
   kyokuIndex redone = kyokuIndex settled /\
   dealerIndex redone = dealerIndex settled /\
   history redone = history settled /\
   names redone = names settled) /\
  isInUndo redone = false /\
  redone = settled /\
  handleUndoLastSettlement undone = undone /\
  (forall s, hasLastSettlement s = false ->
     handleUndoLastSettlement s = s /\ handleRedoLastSettlement s = s) /\
  (forall s, handleUndoLastSettlement (handleUndoLastSettlement s) =
             handleUndoLastSettlement s).
Proof.
  intros Hok.
  destruct (settle_commits _ _ _ _ Hok) as (a & m & -> & _ & _ & _).
  cbn zeta. repeat split.
  - apply undo_without_pair. assumption.
  - apply redo_without_pair. assumption.
  - apply undo_idempotent.
Qed.

Lemma undo_redo_restore_witness :
  let prev := createInitialGameState in
  let text := mkRendering "1-0" "E1" "draw" "12:00" "draw" in
  let e := Draw [true; false; false; false] [false; true; false; false] in
  let settled := next (settle prev text e prev) in
  let undone := handleUndoLastSettlement settled in
  let redone := handleRedoLastSettlement undone in
  (points undone = [25000; 25000; 25000; 25000] /\
   kyotaku undone = 0 /\
   honba undone = 0 /\
   kyokuIndex undone = 0 /\
   dealerIndex undone = 0 /\
   history undone = [] /\
   names undone = PLAYER_LABELS) /\
  isInUndo undone = true /\
  points redone = [28000; 23000; 24000; 24000] /\
  kyotaku redone = 1 /\
  isInUndo redone = false /\
  redone = settled.
Proof.
  intros prev text e.
  pose proof (undo_redo_restore prev text e prev eq_refl)
    as (Hundone & Hflag & _ & (Hp & Hk & _) & Hflag' & Hredone & _).
  split; [exact Hundone |]. split; [exact Hflag |].
  split; [exact Hp |]. split; [exact Hk |].
  split; [exact Hflag' | exact Hredone].
Defined.

(** ** Conservation of points *)

Lemma applyDeltas_seats (pts : list Z) (f : Z -> Z) :
  length pts = 4%nat ->
  length (applyDeltas pts (map f seats)) = 4%nat /\
  sumList (applyDeltas pts (map f seats)) = sumList pts + sumList (map f seats).
Proof.
  intros H. four pts H. split; [reflexivity |].
  cbv - [Z.add]. lia.
Qed.

Lemma tsumo_deltas_sum state winner han fu riichi :
  isSeat winner = true -> isSeat (dealerIndex state) = true ->
  length riichi = 4%nat ->
  sumList (map (TsumoSpec.delta state winner han fu riichi) seats)
  = kyotaku state * 1000.
Proof.
  intros Hw Hd Hr.
  unfold TsumoSpec.delta, TsumoSpec.collected, TsumoSpec.payment.
  generalize (calcBasePoints han fu) as b, (honba state) as h,
    (kyotaku state) as k. intros b h k.
  four riichi Hr.
  seat_cases winner Hw; seat_cases (dealerIndex state) Hd;
    repeat match goal with v : bool |- _ => destruct v end;
    settle_eval; lia.
Qed.

Lemma ron_deltas_sum state winner loser han fu riichi :
  isSeat winner = true -> isSeat loser = true -> winner <> loser ->
  length riichi = 4%nat ->
  sumList (map (RonSpec.delta state winner loser han fu riichi) seats)
  = kyotaku state * 1000.
Proof.
  intros Hw Hl Hne Hr.
  unfold RonSpec.delta.
  generalize (RonSpec.payment state winner han fu) as p, (kyotaku state) as k.
  intros p k. four riichi Hr.
  seat_cases winner Hw; seat_cases loser Hl; try congruence;
    repeat match goal with v : bool |- _ => destruct v end;
    settle_eval; lia.
Qed.

Lemma settle_rejected state text e prev :
  returned (settle state text e prev) = false ->
  next (settle state text e prev) = prev.
Proof.
  destruct e as [winner han fu riichi | winner loser han fu riichi
                | tenpai riichi]; cbn [settle].
  - unfold handleTsumoConfirm.
    destruct winner as [w|]; [| reflexivity].
    destruct (rejected _ || rejected _); [reflexivity |].
    cbv zeta. split_lets. discriminate.
  - unfold handleRonConfirm.
    destruct winner as [w|], loser as [l|]; try reflexivity.
    destruct (w =? l); [reflexivity |].
    destruct (rejected _ || rejected _); [reflexivity |].
    cbv zeta. split_lets. discriminate.
  - unfold handleDrawConfirm. cbv zeta. split_lets. discriminate.
Qed.

Lemma settle_keeps_dealer_seated state text e prev :
  isSeat (dealerIndex prev) = true ->
  isSeat (dealerIndex (next (settle state text e prev))) = true.
Proof.
  intros Hd.
  destruct (returned (settle state text e prev)) eqn:Hok.
  - pose proof (settle_position _ _ _ _ Hok) as Hpos.
    unfold position in Hpos.
    assert (Hcases :
      fst (fst (positionInstalled prev e)) = dealerIndex prev \/
      fst (fst (positionInstalled prev e))
        = ensureSeatIndex (dealerIndex prev + 1)).
    { unfold positionInstalled.
      destruct e as [[w|] ? ? ? | [w|] ? ? ? ? | tenpai ?];
        repeat match goal with
               | |- context [if ?c then _ else _] => destruct c
               end; cbn; auto. }
    rewrite <- Hpos in Hcases. cbn [fst] in Hcases.
    destruct Hcases as [-> | ->]; [exact Hd |].
    seat_cases (dealerIndex prev) Hd; reflexivity.
  - rewrite settle_rejected by exact Hok. exact Hd.
Qed.

Lemma tsumo_preview_rejected state winner hanInput fuInput riichi :
  rejected (JS.parseInt (JS.orElse hanInput "0"))
  || rejected (JS.parseInt (JS.orElse fuInput "0")) = true ->
  computeTsumoPreview state winner hanInput fuInput riichi = None.
Proof.
  intros H. unfold computeTsumoPreview.
  destruct winner; [rewrite H |]; reflexivity.
Qed.

Lemma ron_preview_rejected state winner loser hanInput fuInput riichi :
  rejected (JS.parseInt (JS.orElse hanInput "0"))
  || rejected (JS.parseInt (JS.orElse fuInput "0")) = true ->
  computeRonPreview state winner loser hanInput fuInput riichi = None.
Proof.
  intros H. unfold computeRonPreview.
  destruct winner, loser; try reflexivity.
  destruct (_ =? _); [| rewrite H]; reflexivity.
Qed.

(** One settlement keeps the stacks four and the total constant. *)
Lemma settle_conserves state text e prev :
  tableInvariant prev -> validSettlement e = true ->
  length (points (next (settle state text e prev))) = 4%nat /\
  conserved (next (settle state text e prev)).
Proof.
  intros (Hlen & Hd & Hsum) Hvalid. unfold conserved in *.
  destruct e as [winner han fu riichi | winner loser han fu riichi
                | tenpai riichi];
    cbn [settle validSettlement] in *.
  - apply andb_prop in Hvalid as [Hw Hr]. apply Nat.eqb_eq in Hr.
    pose proof (tsumo_confirm_preview state text winner han fu riichi prev)
      as Hc. cbv zeta in Hc.
    destruct winner as [w|]; [| destruct Hc as [_ ->]; auto].
    cbn [seatChoice] in Hw.
    destruct (rejected (JS.parseInt (JS.orElse han "0"))
              || rejected (JS.parseInt (JS.orElse fu "0"))) eqn:E.
    + rewrite tsumo_preview_rejected in Hc by exact E.
      destruct Hc as [_ ->]; auto.
    + apply orb_false_elim in E as [Eh Ef].
      apply accepted_positiveFinite in Eh, Ef.
      rewrite (tsumo_preview_closed _ _ _ _ _ _ _ Hlen Hr Hw Hd Eh Ef) in Hc.
      cbn [SettlementPreview.deltas SettlementPreview.kyotakuAfter] in Hc.
      destruct Hc as (_ & -> & -> & _).
      destruct (applyDeltas_seats (points prev)
                  (TsumoSpec.delta prev w
                     (JS.num_val (JS.parseInt (JS.orElse han "0")))
                     (JS.num_val (JS.parseInt (JS.orElse fu "0"))) riichi)
                  Hlen) as [-> ->].
      rewrite tsumo_deltas_sum by assumption. split; [reflexivity | lia].
  - apply andb_prop in Hvalid as [Hwl Hr]. apply andb_prop in Hwl as [Hw Hl].
    apply Nat.eqb_eq in Hr.
    pose proof (ron_confirm_preview state text winner loser han fu riichi prev)
      as Hc. cbv zeta in Hc.
    destruct winner as [w|]; [| destruct Hc as [_ ->]; auto].
    destruct loser as [l|]; [| destruct Hc as [_ ->]; auto].
    cbn [seatChoice] in Hw, Hl.
    destruct (Z.eq_dec w l) as [-> | Hne].
    { unfold computeRonPreview in Hc. rewrite Z.eqb_refl in Hc.
      destruct Hc as [_ ->]; auto. }
    destruct (rejected (JS.parseInt (JS.orElse han "0"))
              || rejected (JS.parseInt (JS.orElse fu "0"))) eqn:E.
    + rewrite ron_preview_rejected in Hc by exact E.
      destruct Hc as [_ ->]; auto.
    + apply orb_false_elim in E as [Eh Ef].
      apply accepted_positiveFinite in Eh, Ef.
      rewrite (ron_preview_closed prev _ _ _ _ _ _ _ Hr Hw Hl Hne Eh Ef) in Hc.
      cbn [SettlementPreview.deltas SettlementPreview.kyotakuAfter] in Hc.
      destruct Hc as (_ & -> & -> & _).
      destruct (applyDeltas_seats (points prev)
                  (RonSpec.delta prev w l
                     (JS.num_val (JS.parseInt (JS.orElse han "0")))
                     (JS.num_val (JS.parseInt (JS.orElse fu "0"))) riichi)
                  Hlen) as [-> ->].
      rewrite ron_deltas_sum by assumption. split; [reflexivity | lia].
  - apply andb_prop in Hvalid as [Ht Hr].
    apply Nat.eqb_eq in Ht, Hr.
    pose proof (draw_confirm_preview state text tenpai riichi prev) as Hc.
    cbv zeta in Hc.
    rewrite (draw_preview_closed _ _ _ Hlen Ht Hr) in Hc.
    cbn [SettlementPreview.deltas SettlementPreview.kyotakuAfter] in Hc.
    destruct Hc as (_ & -> & -> & _).
    destruct (applyDeltas_seats (points prev) (DrawSpec.delta tenpai riichi)
                Hlen) as [-> ->].
    rewrite draw_deltas_sum by assumption. split; [reflexivity | lia].
Qed.

Lemma settle_invariant state text e prev :
  tableInvariant prev -> validSettlement e = true ->
  tableInvariant (next (settle state text e prev)).
Proof.
  intros Hinv Hvalid.
  destruct (settle_conserves state text e prev Hinv Hvalid) as [Hlen Hsum].
  destruct Hinv as (_ & Hd & _).
  repeat split; [exact Hlen | | exact Hsum].
  apply settle_keeps_dealer_seated, Hd.
Qed.

Lemma initial_invariant : tableInvariant createInitialGameState.
Proof. repeat split. Qed.

Lemma play_invariant log s :
  tableInvariant s ->
  Forall (fun step => validSettlement step.2 = true) log ->
  tableInvariant (play log s).
Proof.
  intros Hs Hall. revert s Hs.
  induction Hall as [| [text e] rest Hvalid _ IH]; intros s Hs.
  - exact Hs.
  - cbn [play]. apply IH. unfold confirm.
    apply settle_invariant; assumption.
Qed.

(** C1: starting from the initial state (25000 points each, no sticks, no
    honba, round 0, dealer 0) every state reached by a finite sequence of
    confirmations (self-draw, discard-win, exhaustive draw) on inputs the
    dialogs can produce satisfies
    [sum(points) + kyotaku * 1000 = 100000]. *)
Theorem points_are_conserved (log : list (Rendering * Settlement)) :
  Forall (fun step => validSettlement step.2 = true) log ->
  sumList (points (play log createInitialGameState))
  + kyotaku (play log createInitialGameState) * 1000 = 100000.
Proof.
  intros Hall.
  apply (play_invariant log createInitialGameState initial_invariant Hall).
Qed.

Lemma points_are_conserved_witness :
  let text := mkRendering "1-0" "E1" "hand" "12:00" "hand" in
  let log :=
    [ (text, Draw [true; false; false; false] [true; true; false; false]);
      (text, Tsumo (Some 1) "2" "30" [false; false; true; false]);
      (text, Ron (Some 3) (Some 0) "5" "30" [false; false; false; true]) ] in
  sumList (points (play log createInitialGameState))
  + kyotaku (play log createInitialGameState) * 1000 = 100000.
Proof.
  intros text log.
  apply (points_are_conserved log).
  repeat constructor.
Defined.

(** ** Persisted state *)

Lemma asNumber_isNumber v n :
  Json.asNumber v = Some n -> v = Some (JNum n) /\ LoadSpec.isNumber v = true.
Proof.
  destruct v as [[]|]; cbn; intros H; try discriminate.
  injection H as ->. split; reflexivity.
Qed.

Lemma asArray_inv v items :
  Json.asArray v = Some items -> v = Some (JArr items).
Proof.
  destruct v as [[]|]; cbn; intros H; try discriminate.
  injection H as ->. reflexivity.
Qed.

Lemma orDefault_nullish v dflt :
  LoadSpec.isNullish v = true -> Json.orDefault v dflt = dflt.
Proof. destruct v as [[]|]; cbn; intros H; try discriminate; reflexivity. Qed.

Lemma orDefault_kept v x dflt :
  v = Some x -> x <> JNull -> Json.orDefault v dflt = x.
Proof. intros -> H. destruct x; cbn; congruence. Qed.

Lemma get_mapi_seat {A B : Type} (g : A -> Z -> B) (items : list A) i v :
  length items = 4%nat -> isSeat i = true -> JS.get items i = Some v ->
  JS.get (JS.mapi g items) i = Some (g v i).
Proof.
  intros Hlen Hi Hv. four items Hlen.
  seat_cases i Hi; cbn in Hv; injection Hv as ->; reflexivity.
Qed.

Lemma fallback_when_empty (trimmed label : string) :
  (if 0 <? Z.of_nat (String.length trimmed) then trimmed else label) =
  (if String.eqb trimmed EmptyString then label else trimmed).
Proof. destruct trimmed; reflexivity. Qed.

Lemma sanitizeNames_four items i v :
  length items = 4%nat -> isSeat i = true -> JS.get items i = Some v ->
  JS.get (sanitizeNames (Some (JArr items))) i = Some (LoadSpec.name v i).
Proof.
  intros Hlen Hi Hv. unfold sanitizeNames. cbn [Json.asArray].
  rewrite Hlen. cbn [Nat.eqb negb].
  rewrite (get_mapi_seat _ items i v Hlen Hi Hv).
  unfold LoadSpec.name. destruct v; try reflexivity.
  rewrite fallback_when_empty. reflexivity.
Qed.

Lemma sanitizeNames_default v :
  LoadSpec.isArrayOf4 v = false -> sanitizeNames v = createDefaultNames.
Proof.
  unfold sanitizeNames, LoadSpec.isArrayOf4.
  destruct v as [[| | | |items|]|]; cbn [Json.asArray]; try reflexivity.
  intros ->. reflexivity.
Qed.

Lemma load_accepts parsed :
  LoadSpec.accepted parsed = true -> is_Some (load (Document parsed)).
Proof.
  unfold LoadSpec.accepted, load. intros H.
  repeat (apply andb_prop in H as [H ?]).
  rewrite H. cbn [negb].
  destruct (Json.prop parsed "points") as [[| | | |items|]|];
    try discriminate.
  destruct (Json.prop parsed "honba") as [[]|]; try discriminate.
  destruct (Json.prop parsed "kyokuIndex") as [[]|]; try discriminate.
  destruct (Json.prop parsed "dealerIndex") as [[]|]; try discriminate.
  cbn [Json.asArray Json.asNumber LoadSpec.isArrayOf4] in *.
  match goal with E : Nat.eqb _ _ = true |- _ => rewrite E end.
  cbn [negb]. eexists. reflexivity.
Qed.

(** The loader takes [strayDocument] although its points are no numbers,
    so acceptance does not imply a numeric [points] array; its negative
    dealer stays outside the seats, and the number stored where a snapshot
    belongs is kept instead of being reset to null. *)
Lemma load_accepts_stray_document :
  exists base,
    load (Document strayDocument) = Some base /\
    LoadSpec.acceptedAsStated strayDocument = false /\
    LoadSpec.isNumericArrayOf4 (Json.prop strayDocument "points") = false /\
    Loaded.dealerIndex base = JS.Whole (-1) /\
    isSeat (-1) = false /\
    Loaded.lastSettlementBefore base = JInt 5.
Proof. eexists. repeat split. Qed.

(** C10, as the loader implements it: a stored document is accepted exactly
    when it is truthy, its [points] is an array of four elements (whatever
    they are) and [honba], [kyokuIndex] and [dealerIndex] are numbers.  For
    an accepted document: a whole [dealerIndex] d that is not negative
    becomes d mod 4, a seat; [kyotaku] is the stored number or 0; [history] is the stored array
    or empty; [names] holds, for an array of four, each string trimmed with
    the positional label in place of an empty or non-string entry, and the
    default names otherwise; the undo fields are null, and [isInUndo]
    false, when missing or null, and the stored value otherwise.  A missing,
    unparsable or refused document leaves the state as it was. *)
Theorem load_contract parsed base current :
  load (Document parsed) = Some base ->
  LoadSpec.accepted parsed = true /\
  stateAfterLoad (Document parsed) current = inr base /\
  (forall d, Json.prop parsed "dealerIndex" = Some (JInt d) -> 0 <= d ->
     Loaded.dealerIndex base = JS.Whole (d mod 4) /\
     isSeat (d mod 4) = true) /\
  Loaded.kyotaku base =
    match Json.prop parsed "kyotaku" with
    | Some (JNum k) => k
    | _ => JS.Whole 0
    end /\
  Loaded.history base =
    match Json.prop parsed "history" with Some (JArr h) => h | _ => [] end /\
  (forall items i v,
     Json.prop parsed "names" = Some (JArr items) -> length items = 4%nat ->
     isSeat i = true -> JS.get items i = Some v ->
     JS.get (Loaded.names base) i = Some (LoadSpec.name v i)) /\
  (LoadSpec.isArrayOf4 (Json.prop parsed "names") = false ->
     Loaded.names base = PLAYER_LABELS) /\
  (LoadSpec.isNullish (Json.prop parsed "lastSettlementBefore") = true ->
     Loaded.lastSettlementBefore base = JNull) /\
  (LoadSpec.isNullish (Json.prop parsed "lastSettlementAfter") = true ->
     Loaded.lastSettlementAfter base = JNull) /\
  (LoadSpec.isNullish (Json.prop parsed "lastSettlementMeta") = true ->
     Loaded.lastSettlementMeta base = JNull) /\
  (LoadSpec.isNullish (Json.prop parsed "isInUndo") = true ->
     Loaded.isInUndo base = JBool false) /\
  (forall v, v <> JNull ->
     (Json.prop parsed "lastSettlementBefore" = Some v ->
        Loaded.lastSettlementBefore base = v) /\
     (Json.prop parsed "lastSettlementAfter" = Some v ->
        Loaded.lastSettlementAfter base = v) /\
     (Json.prop parsed "lastSettlementMeta" = Some v ->
        Loaded.lastSettlementMeta base = v) /\
     (Json.prop parsed "isInUndo" = Some v -> Loaded.isInUndo base = v)) /\
  (forall other, LoadSpec.accepted other = true ->
     is_Some (load (Document other))) /\
  (forall stored, load stored = None ->
     stateAfterLoad stored current = inl current) /\
  load Absent = None /\ load Unparsable = None.
Proof.
  intros Hload.
  assert (Hstate : stateAfterLoad (Document parsed) current = inr base)
    by (unfold stateAfterLoad; rewrite Hload; reflexivity).
  assert (Hkeep : forall stored, load stored = None ->
                    stateAfterLoad stored current = inl current)
    by (intros stored E; unfold stateAfterLoad; rewrite E; reflexivity).
  unfold load in Hload. unfold LoadSpec.accepted.
  destruct (Json.truthy parsed); [| discriminate]. cbn [negb] in Hload.
  destruct (Json.asArray (Json.prop parsed "points")) as [pts|] eqn:Ep;
    [| discriminate].
  destruct (Json.asNumber (Json.prop parsed "honba")) as [h|] eqn:Eh;
    [| discriminate].
  destruct (Json.asNumber (Json.prop parsed "kyokuIndex")) as [r|] eqn:Er;
    [| discriminate].
  destruct (Json.asNumber (Json.prop parsed "dealerIndex")) as [d|] eqn:Ed;
    [| discriminate].
  destruct (Nat.eqb (length pts) 4) eqn:El; [| discriminate].
  cbn [negb] in Hload. injection Hload as <-.
  apply asArray_inv in Ep. apply asNumber_isNumber in Eh as [_ Eh].
  apply asNumber_isNumber in Er as [_ Er].
  apply asNumber_isNumber in Ed as [Ed Ed'].
  cbn [Loaded.dealerIndex Loaded.kyotaku Loaded.history Loaded.names
       Loaded.lastSettlementBefore Loaded.lastSettlementAfter
       Loaded.lastSettlementMeta Loaded.isInUndo].
  split.
  { rewrite Ep, Eh, Er, Ed'. cbn [LoadSpec.isArrayOf4]. rewrite El.
    reflexivity. }
  split; [exact Hstate |].
  split.
  { intros d' Hd' Hpos. rewrite Ed in Hd'. injection Hd' as ->.
    cbn [ensureSeatIndexOfNumber JS.remainder].
    rewrite Z.rem_mod_nonneg by lia.
    split; [reflexivity |].
    unfold isSeat. pose proof (Z.mod_pos_bound d' 4). lia. }
  split; [destruct (Json.prop parsed "kyotaku") as [[]|]; reflexivity |].
  split; [destruct (Json.prop parsed "history") as [[]|]; reflexivity |].
  split.
  { intros items i v -> Hlen Hi Hv. apply sanitizeNames_four; assumption. }
  split; [apply sanitizeNames_default |].
  repeat (split; [apply orDefault_nullish |]).
  split.
  { intros v Hv.
    repeat split; intros E; apply orDefault_kept; assumption. }
  split; [exact load_accepts |].
  split; [exact Hkeep |]. split; reflexivity.
Qed.

Lemma load_contract_witness :
  exists base,
    load (Document savedDocument) = Some base /\
    LoadSpec.accepted savedDocument = true /\
    Loaded.dealerIndex base = JS.Whole 0 /\
    Loaded.names base = ["Aki"; "南风家"; "Chie"; "北风家"]%string /\
    Loaded.lastSettlementBefore base = JNull.
Proof.
  eexists. split; [reflexivity |].
  pose proof (load_contract savedDocument _ createInitialGameState eq_refl)
    as (Hacc & _ & Hdealer & _).
  split; [exact Hacc |].
  repeat split.
Defined.

(** * Further properties of the program *)

(** ** Rounding and the score table *)

(** X1: [roundUpToHundred] gives the least multiple of 100 that is not
    below its argument. *)
Theorem roundUpToHundred_least_multiple (value : Z) :
  (roundUpToHundred value) mod 100 = 0 /\
  value <= roundUpToHundred value < value + 100 /\
  (forall m, m mod 100 = 0 -> value <= m -> roundUpToHundred value <= m).
Proof.
  unfold roundUpToHundred, JS.ceilDiv.
  pose proof (Z.div_mod (- value) 100 ltac:(lia)) as Hdm.
  pose proof (Z.mod_pos_bound (- value) 100 ltac:(lia)) as Hb.
  split; [apply Z.mod_mul; lia |].
  split; [lia |].
  intros m Hm Hle.
  pose proof (Z.div_mod m 100 ltac:(lia)) as Hm'. rewrite Hm in Hm'.
  assert (- (m / 100) <= (- value) / 100) by (apply Z.div_le_lower_bound; lia).
  lia.
Qed.

(** X2: for positive han and fu the base points are positive, at most
    8000, and one more han never lowers them. *)
Theorem calcBasePoints_bounds_monotone (han fu : Z) :
  0 < han -> 0 < fu ->
  0 < calcBasePoints han fu <= 8000 /\
  calcBasePoints han fu <= calcBasePoints (han + 1) fu.
Proof.
  intros Hhan Hfu.
  assert (Hcases : han = 1 \/ han = 2 \/ han = 3 \/ han = 4 \/ 5 <= han)
    by lia.
  unfold calcBasePoints.
  destruct Hcases as [-> | [-> | [-> | [-> | H5]]]].
  1-4: repeat match goal with
              | |- context [Z.add (Zpos ?a) (Zpos ?b)] =>
                  let v := eval vm_compute in (Z.add (Zpos a) (Zpos b)) in
                  change (Z.add (Zpos a) (Zpos b)) with v
              | |- context [Z.pow (Zpos ?a) (Zpos ?b)] =>
                  let v := eval vm_compute in (Z.pow (Zpos a) (Zpos b)) in
                  change (Z.pow (Zpos a) (Zpos b)) with v
              | |- context [Z.leb (Zpos ?a) (Zpos ?b)] =>
                  let v := eval vm_compute in (Z.leb (Zpos a) (Zpos b)) in
                  change (Z.leb (Zpos a) (Zpos b)) with v
              | |- context [Z.eqb (Zpos ?a) (Zpos ?b)] =>
                  let v := eval vm_compute in (Z.eqb (Zpos a) (Zpos b)) in
                  change (Z.eqb (Zpos a) (Zpos b)) with v
              end;
    cbv iota; cbn [andb orb];
    repeat match goal with
           | |- context [Z.eqb ?a ?b] => destruct (Z.eqb_spec a b)
           | |- context [Z.ltb ?a ?b] => destruct (Z.ltb_spec a b)
           end; cbn [andb orb]; lia.
  repeat match goal with
         | |- context [Z.leb ?a ?b] => destruct (Z.leb_spec a b)
         end; try lia.
Qed.

Lemma calcBasePoints_bounds_monotone_witness :
  0 < calcBasePoints 3 60 <= 8000 /\
  calcBasePoints 3 60 <= calcBasePoints (3 + 1) 60.
Proof. apply (calcBasePoints_bounds_monotone 3 60); lia. Defined.

(** ** What the handlers accept and record *)

Lemma rejected_unreadable (input : string) :
  rejected (JS.parseInt (JS.orElse input "0")) = true -> ~ readable input.
Proof.
  intros H [n Hn]. apply positiveFinite_accepted in Hn as [Hp Hr].
  rewrite Hp, Hr in H. discriminate.
Qed.

Lemma settle_refuses_only_bad_forms state text e prev :
  returned (settle state text e prev) = false -> mustReject e.
Proof.
  destruct e as [winner han fu riichi | winner loser han fu riichi
                | tenpai riichi]; cbn [settle mustReject].
  - unfold handleTsumoConfirm.
    destruct winner as [w|]; [| auto].
    destruct (rejected (JS.parseInt (JS.orElse han "0"))) eqn:Eh.
    { intros _. right. left. apply rejected_unreadable, Eh. }
    destruct (rejected (JS.parseInt (JS.orElse fu "0"))) eqn:Ef.
    { intros _. right. right. apply rejected_unreadable, Ef. }
    cbn [orb]. cbv zeta. split_lets. discriminate.
  - unfold handleRonConfirm.
    destruct winner as [w|]; [| auto].
    destruct loser as [l|]; [| auto].
    destruct (Z.eqb_spec w l) as [-> | _]; [auto |].
    destruct (rejected (JS.parseInt (JS.orElse han "0"))) eqn:Eh.
    { intros _. do 3 right. left. apply rejected_unreadable, Eh. }
    destruct (rejected (JS.parseInt (JS.orElse fu "0"))) eqn:Ef.
    { intros _. do 4 right. apply rejected_unreadable, Ef. }
    cbn [orb]. cbv zeta. split_lets. discriminate.
  - unfold handleDrawConfirm. cbv zeta. split_lets. discriminate.
Qed.

Lemma settle_refuses_bad_forms state text e prev :
  mustReject e -> returned (settle state text e prev) = false.
Proof.
  intros H. destruct (returned (settle state text e prev)) eqn:Hok;
    [| reflexivity].
  exfalso.
  destruct e as [winner han fu riichi | winner loser han fu riichi
                | tenpai riichi]; cbn [settle mustReject] in *;
    [| | contradiction].
  - unfold handleTsumoConfirm in Hok.
    destruct winner as [w|]; [| discriminate].
    destruct H as [H | [H | H]]; [discriminate | |];
      apply unreadable_rejected in H; rewrite H in Hok;
      rewrite ?orb_true_r in Hok; discriminate.
  - unfold handleRonConfirm in Hok.
    destruct winner as [w|]; [| discriminate].
    destruct loser as [l|]; [| discriminate].
    destruct (Z.eqb_spec w l) as [-> | Hne]; [discriminate |].
    destruct H as [H | [H | [H | [H | H]]]];
      [discriminate | discriminate | congruence | |];
      apply unreadable_rejected in H; rewrite H in Hok;
      rewrite ?orb_true_r in Hok; discriminate.
Qed.

(** X3: a confirmation goes through exactly when the form is complete: a
    self-draw with a winner and readable han and fu, a discard-win with two
    different seats and readable han and fu, and every exhaustive draw. *)
Theorem settle_accepts_exactly state text e prev :
  returned (settle state text e prev) = true <-> ~ mustReject e.
Proof.
  split.
  - intros Hok Hbad.
    rewrite (settle_refuses_bad_forms _ _ _ _ Hbad) in Hok. discriminate.
  - intros Hgood. destruct (returned (settle state text e prev)) eqn:Hok;
      [reflexivity |].
    exfalso. apply Hgood. eapply settle_refuses_only_bad_forms, Hok.
Qed.

Lemma sumList_cons (x : Z) (l : list Z) : sumList (x :: l) = x + sumList l.
Proof. reflexivity. Qed.

(** The riichi loop collects one index per raised flag. *)
Lemma riichi_loop_count (es : list (Z * bool)) (deltas : list Z)
    (riichiIndices : list Z) :
  Z.of_nat
    (length
       (fold_left
          (fun st (e : Z * bool) =>
             (fun (v : bool) idx '(deltas, riichiIndices) =>
                if v then (JS.update (fun d => d - 1000) idx deltas,
                           (riichiIndices ++ [idx])%list)
                else (deltas, riichiIndices)) e.2 e.1 st)
          es (deltas, riichiIndices)).2)
  = Z.of_nat (length riichiIndices)
    + sumList (map (fun v : bool => if v then 1 else 0) (map snd es)).
Proof.
  revert deltas riichiIndices.
  induction es as [| [idx v] es IH]; intros deltas riichiIndices.
  - cbn. lia.
  - cbn [fold_left map snd]. rewrite sumList_cons.
    destruct v; cbn [fst snd]; rewrite IH, ?length_app; cbn [length]; lia.
Qed.

Lemma imap_values {A B : Type} (f : nat -> B) (arr : list A) :
  map snd (imap (fun i v => (f i, v)) arr) = arr.
Proof.
  revert f. induction arr as [| x arr IH]; intros f; [reflexivity |].
  cbn [imap map snd]. f_equal. exact (IH (fun i => f (S i))).
Qed.

Lemma entries_values {A : Type} (arr : list A) :
  map snd (JS.entries arr) = arr.
Proof. apply imap_values. Qed.

Lemma riichi_count (flags : list bool) (deltas : list Z) :
  Z.of_nat
    (length
       (JS.forEach flags
          (fun (v : bool) idx '(deltas, riichiIndices) =>
             if v then (JS.update (fun d => d - 1000) idx deltas,
                        (riichiIndices ++ [idx])%list)
             else (deltas, riichiIndices))
          (deltas, [])).2)
  = declarers flags.
Proof.
  unfold JS.forEach, declarers.
  rewrite riichi_loop_count, entries_values. cbn [length]. lia.
Qed.

Lemma settle_entry state text e prev :
  returned (settle state text e prev) = true ->
  exists entry,
    history (next (settle state text e prev)) = entry :: history prev /\
    HistoryEntry.type entry = settlementType e /\
    HistoryEntry.playerNames entry = names state /\
    HistoryEntry.riichiCount entry = declarers (riichiOf e) /\
    names (next (settle state text e prev)) = names prev /\
    canUndo (next (settle state text e prev)) = true /\
    canRedo (next (settle state text e prev)) = false /\
    lastSettlementBefore (next (settle state text e prev))
      = Some (createCoreSnapshotFromState prev).
Proof.
  destruct e as [winner han fu riichi | winner loser han fu riichi
                | tenpai riichi];
    cbn [settle settlementType riichiOf];
    pose proof (riichi_count riichi [0; 0; 0; 0]) as Hc.
  - unfold handleTsumoConfirm.
    destruct winner as [w|]; [| discriminate].
    destruct (rejected _ || rejected _); [discriminate |].
    cbv zeta. destruct (JS.forEach riichi _ _) as [d ri].
    split_lets. intros _. eexists. cbn. repeat split. exact Hc.
  - unfold handleRonConfirm.
    destruct winner as [w|], loser as [l|]; try discriminate.
    destruct (w =? l); [discriminate |].
    destruct (rejected _ || rejected _); [discriminate |].
    cbv zeta. destruct (JS.forEach riichi _ _) as [d ri].
    split_lets. intros _. eexists. cbn. repeat split. exact Hc.
  - unfold handleDrawConfirm.
    cbv zeta. destruct (JS.forEach riichi _ _) as [d ri].
    split_lets. intros _. eexists. cbn. repeat split. exact Hc.
Qed.

(** X5: a confirmed settlement puts exactly one new entry in front of the
    history and touches no older entry; the entry carries the kind of the
    settlement, the nicknames of the render it was built in and the number
    of riichi declarers; the current nicknames are not changed. *)
Theorem settle_appends_one_entry state text e prev :
  returned (settle state text e prev) = true ->
  exists entry,
    history (next (settle state text e prev)) = entry :: history prev /\
    HistoryEntry.type entry = settlementType e /\
    HistoryEntry.playerNames entry = names state /\
    HistoryEntry.riichiCount entry = declarers (riichiOf e) /\
    names (next (settle state text e prev)) = names prev.
Proof.
  intros Hok.
  destruct (settle_entry _ _ _ _ Hok) as (entry & H1 & H2 & H3 & H4 & H5 & _).
  exists entry. auto.
Qed.

Lemma settle_appends_one_entry_witness :
  let prev := createInitialGameState in
  let text := mkRendering "1-0" "E1" "draw" "12:00" "draw" in
  let e := Draw [true; false; false; false] [false; true; true; false] in
  exists entry,
    history (next (settle prev text e prev)) = entry :: history prev /\
    HistoryEntry.type entry = settlementType e /\
    HistoryEntry.playerNames entry = names prev /\
    HistoryEntry.riichiCount entry = declarers (riichiOf e) /\
    names (next (settle prev text e prev)) = names prev.
Proof.
  intros prev text e.
  apply (settle_appends_one_entry prev text e prev). reflexivity.
Defined.

(** X7: a confirmed settlement makes undo available and redo unavailable,
    whatever pair was pending before, and the pair it installs starts from
    the state the settlement was applied to. *)
Theorem settle_arms_undo state text e prev :
  returned (settle state text e prev) = true ->
  canUndo (next (settle state text e prev)) = true /\
  canRedo (next (settle state text e prev)) = false /\
  lastSettlementBefore (next (settle state text e prev))
    = Some (createCoreSnapshotFromState prev).
Proof.
  intros Hok.
  destruct (settle_entry _ _ _ _ Hok) as (entry & _ & _ & _ & _ & _ & H).
  exact H.
Qed.

Lemma settle_arms_undo_witness :
  let prev := createInitialGameState in
  let text := mkRendering "1-0" "E1" "tsumo" "12:00" "tsumo" in
  let e := Tsumo (Some 1) "2" "30" [false; false; false; false] in
  canUndo (next (settle prev text e prev)) = true /\
  canRedo (next (settle prev text e prev)) = false /\
  lastSettlementBefore (next (settle prev text e prev))
    = Some (createCoreSnapshotFromState prev).
Proof.
  intros prev text e.
  apply (settle_arms_undo prev text e prev). reflexivity.
Defined.

(** ** Who pays and who receives *)

Lemma roundUpToHundred_ge (value : Z) : value <= roundUpToHundred value.
Proof.
  unfold roundUpToHundred, JS.ceilDiv.
  pose proof (Z.div_mod (- value) 100 ltac:(lia)).
  pose proof (Z.mod_pos_bound (- value) 100 ltac:(lia)). lia.
Qed.

Lemma calcBasePoints_pos (han fu : Z) :
  0 < han -> 0 < fu -> 0 < calcBasePoints han fu.
Proof.
  intros Hhan Hfu. unfold calcBasePoints.
  repeat match goal with
         | |- context [if ?c then _ else _] => destruct c; [lia |]
         end.
  apply Z.mul_pos_pos; [lia |]. apply Z.pow_pos_nonneg; lia.
Qed.

Lemma declarers_bounds (riichi : list bool) :
  length riichi = 4%nat -> 0 <= declarers riichi <= 4.
Proof.
  intros Hr. four riichi Hr.
  repeat match goal with v : bool |- _ => destruct v end;
    vm_compute; split; discriminate.
Qed.

Lemma flag_is_declarer (riichi : list bool) (seat : Z) :
  length riichi = 4%nat ->
  0 <= riichiStick riichi seat + 1000 * declarers riichi /\
  -1000 <= riichiStick riichi seat <= 0.
Proof.
  intros Hr. pose proof (declarers_bounds riichi Hr) as Hn.
  unfold riichiStick.
  destruct (flagAt riichi seat) eqn:E; [| lia].
  enough (1 <= declarers riichi) by lia.
  clear Hn. four riichi Hr. unfold flagAt, JS.get in E.
  destruct (0 <=? seat); [| discriminate].
  destruct (Z.to_nat seat) as [|[|[|[|n]]]]; cbn in E; try discriminate;
    subst;
    repeat match goal with v : bool |- _ => destruct v end;
    vm_compute; discriminate.
Qed.

Lemma tsumo_delta_signs state winner han fu riichi seat :
  length riichi = 4%nat ->
  isSeat winner = true -> isSeat (dealerIndex state) = true ->
  0 < han -> 0 < fu -> 0 <= honba state -> 0 <= kyotaku state ->
  if seat =? winner
  then 0 < TsumoSpec.delta state winner han fu riichi seat
  else TsumoSpec.delta state winner han fu riichi seat < 0.
Proof.
  intros Hr Hw Hd Hhan Hfu Hh Hk.
  pose proof (calcBasePoints_pos han fu Hhan Hfu) as Hb.
  pose proof (roundUpToHundred_ge (calcBasePoints han fu)) as H1.
  pose proof (roundUpToHundred_ge (2 * calcBasePoints han fu)) as H2.
  pose proof (flag_is_declarer riichi seat Hr) as [Hf1 Hf2].
  unfold TsumoSpec.delta, TsumoSpec.collected, TsumoSpec.payment.
  cbv zeta.
  generalize dependent (roundUpToHundred (calcBasePoints han fu)).
  generalize dependent (roundUpToHundred (2 * calcBasePoints han fu)).
  intros B2 HB2 B1 HB1.
  generalize dependent (riichiStick riichi seat). intros stick Hs1 Hs2.
  generalize dependent (declarers riichi). intros n Hn.
  destruct (Z.eqb_spec seat winner) as [-> | Hne].
  - seat_cases winner Hw; seat_cases (dealerIndex state) Hd;
      cbn [seats List.filter Z.eqb Pos.eqb negb map sumList fold_right];
      lia.
  - destruct (winner =? dealerIndex state), (seat =? dealerIndex state); lia.
Qed.

(** X4: in a self-draw preview the deltas add up to exactly the pool that
    is paid out ([kyotakuIncome], i.e. [kyotaku * 1000]) and the riichi
    income is 1000 per declarer; with non-negative honba and pool the
    winner's delta is positive and every other seat's is negative. *)
Theorem tsumo_preview_balance state winner hanInput fuInput riichi han fu :
  length (points state) = 4%nat -> length riichi = 4%nat ->
  isSeat winner = true -> isSeat (dealerIndex state) = true ->
  positiveFinite hanInput han -> positiveFinite fuInput fu ->
  0 <= honba state -> 0 <= kyotaku state ->
  exists preview,
    computeTsumoPreview state (Some winner) hanInput fuInput riichi
      = Some preview /\
    sumList (SettlementPreview.deltas preview)
      = SettlementPreview.kyotakuIncome preview /\
    SettlementPreview.kyotakuIncome preview = kyotaku state * 1000 /\
    SettlementPreview.riichiIncome preview = declarers riichi * 1000 /\
    (forall seat d, JS.get (SettlementPreview.deltas preview) seat = Some d ->
       if seat =? winner then 0 < d else d < 0).
Proof.
  intros Hp Hr Hw Hd Hhan Hfu Hh Hk.
  eexists. split; [apply tsumo_preview_closed; eassumption |].
  cbn [SettlementPreview.deltas SettlementPreview.kyotakuIncome
       SettlementPreview.riichiIncome].
  split; [apply tsumo_deltas_sum; assumption |].
  split; [reflexivity |]. split; [reflexivity |].
  intros seat d Hget.
  assert (Hseat : isSeat seat = true).
  { unfold JS.get in Hget. unfold isSeat.
    destruct (0 <=? seat) eqn:E; [| discriminate].
    apply lookup_lt_Some in Hget. cbn in Hget. lia. }
  rewrite (get_map_seats _ _ Hseat) in Hget. injection Hget as <-.
  destruct Hhan as (_ & Hhan & _), Hfu as (_ & Hfu & _).
  apply tsumo_delta_signs; assumption.
Qed.

Lemma tsumo_preview_balance_witness :
  exists preview,
    computeTsumoPreview createInitialGameState (Some 2) "3" "40"
      [false; true; true; false] = Some preview /\
    sumList (SettlementPreview.deltas preview)
      = SettlementPreview.kyotakuIncome preview /\
    SettlementPreview.kyotakuIncome preview
      = kyotaku createInitialGameState * 1000 /\
    SettlementPreview.riichiIncome preview
      = declarers [false; true; true; false] * 1000 /\
    (forall seat d, JS.get (SettlementPreview.deltas preview) seat = Some d ->
       if seat =? 2 then 0 < d else d < 0).
Proof.
  apply (tsumo_preview_balance createInitialGameState 2 "3" "40"
           [false; true; true; false] 3 40);
    [reflexivity | reflexivity | reflexivity | reflexivity
    | repeat split | repeat split | simpl; lia | simpl; lia].
Defined.

Lemma ron_delta_signs state winner loser han fu riichi seat :
  length riichi = 4%nat -> winner <> loser ->
  0 < han -> 0 < fu -> 0 <= honba state -> 0 <= kyotaku state ->
  let d := RonSpec.delta state winner loser han fu riichi seat in
  if seat =? winner then 0 < d
  else if seat =? loser then d < 0
  else d = riichiStick riichi seat.
Proof.
  intros Hr Hne Hhan Hfu Hh Hk.
  pose proof (calcBasePoints_pos han fu Hhan Hfu) as Hb.
  pose proof (roundUpToHundred_ge
                (RonSpec.multiplier state winner * calcBasePoints han fu))
    as Hpay.
  pose proof (flag_is_declarer riichi seat Hr) as [Hf1 Hf2].
  assert (Hm : 4 <= RonSpec.multiplier state winner)
    by (unfold RonSpec.multiplier; destruct (_ =? _); lia).
  unfold RonSpec.delta, RonSpec.payment. cbv zeta.
  generalize dependent (roundUpToHundred
    (RonSpec.multiplier state winner * calcBasePoints han fu)).
  intros P HP.
  assert (0 < P) by nia.
  destruct (Z.eqb_spec seat winner), (Z.eqb_spec seat loser); lia.
Qed.

(** X6: in a discard-win preview the deltas add up to exactly the pool
    that is paid out and the riichi income is 1000 per declarer; with
    non-negative honba and pool the winner's delta is positive, the
    loser's is negative and the two other seats carry their riichi stick
    and nothing else. *)
Theorem ron_preview_balance state winner loser hanInput fuInput riichi
    han fu :
  length riichi = 4%nat ->
  isSeat winner = true -> isSeat loser = true -> winner <> loser ->
  positiveFinite hanInput han -> positiveFinite fuInput fu ->
  0 <= honba state -> 0 <= kyotaku state ->
  exists preview,
    computeRonPreview state (Some winner) (Some loser) hanInput fuInput riichi
      = Some preview /\
    sumList (SettlementPreview.deltas preview)
      = SettlementPreview.kyotakuIncome preview /\
    SettlementPreview.kyotakuIncome preview = kyotaku state * 1000 /\
    SettlementPreview.riichiIncome preview = declarers riichi * 1000 /\
    (forall seat d, JS.get (SettlementPreview.deltas preview) seat = Some d ->
       if seat =? winner then 0 < d
       else if seat =? loser then d < 0
       else d = riichiStick riichi seat).
Proof.
  intros Hr Hw Hl Hne Hhan Hfu Hh Hk.
  eexists. split; [apply ron_preview_closed; eassumption |].
  cbn [SettlementPreview.deltas SettlementPreview.kyotakuIncome
       SettlementPreview.riichiIncome].
  split; [apply ron_deltas_sum; assumption |].
  split; [reflexivity |]. split; [reflexivity |].
  intros seat d Hget.
  assert (Hseat : isSeat seat = true).
  { unfold JS.get in Hget. unfold isSeat.
    destruct (0 <=? seat) eqn:E; [| discriminate].
    apply lookup_lt_Some in Hget. cbn in Hget. lia. }
  rewrite (get_map_seats _ _ Hseat) in Hget. injection Hget as <-.
  destruct Hhan as (_ & Hhan & _), Hfu as (_ & Hfu & _).
  apply ron_delta_signs; assumption.
Qed.

Lemma ron_preview_balance_witness :
  exists preview,
    computeRonPreview createInitialGameState (Some 0) (Some 3) "2" "30"
      [true; false; false; true] = Some preview /\
    sumList (SettlementPreview.deltas preview)
      = SettlementPreview.kyotakuIncome preview /\
    SettlementPreview.kyotakuIncome preview
      = kyotaku createInitialGameState * 1000 /\
    SettlementPreview.riichiIncome preview
      = declarers [true; false; false; true] * 1000 /\
    (forall seat d, JS.get (SettlementPreview.deltas preview) seat = Some d ->
       if seat =? 0 then 0 < d
       else if seat =? 3 then d < 0
       else d = riichiStick [true; false; false; true] seat).
Proof.
  apply (ron_preview_balance createInitialGameState 0 3 "2" "30"
           [true; false; false; true] 2 30);
    [reflexivity | reflexivity | reflexivity | lia
    | repeat split | repeat split | simpl; lia | simpl; lia].
Defined.

(** ** Undo, redo and the manual edits *)

(** X8: when undo is available, undoing makes it unavailable and redo
    available; redoing then installs the snapshot taken after the
    settlement and makes undo available again and redo unavailable. *)
Theorem undo_toggles_buttons (s : GameState) :
  canUndo s = true ->
  canUndo (handleUndoLastSettlement s) = false /\
  canRedo (handleUndoLastSettlement s) = true /\
  canUndo (handleRedoLastSettlement (handleUndoLastSettlement s)) = true /\
  canRedo (handleRedoLastSettlement (handleUndoLastSettlement s)) = false /\
  createCoreSnapshotFromState
    (handleRedoLastSettlement (handleUndoLastSettlement s))
  = default (createCoreSnapshotFromState s) (lastSettlementAfter s).
Proof.
  unfold canUndo, canRedo, hasLastSettlement, handleRedoLastSettlement,
    handleUndoLastSettlement.
  destruct s as [p k h r d hi n [b|] [a|] [m|] u]; cbn; try discriminate.
  destruct u; [discriminate |]. intros _.
  destruct a. repeat split.
Qed.

Lemma undo_toggles_buttons_witness :
  let prev := createInitialGameState in
  let text := mkRendering "1-0" "E1" "tsumo" "12:00" "tsumo" in
  let s :=
    next (settle prev text
            (Tsumo (Some 1) "2" "30" [false; false; false; false]) prev) in
  canUndo (handleUndoLastSettlement s) = false /\
  canRedo (handleUndoLastSettlement s) = true /\
  canUndo (handleRedoLastSettlement (handleUndoLastSettlement s)) = true /\
  canRedo (handleRedoLastSettlement (handleUndoLastSettlement s)) = false /\
  createCoreSnapshotFromState
    (handleRedoLastSettlement (handleUndoLastSettlement s))
  = default (createCoreSnapshotFromState s) (lastSettlementAfter s).
Proof.
  intros prev text s. apply (undo_toggles_buttons s). reflexivity.
Defined.

(** X9: undo and redo put back the nicknames and the round of the
    snapshot, so a round edit or a nickname change made after the last
    settlement is lost by either of them. *)
Theorem undo_discards_later_edits (s edited : GameState) (form : EditRound)
    (editNames : list string) :
  hasLastSettlement s = true ->
  handleEditRoundConfirm form s = Some edited ->
  handleUndoLastSettlement edited = handleUndoLastSettlement s /\
  handleUndoLastSettlement (saveNames editNames s)
    = handleUndoLastSettlement s /\
  (isInUndo s = true ->
   handleRedoLastSettlement edited = handleRedoLastSettlement s /\
   handleRedoLastSettlement (saveNames editNames s)
     = handleRedoLastSettlement s).
Proof.
  unfold hasLastSettlement, handleUndoLastSettlement,
    handleRedoLastSettlement, handleEditRoundConfirm.
  destruct s as [p k h r d hi n [b|] [a|] [m|] u]; cbn; try discriminate.
  intros _.
  destruct (JS.whole (editNumber form)); [| discriminate].
  destruct (JS.whole (JS.mathMax 0 (editHonba form))); [| discriminate].
  intros E. injection E as <-. cbn.
  repeat split; subst; reflexivity.
Qed.

Lemma undo_discards_later_edits_witness :
  let prev := createInitialGameState in
  let text := mkRendering "1-0" "E1" "tsumo" "12:00" "tsumo" in
  let s :=
    next (settle prev text
            (Tsumo (Some 1) "2" "30" [false; false; false; false]) prev) in
  let form := mkEditRound South (JS.Whole 2) (JS.Whole 3) 1 in
  let editNames := ["Aki"; "Ben"; "Chie"; "Dai"] in
  exists edited,
    handleEditRoundConfirm form s = Some edited /\
    kyokuIndex edited = 5 /\
    handleUndoLastSettlement edited = handleUndoLastSettlement s /\
    handleUndoLastSettlement (saveNames editNames s)
      = handleUndoLastSettlement s /\
    (isInUndo s = true ->
     handleRedoLastSettlement edited = handleRedoLastSettlement s /\
     handleRedoLastSettlement (saveNames editNames s)
       = handleRedoLastSettlement s).
Proof.
  intros prev text s form editNames.
  eexists. split; [reflexivity |]. split; [reflexivity |].
  apply (undo_discards_later_edits s _ form editNames); reflexivity.
Defined.

Lemma act_invariant (a : Action) (s : GameState) :
  matchInvariant s -> validAction a = true ->
  exists s', act a s = Some s' /\ matchInvariant s'.
Proof.
  intros Hinv Hvalid. pose proof Hinv as (Ht & Hb & Ha).
  destruct a as [text e | | | form | editNames | resetNames];
    cbn [act validAction] in *;
    try (eexists; split; [reflexivity |]).
  - unfold confirm.
    pose proof (settle_invariant s text e s Ht Hvalid) as Hnext.
    destruct (returned (settle s text e s)) eqn:Hok.
    + destruct (settle_commits _ _ _ _ Hok) as (c & m & E & _).
      rewrite E in *. split; [exact Hnext |].
      split; [exact Ht | exact Hnext].
    + rewrite settle_rejected by exact Hok. exact Hinv.
  - unfold handleUndoLastSettlement.
    destruct (lastSettlementBefore s) as [b|] eqn:Eb; [| exact Hinv].
    destruct (lastSettlementAfter s) as [c|] eqn:Ec; [| exact Hinv].
    destruct (lastSettlementMeta s); [| exact Hinv].
    split; [exact Hb |]. cbn. rewrite Eb, Ec. split; assumption.
  - unfold handleRedoLastSettlement.
    destruct (lastSettlementBefore s) as [b|] eqn:Eb; [| exact Hinv].
    destruct (lastSettlementAfter s) as [c|] eqn:Ec; [| exact Hinv].
    destruct (lastSettlementMeta s); [| exact Hinv].
    destruct (isInUndo s); [| exact Hinv]. cbn [negb].
    split; [exact Ha |]. cbn. rewrite Eb, Ec. split; assumption.
  - unfold wholeEdit in Hvalid. apply andb_prop in Hvalid as [Hseat Hwhole].
    unfold handleEditRoundConfirm.
    destruct (JS.whole (editNumber form)); [| discriminate].
    destruct (JS.whole (JS.mathMax 0 (editHonba form))); [| discriminate].
    eexists. split; [reflexivity |].
    destruct Ht as (Hlen & _ & Hsum).
    split; [| split; assumption].
    repeat split; assumption.
  - split; [exact Ht | split; assumption].
  - repeat split.
Qed.

Lemma initial_match_invariant : matchInvariant createInitialGameState.
Proof. repeat split. Qed.

Lemma runActions_invariant (actions : list Action) (s : GameState) :
  matchInvariant s ->
  Forall (fun a => validAction a = true) actions ->
  exists s', runActions actions s = Some s' /\ matchInvariant s'.
Proof.
  intros Hs Hall. revert s Hs.
  induction Hall as [| a rest Hvalid _ IH]; intros s Hs.
  - exists s. split; [reflexivity | exact Hs].
  - destruct (act_invariant a s Hs Hvalid) as (s1 & E & H1).
    cbn [runActions]. rewrite E. apply IH, H1.
Qed.

(** X10: conservation survives everything the operator can do with whole
    numbers: starting from the initial state, any sequence of settlements,
    undos, redos, round edits with a whole round number and a whole honba
    of at most [EDITED_HONBA_LIMIT], nickname changes and resets leads to a
    state with four stacks and [sum(points) + kyotaku * 1000 = 100000], and
    the same holds for the two snapshots kept for undo and redo. *)
Theorem conservation_under_all_actions (actions : list Action) :
  Forall (fun a => validAction a = true) actions ->
  exists s,
    runActions actions createInitialGameState = Some s /\
    length (points s) = 4%nat /\
    sumList (points s) + kyotaku s * 1000 = 100000 /\
    snapshotSound (lastSettlementBefore s) /\
    snapshotSound (lastSettlementAfter s).
Proof.
  intros Hall.
  destruct (runActions_invariant actions createInitialGameState
              initial_match_invariant Hall)
    as (s & E & (Hlen & _ & Hsum) & Hb & Ha).
  exists s. repeat split; assumption.
Qed.

Lemma conservation_under_all_actions_witness :
  let text := mkRendering "1-0" "E1" "hand" "12:00" "hand" in
  let actions :=
    [ Settle text (Draw [true; false; false; false]
                     [true; true; false; false]);
      EditRoundAction (mkEditRound South (JS.Whole 2) (JS.Whole 3) 1);
      Settle text (Tsumo (Some 1) "2" "30" [false; false; true; false]);
      Undo;
      SaveNames ["Aki"; "Ben"; "Chie"; "Dai"];
      Redo;
      Settle text (Ron (Some 3) (Some 0) "5" "30"
                     [false; false; false; true]);
      Undo ] in
  exists s,
    runActions actions createInitialGameState = Some s /\
    length (points s) = 4%nat /\
    sumList (points s) + kyotaku s * 1000 = 100000 /\
    snapshotSound (lastSettlementBefore s) /\
    snapshotSound (lastSettlementAfter s).
Proof.
  intros text actions.
  apply (conservation_under_all_actions actions).
  repeat constructor.
Defined.

(** ** The round display and the edit dialog *)

(** X11: opening the edit-round dialog and confirming it untouched gives
    back the state it was opened on, provided the honba is not negative:
    the round index decoded into wind and number is encoded back to
    itself, for every round index. *)
Theorem edit_round_untouched (s : GameState) :
  0 <= honba s ->
  handleEditRoundConfirm (openEditRound s) s = Some s.
Proof.
  intros Hh. destruct s as [p k h r d hi n b a m u].
  unfold handleEditRoundConfirm, openEditRound, getRoundInfo.
  cbn [honba kyokuIndex dealerIndex points kyotaku history names
       lastSettlementBefore lastSettlementAfter lastSettlementMeta isInUndo
       editWind editNumber editHonba editDealer
       RoundInfo.wind RoundInfo.number JS.whole JS.mathMax JS.atLeast] in *.
  destruct (Z.leb_spec 0 h) as [_ |]; [| lia].
  cbn [JS.whole].
  destruct (r <? 4); do 2 f_equal; lia.
Qed.

Lemma edit_round_untouched_witness :
  let text := mkRendering "1-0" "E1" "ron" "12:00" "ron" in
  let s :=
    play [(text, Ron (Some 1) (Some 0) "1" "30" [false; false; false; false])]
      createInitialGameState in
  handleEditRoundConfirm (openEditRound s) s = Some s.
Proof.
  intros text s. apply (edit_round_untouched s). vm_compute. discriminate.
Defined.





(** A typed 2.5 stays in the number field, which then holds no whole
    number. *)
Example typed_fraction_stays (form : EditRound) :
  editNumber (changeEditNumber (JS.Fraction 2 1) form) = JS.Fraction 2 1.
Proof. reflexivity. Qed.

(** ** Nicknames *)

Lemma app_cons (c : ascii) (a b : string) :
  String c a +:+ b = String c (a +:+ b).
Proof. reflexivity. Qed.

Lemma app_empty_l (b : string) : EmptyString +:+ b = b.
Proof. reflexivity. Qed.

(** A string that does not begin with white space is left as it is. *)
Lemma trimStart_unchanged (s : string) :
  startsWithWhiteSpace s = false -> JS.trimStart s = s.
Proof.
  destruct s as [| a [| b [| c r]]];
    cbn [startsWithWhiteSpace JS.trimStart];
    repeat (destruct (JS.isWhiteSpace _); cbn [orb]; try discriminate);
    reflexivity.
Qed.

(** What [trimStart] returns does not begin with white space. *)
Lemma trimStart_result (n : nat) (s : string) :
  (String.length s <= n)%nat -> startsWithWhiteSpace (JS.trimStart s) = false.
Proof.
  revert s. induction n as [| n IH]; intros s Hlen.
  - destruct s; [reflexivity | cbn in Hlen; lia].
  - destruct s as [| a r1]; [reflexivity |].
    cbn [String.length] in Hlen. cbn [JS.trimStart].
    destruct (JS.isWhiteSpace (String a EmptyString)) eqn:E1;
      [apply IH; lia |].
    destruct r1 as [| b r2]; [cbn [startsWithWhiteSpace]; exact E1 |].
    cbn [String.length] in Hlen.
    destruct (JS.isWhiteSpace (String a (String b EmptyString))) eqn:E2;
      [apply IH; lia |].
    destruct r2 as [| c r3];
      [cbn [startsWithWhiteSpace]; rewrite E1, E2; reflexivity |].
    cbn [String.length] in Hlen.
    destruct (JS.isWhiteSpace (String a (String b (String c EmptyString))))
      eqn:E3; [apply IH; lia |].
    cbn [startsWithWhiteSpace]. rewrite E1, E2, E3. reflexivity.
Qed.

Lemma startsWithWhiteSpace_prefix (u w : string) :
  startsWithWhiteSpace u = true -> startsWithWhiteSpace (u +:+ w) = true.
Proof.
  destruct u as [| a [| b [| c r]]]; cbn [startsWithWhiteSpace]; intros H;
    rewrite ?app_cons, ?app_empty_l.
  - discriminate.
  - destruct w as [| x [| y w]]; cbn [startsWithWhiteSpace];
      rewrite H; reflexivity.
  - destruct w as [| x w]; cbn [startsWithWhiteSpace];
      [exact H | rewrite H; reflexivity].
  - exact H.
Qed.

(** [trimEnd] keeps a prefix of the string. *)
Lemma trimEnd_split (s : string) : exists w, s = JS.trimEnd s +:+ w.
Proof.
  induction s as [| c s [w IH]]; [exists EmptyString; reflexivity |].
  cbn [JS.trimEnd]. cbv zeta.
  destruct (JS.isWhiteSpace (String c (JS.trimEnd s))).
  - eexists. reflexivity.
  - exists w. rewrite app_cons, <- IH. reflexivity.
Qed.

Lemma trimEnd_fixed (s : string) : JS.trimEnd (JS.trimEnd s) = JS.trimEnd s.
Proof.
  induction s as [| c s IH]; [reflexivity |].
  cbn [JS.trimEnd]. cbv zeta.
  destruct (JS.isWhiteSpace (String c (JS.trimEnd s))) eqn:E; [reflexivity |].
  cbn [JS.trimEnd]. cbv zeta. rewrite IH, E. reflexivity.
Qed.

(** White space at the end is dropped, however much there is of it. *)
Lemma trimEnd_drops (s : string) (codePoint : Z) :
  In codePoint JS.WHITE_SPACE ->
  JS.trimEnd (s +:+ JS.utf8 codePoint) = JS.trimEnd s.
Proof.
  intros Hin. induction s as [| c s IH].
  - rewrite app_empty_l. cbn [JS.trimEnd].
    unfold JS.WHITE_SPACE in Hin. cbn [In] in Hin.
    repeat (destruct Hin as [<- | Hin]; [vm_compute; reflexivity |]).
    contradiction.
  - rewrite app_cons. cbn [JS.trimEnd]. rewrite IH. reflexivity.
Qed.

(** White space at the front is dropped, however much there is of it. *)
Lemma trimStart_drops (s : string) (codePoint : Z) :
  In codePoint JS.WHITE_SPACE ->
  JS.trimStart (JS.utf8 codePoint +:+ s) = JS.trimStart s.
Proof.
  intros Hin. unfold JS.WHITE_SPACE in Hin. cbn [In] in Hin.
  repeat (destruct Hin as [<- | Hin]; [reflexivity |]).
  contradiction.
Qed.

(** Trimming a trimmed string changes nothing. *)
Lemma trim_idempotent (s : string) : JS.trim (JS.trim s) = JS.trim s.
Proof.
  unfold JS.trim.
  pose proof (trimStart_result _ s (le_n _)) as Hstart.
  destruct (trimEnd_split (JS.trimStart s)) as [w Hw].
  assert (H : startsWithWhiteSpace (JS.trimEnd (JS.trimStart s)) = false).
  { destruct (startsWithWhiteSpace (JS.trimEnd (JS.trimStart s))) eqn:E;
      [| reflexivity].
    apply (startsWithWhiteSpace_prefix _ w) in E.
    rewrite <- Hw in E. congruence. }
  rewrite (trimStart_unchanged _ H). apply trimEnd_fixed.
Qed.

(** A name the sanitizer leaves alone: not empty and already trimmed. *)
Lemma name_kept (v : json) (index : Z) :
  isSeat index = true ->
  LoadSpec.name v index <> EmptyString /\
  JS.trim (LoadSpec.name v index) = LoadSpec.name v index.
Proof.
  intros Hi.
  assert (Hlabel : playerLabel index <> EmptyString /\
                   JS.trim (playerLabel index) = playerLabel index)
    by (seat_cases index Hi; (split; [discriminate | reflexivity])).
  unfold LoadSpec.name. destruct v; try exact Hlabel.
  destruct (String.eqb_spec (JS.trim s) EmptyString) as [E | E];
    [exact Hlabel |].
  split; [exact E | apply trim_idempotent].
Qed.

Lemma sanitizeNames_array4 (a b c d : json) :
  sanitizeNames (Some (JArr [a; b; c; d])) =
  [LoadSpec.name a 0; LoadSpec.name b 1; LoadSpec.name c 2;
   LoadSpec.name d 3].
Proof.
  unfold sanitizeNames, LoadSpec.name.
  cbn [Json.asArray length Nat.eqb negb JS.mapi JS.entries imap map fst snd
       compose Z.of_nat Pos.of_succ_nat Pos.succ].
  repeat f_equal;
    match goal with
    | |- match ?v with _ => _ end = _ =>
        destruct v; try reflexivity; apply fallback_when_empty
    end.
Qed.

Lemma sanitizeNames_kept (a b c d : string) :
  Forall (fun n => n <> EmptyString /\ JS.trim n = n) [a; b; c; d] ->
  sanitizeNames (Some (JArr (map JStr [a; b; c; d]))) = [a; b; c; d].
Proof.
  intros H. cbn [map]. rewrite sanitizeNames_array4.
  assert (Hname : forall n i, n <> EmptyString /\ JS.trim n = n ->
                    LoadSpec.name (JStr n) i = n).
  { intros n i [Hn Ht]. unfold LoadSpec.name. rewrite Ht.
    apply String.eqb_neq in Hn. rewrite Hn. reflexivity. }
  inversion H as [| ? ? Ha H1]; subst.
  inversion H1 as [| ? ? Hb H2]; subst.
  inversion H2 as [| ? ? Hc H3]; subst.
  inversion H3 as [| ? ? Hd _]; subst.
  rewrite !Hname by assumption. reflexivity.
Qed.

Lemma sanitizeNames_shape (input : option json) :
  exists a b c d,
    sanitizeNames input = [a; b; c; d] /\
    Forall (fun n => n <> EmptyString /\ JS.trim n = n) [a; b; c; d].
Proof.
  assert (Hdefault :
    Forall (fun n => n <> EmptyString /\ JS.trim n = n) createDefaultNames)
    by (repeat constructor; discriminate).
  destruct (LoadSpec.isArrayOf4 input) eqn:E.
  - unfold LoadSpec.isArrayOf4 in E.
    destruct input as [[| | | |items|]|]; try discriminate.
    apply Nat.eqb_eq in E. four items E.
    do 4 eexists. split; [apply sanitizeNames_array4 |].
    repeat constructor; apply name_kept; reflexivity.
  - rewrite (sanitizeNames_default _ E).
    do 4 eexists. split; [reflexivity | exact Hdefault].
Qed.

(** X13: whatever it is given, [sanitizeNames] returns four nicknames, none
    of them empty and each already trimmed; sanitizing its own result
    changes nothing. *)
Theorem sanitizeNames_four_clean_names (input : option json) :
  length (sanitizeNames input) = 4%nat /\
  Forall (fun n => n <> EmptyString /\ JS.trim n = n) (sanitizeNames input) /\
  sanitizeNames (Some (JArr (map JStr (sanitizeNames input))))
  = sanitizeNames input.
Proof.
  destruct (sanitizeNames_shape input) as (a & b & c & d & -> & H).
  split; [reflexivity |]. split; [exact H |].
  apply sanitizeNames_kept, H.
Qed.

(** ** Ranking *)

Lemma fold_entries_from {A T : Type} (body : A -> Z -> T -> T)
    (arr : list A) :
  forall (f : nat -> Z) (k : Z) (st : T),
    (forall i, f i = k + Z.of_nat i) ->
    fold_left (fun st e => body e.2 e.1 st)
      (imap (fun i v => (f i, v)) arr) st
    = forEachFrom k arr body st.
Proof.
  induction arr as [| x arr IH]; intros f k st Hf; [reflexivity |].
  cbn [imap fold_left forEachFrom fst snd].
  rewrite (Hf 0%nat), Z.add_0_r.
  apply (IH (fun i => f (S i)) (k + 1)).
  intros i. rewrite Hf. lia.
Qed.

Lemma forEach_from {A T : Type} (arr : list A) (body : A -> Z -> T -> T)
    (st : T) :
  JS.forEach arr body st = forEachFrom 0 arr body st.
Proof. apply fold_entries_from. intros i. lia. Qed.

Lemma get_update_same (r : Z) (i : Z) (l : list Z) :
  0 <= i < Z.of_nat (length l) ->
  JS.get (JS.update (fun _ => r) i l) i = Some r.
Proof.
  intros Hi. unfold JS.get, JS.update.
  destruct (Z.leb_spec 0 i); [| lia].
  rewrite list_lookup_alter_eq.
  destruct (lookup_lt_is_Some_2 l (Z.to_nat i)) as [x ->]; [lia |].
  reflexivity.
Qed.

Lemma get_update_other (f : Z -> Z) (i j : Z) (l : list Z) :
  i <> j -> 0 <= j -> JS.get (JS.update f i l) j = JS.get l j.
Proof.
  intros Hne Hj. unfold JS.get, JS.update.
  destruct (Z.leb_spec 0 j); [| lia].
  destruct (Z.leb_spec 0 i); [| reflexivity].
  apply list_lookup_alter_ne. lia.
Qed.

Lemma update_length (f : Z -> Z) (i : Z) (l : list Z) :
  length (JS.update f i l) = length l.
Proof.
  unfold JS.update. destruct (0 <=? i); [apply length_alter | reflexivity].
Qed.

Local Abbreviation rankCmp :=
  (fun a b : Ranking.entry =>
     if negb (Ranking.score b =? Ranking.score a)
     then Ranking.score b - Ranking.score a
     else Ranking.index a - Ranking.index b).

(** Entries in descending order of score. *)
Local Abbreviation descending :=
  (StronglySorted
     (fun a b : Ranking.entry => Ranking.score b <= Ranking.score a)).

(** The number of entries of [es] that score above [s]. *)
Local Abbreviation above es s :=
  (Z.of_nat
     (length
        (List.filter (fun x : Ranking.entry => s <? Ranking.score x) es))).

Lemma insertSorted_perm {A : Type} (cmp : A -> A -> Z) (x : A) (l : list A) :
  insertSorted cmp x l ≡ₚ x :: l.
Proof.
  induction l as [| y l IH]; [reflexivity |].
  cbn [insertSorted]. destruct (cmp x y <=? 0); [reflexivity |].
  rewrite IH. apply Permutation_swap.
Qed.

Lemma sortWith_perm {A : Type} (cmp : A -> A -> Z) (l : list A) :
  sortWith cmp l ≡ₚ l.
Proof.
  induction l as [| x l IH]; [reflexivity |].
  cbn [sortWith fold_right]. fold (sortWith cmp l).
  rewrite insertSorted_perm, IH. reflexivity.
Qed.

Lemma insertSorted_descending (x : Ranking.entry) (l : list Ranking.entry) :
  descending l -> descending (insertSorted rankCmp x l).
Proof.
  induction l as [| y l IH]; intros Hl.
  - cbn. repeat constructor.
  - apply StronglySorted_cons in Hl as [Hy Hl].
    cbn [insertSorted].
    destruct (Z.leb_spec
                (if negb (Ranking.score y =? Ranking.score x)
                 then Ranking.score y - Ranking.score x
                 else Ranking.index x - Ranking.index y) 0) as [Hle | Hgt].
    + assert (Hxy : Ranking.score y <= Ranking.score x).
      { destruct (Z.eqb_spec (Ranking.score y) (Ranking.score x));
          cbn [negb] in Hle; lia. }
      apply StronglySorted_cons. split.
      * constructor; [exact Hxy |].
        eapply Forall_impl; [exact Hy |]. cbn. intros z Hz. lia.
      * apply StronglySorted_cons. split; assumption.
    + assert (Hxy : Ranking.score x <= Ranking.score y).
      { destruct (Z.eqb_spec (Ranking.score y) (Ranking.score x));
          cbn [negb] in Hgt; lia. }
      apply StronglySorted_cons. split; [| apply IH, Hl].
      rewrite insertSorted_perm. constructor; assumption.
Qed.

Lemma sortWith_descending (l : list Ranking.entry) :
  descending (sortWith rankCmp l).
Proof.
  induction l as [| x l IH]; [constructor |].
  cbn [sortWith fold_right]. apply insertSorted_descending, IH.
Qed.

Lemma filter_none {A : Type} (f : A -> bool) (l : list A) :
  Forall (fun x => f x = false) l -> List.filter f l = [].
Proof.
  induction 1 as [| x l Hx _ IH]; [reflexivity |].
  cbn. rewrite Hx. exact IH.
Qed.

Lemma filter_every {A : Type} (f : A -> bool) (l : list A) :
  Forall (fun x => f x = true) l -> List.filter f l = l.
Proof.
  induction 1 as [| x l Hx _ IH]; [reflexivity |].
  cbn. rewrite Hx, IH. reflexivity.
Qed.

Lemma filter_length_perm {A : Type} (f : A -> bool) (l1 l2 : list A) :
  l1 ≡ₚ l2 -> length (List.filter f l1) = length (List.filter f l2).
Proof.
  induction 1 as [| x l1 l2 _ IH | x y l | l1 l2 l3 _ IH1 _ IH2].
  - reflexivity.
  - cbn. destruct (f x); cbn; rewrite IH; reflexivity.
  - cbn. destruct (f x), (f y); reflexivity.
  - congruence.
Qed.

Local Abbreviation rankBody :=
  (fun (entry : Ranking.entry) (idx : Z)
       '(ranks, lastScore, lastRank) =>
     if match lastScore with
        | Some last => Ranking.score entry =? last
        | None => false
        end
     then (JS.update (fun _ => lastRank) (Ranking.index entry) ranks,
           lastScore, lastRank)
     else
       let rank := idx + 1 in
       (JS.update (fun _ => rank) (Ranking.index entry) ranks,
        Some (Ranking.score entry), rank)).

(** In a descending list nothing from an entry on scores above it. *)
Lemma above_split (pre suf : list Ranking.entry) (e : Ranking.entry) :
  descending (pre ++ e :: suf) ->
  above (pre ++ e :: suf) (Ranking.score e) = above pre (Ranking.score e).
Proof.
  intros Hs. apply StronglySorted_app in Hs as (_ & _ & Hs).
  apply StronglySorted_cons in Hs as [He _].
  rewrite List.filter_app, length_app.
  rewrite (filter_none _ (e :: suf)); [cbn; lia |].
  constructor; [apply Z.ltb_irrefl |].
  eapply Forall_impl; [exact He |]. cbn. intros x Hx. apply Z.ltb_ge, Hx.
Qed.

(** When the entry before scores differently, every earlier entry is
    above. *)
Lemma above_all (pre suf : list Ranking.entry) (e : Ranking.entry) :
  descending (pre ++ e :: suf) ->
  match last pre with
  | None => True
  | Some l => Ranking.score e <> Ranking.score l
  end ->
  above pre (Ranking.score e) = Z.of_nat (length pre).
Proof.
  intros Hs Hlast. rewrite filter_every; [reflexivity |].
  destruct (last pre) as [l|] eqn:El.
  - apply last_Some in El as [pre0 ->].
    assert (Hle : Ranking.score e <= Ranking.score l).
    { apply (StronglySorted_app_1_elem_of _ _ _ l e Hs);
        [apply elem_of_app; right; apply list_elem_of_singleton; reflexivity
        | apply elem_of_cons; left; reflexivity]. }
    apply StronglySorted_app_1_l in Hs.
    apply Forall_forall. intros x Hx. apply Z.ltb_lt.
    apply elem_of_app in Hx as [Hx | Hx].
    + pose proof (StronglySorted_app_1_elem_of _ _ _ x l Hs Hx
                    ltac:(apply list_elem_of_singleton; reflexivity))
        as Hxl.
      cbn in Hxl. lia.
    + apply list_elem_of_singleton in Hx as ->. lia.
  - apply last_None in El as ->. constructor.
Qed.

Lemma rank_loop (suf : list Ranking.entry) :
  forall (pre : list Ranking.entry) (ranks : list Z) (ls : option Z)
         (lr : Z),
    descending (pre ++ suf) -> NoDup (pre ++ suf) ->
    (forall e1 e2, e1 ∈ pre ++ suf -> e2 ∈ pre ++ suf ->
       Ranking.index e1 = Ranking.index e2 -> e1 = e2) ->
    (forall e, e ∈ pre ++ suf ->
       0 <= Ranking.index e < Z.of_nat (length ranks)) ->
    match last pre with
    | None => ls = None
    | Some l =>
        ls = Some (Ranking.score l) /\
        lr = 1 + above (pre ++ suf) (Ranking.score l)
    end ->
    (forall e, e ∈ pre ->
       JS.get ranks (Ranking.index e)
       = Some (1 + above (pre ++ suf) (Ranking.score e))) ->
    let final :=
      (forEachFrom (Z.of_nat (length pre)) suf rankBody (ranks, ls, lr)).1.1 in
    length final = length ranks /\
    forall e, e ∈ pre ++ suf ->
      JS.get final (Ranking.index e)
      = Some (1 + above (pre ++ suf) (Ranking.score e)).
Proof.
  induction suf as [| e suf IH];
    intros pre ranks ls lr Hsorted Hnodup Huniq Hrange Hlast Hdone.
  - cbn. rewrite app_nil_r in *. split; [reflexivity | exact Hdone].
  - cbn [forEachFrom].
    set (r := 1 + above (pre ++ e :: suf) (Ranking.score e)).
    assert (Hstep :
      rankBody e (Z.of_nat (length pre)) (ranks, ls, lr)
      = (JS.update (fun _ => r) (Ranking.index e) ranks,
         Some (Ranking.score e), r)).
    { cbv beta iota. subst r. rewrite above_split by exact Hsorted.
      destruct (last pre) as [l|] eqn:El.
      - destruct Hlast as [-> ->].
        destruct (Z.eqb_spec (Ranking.score e) (Ranking.score l)) as [E | E].
        + rewrite <- E, above_split by exact Hsorted. reflexivity.
        + rewrite (above_all pre suf e Hsorted); [| rewrite El; exact E].
          cbv zeta.
          rewrite (Z.add_comm (Z.of_nat (length pre)) 1). reflexivity.
      - subst ls.
        rewrite (above_all pre suf e Hsorted); [| rewrite El; exact I].
        cbv zeta.
          rewrite (Z.add_comm (Z.of_nat (length pre)) 1). reflexivity. }
    cbv beta iota zeta in Hstep |- *. rewrite Hstep. clear Hstep.
    replace (Z.of_nat (length pre) + 1) with (Z.of_nat (length (pre ++ [e])))
      by (rewrite length_app; cbn; lia).
    assert (Happ : pre ++ e :: suf = (pre ++ [e]) ++ suf)
      by (rewrite <- app_assoc; reflexivity).
    subst r. rewrite Happ in *.
    assert (He : 0 <= Ranking.index e < Z.of_nat (length ranks))
      by (apply Hrange, elem_of_app; left; apply elem_of_app; right;
          apply list_elem_of_singleton; reflexivity).
    destruct (IH (pre ++ [e])
                (JS.update
                   (fun _ => 1 + above ((pre ++ [e]) ++ suf) (Ranking.score e))
                   (Ranking.index e) ranks)
                (Some (Ranking.score e))
                (1 + above ((pre ++ [e]) ++ suf) (Ranking.score e)))
      as [Hlen Hfinal]; try assumption.
    + rewrite update_length. exact Hrange.
    + rewrite last_snoc. split; reflexivity.
    + intros e' He'. apply elem_of_app in He' as [He' | He'].
      * rewrite get_update_other; [apply Hdone, He' | |].
        -- intros Heq.
           assert (e = e').
           { apply Huniq; [| | exact Heq]; apply elem_of_app; left;
               apply elem_of_app; [right | left; exact He'].
             apply list_elem_of_singleton. reflexivity. }
           subst e'. rewrite <- Happ in Hnodup.
           apply NoDup_app in Hnodup as (_ & Hnot & _).
           apply (Hnot e He'). apply elem_of_cons. left. reflexivity.
        -- apply Hrange, elem_of_app. left. apply elem_of_app. left.
           exact He'.
      * apply list_elem_of_singleton in He' as ->.
        apply get_update_same, He.
    + split; [etrans; [exact Hlen | apply update_length] | exact Hfinal].
Qed.

Lemma entries_nodup (f : nat -> Z) (l : list Z) :
  (forall i j, f i = f j -> i = j) ->
  NoDup (imap (fun i p => Ranking.mk (f i) p) l).
Proof.
  revert f. induction l as [| x l IH]; intros f Hf; [constructor |].
  cbn [imap]. constructor.
  - intros Hin. apply elem_of_lookup_imap in Hin as (i & y & Heq & _).
    cbn in Heq. injection Heq as Heq _. apply Hf in Heq. discriminate.
  - apply (IH (fun i => f (S i))). intros i j H. apply Hf in H. lia.
Qed.

Lemma entries_above (f : nat -> Z) (l : list Z) (s : Z) :
  above (imap (fun i p => Ranking.mk (f i) p) l) s
  = Z.of_nat (length (List.filter (fun q => s <? q) l)).
Proof.
  f_equal. revert f. induction l as [| x l IH]; intros f; [reflexivity |].
  cbn [imap List.filter Ranking.score].
  destruct (s <? x); cbn [length]; rewrite <- (IH (fun i => f (S i)));
    reflexivity.
Qed.

Lemma ranks_at (points : list Z) (i p : Z) :
  JS.get points i = Some p ->
  length (computePlayerRanks points) = length points /\
  JS.get (computePlayerRanks points) i
  = Some (1 + higherScores points p).
Proof.
  intros Hget. unfold computePlayerRanks. cbv zeta.
  rewrite mapi_imap, forEach_from.
  set (entries := imap (fun i v => Ranking.mk (Z.of_nat i) v) points).
  set (es := sortWith rankCmp entries).
  assert (Hperm : es ≡ₚ entries) by apply sortWith_perm.
  assert (Hin : forall e, e ∈ es <->
            exists k, points !! k = Some (Ranking.score e) /\
                      Ranking.index e = Z.of_nat k).
  { intros e. rewrite Hperm. subst entries. rewrite elem_of_lookup_imap.
    split.
    - intros (k & y & -> & Hk). exists k. auto.
    - intros (k & Hk & Hi). exists k, (Ranking.score e).
      split; [| exact Hk]. destruct e. cbn in *. congruence. }
  pose proof (rank_loop es [] (replicate (length points) 0) None 0) as Hloop.
  cbn [app length last] in Hloop.
  destruct (forEachFrom (Z.of_nat 0) es rankBody
              (replicate (length points) 0, None, 0)) as [[ranks ls] lr]
    eqn:Eloop.
  change (Z.of_nat 0) with 0 in Eloop.
  cbv beta iota zeta in Eloop |- *. rewrite Eloop.
  destruct Hloop as [Hlen Hranks].
  - apply sortWith_descending.
  - rewrite Hperm. apply entries_nodup. intros a b. lia.
  - intros e1 e2 H1 H2 Heq.
    apply Hin in H1 as (k1 & Hk1 & Hi1). apply Hin in H2 as (k2 & Hk2 & Hi2).
    assert (k1 = k2) by lia. subst k2.
    destruct e1, e2. cbn in *. congruence.
  - intros e He. apply Hin in He as (k & Hk & ->).
    apply lookup_lt_Some in Hk. rewrite length_replicate. lia.
  - reflexivity.
  - intros e He. apply elem_of_nil in He. contradiction.
  - cbn [fst] in *. rewrite length_replicate in Hlen. split; [exact Hlen |].
    unfold JS.get in Hget. destruct (Z.leb_spec 0 i); [| discriminate].
    specialize (Hranks (Ranking.mk i p)).
    cbn [Ranking.index Ranking.score] in Hranks.
    rewrite Hranks.
    + unfold higherScores. do 3 f_equal.
      rewrite (filter_length_perm _ _ _ Hperm). subst entries.
      apply Nat2Z.inj. apply (entries_above Z.of_nat).
    + apply Hin. exists (Z.to_nat i). cbn. split; [exact Hget | lia].
Qed.


(** X14: the rank of a seat is one more than the number of seats with
    strictly more points, so equal scores share a rank and the next rank
    after a tie is skipped; the result has one rank per seat. *)
Theorem ranks_count_higher_scores (points : list Z) (i p : Z) :
  JS.get points i = Some p ->
  length (computePlayerRanks points) = length points /\
  JS.get (computePlayerRanks points) i
  = Some (1 + higherScores points p).
Proof. apply ranks_at. Qed.

Lemma ranks_count_higher_scores_witness :
  length (computePlayerRanks [25000; 30000; 25000; 20000]) = 4%nat /\
  JS.get (computePlayerRanks [25000; 30000; 25000; 20000]) 2
  = Some (1 + higherScores [25000; 30000; 25000; 20000] 25000).
Proof.
  apply (ranks_count_higher_scores [25000; 30000; 25000; 20000] 2 25000).
  reflexivity.
Defined.

Lemma higher_monotone (l : list Z) (p q : Z) :
  p <= q -> higherScores l q <= higherScores l p.
Proof.
  intros Hpq. unfold higherScores. apply inj_le.
  induction l as [| x l IH]; [reflexivity |].
  cbn [List.filter].
  destruct (Z.ltb_spec q x), (Z.ltb_spec p x); cbn [length]; lia.
Qed.

Lemma higher_strict (l : list Z) (p q : Z) :
  p < q -> In q l -> higherScores l q < higherScores l p.
Proof.
  intros Hpq Hin. unfold higherScores. apply inj_lt.
  induction l as [| x l IH]; [contradiction |].
  pose proof (higher_monotone l p q ltac:(lia)) as Hmono.
  unfold higherScores in Hmono. apply Nat2Z.inj_le in Hmono.
  cbn [List.filter].
  destruct Hin as [-> | Hin].
  - destruct (Z.ltb_spec q q), (Z.ltb_spec p q); cbn [length]; lia.
  - specialize (IH Hin).
    destruct (Z.ltb_spec q x), (Z.ltb_spec p x); cbn [length]; lia.
Qed.

Lemma filter_length_le {A : Type} (f : A -> bool) (l : list A) :
  (length (List.filter f l) <= length l)%nat.
Proof.
  induction l as [| y l IH]; [reflexivity |].
  cbn [List.filter]. destruct (f y); cbn [length]; lia.
Qed.

Lemma higher_bound (l : list Z) (p : Z) :
  In p l -> 0 <= higherScores l p < Z.of_nat (length l).
Proof.
  intros Hin. unfold higherScores. split; [lia |]. apply inj_lt.
  induction l as [| x l IH]; [contradiction |].
  pose proof (filter_length_le (fun q => p <? q) l) as Hle.
  cbn [List.filter].
  destruct Hin as [-> | Hin].
  - rewrite Z.ltb_irrefl. cbn [length]. lia.
  - specialize (IH Hin). destruct (p <? x); cbn [length]; lia.
Qed.

Lemma get_In {A : Type} (l : list A) (i : Z) (x : A) :
  JS.get l i = Some x -> In x l.
Proof.
  unfold JS.get. destruct (0 <=? i); [| discriminate].
  intros H. apply list_elem_of_In. eapply list_elem_of_lookup_2, H.
Qed.

(** X15: ranks follow the points: every rank lies between 1 and the number
    of seats, a seat with more points has a strictly smaller rank, and
    seats with equal points have the same rank. *)
Theorem ranks_follow_points (points : list Z) (i j p q : Z) :
  JS.get points i = Some p -> JS.get points j = Some q ->
  exists ri rj,
    JS.get (computePlayerRanks points) i = Some ri /\
    JS.get (computePlayerRanks points) j = Some rj /\
    1 <= ri <= Z.of_nat (length points) /\
    (p < q -> rj < ri) /\
    (p = q -> ri = rj).
Proof.
  intros Hi Hj.
  destruct (ranks_at points i p Hi) as [_ Hri].
  destruct (ranks_at points j q Hj) as [_ Hrj].
  do 2 eexists. split; [exact Hri |]. split; [exact Hrj |].
  pose proof (higher_bound points p (get_In _ _ _ Hi)).
  split; [lia |]. split.
  - intros Hpq.
    pose proof (higher_strict points p q Hpq (get_In _ _ _ Hj)). lia.
  - intros ->. reflexivity.
Qed.

Lemma ranks_follow_points_witness :
  exists ri rj,
    JS.get (computePlayerRanks [25000; 30000; 25000; 20000]) 3 = Some ri /\
    JS.get (computePlayerRanks [25000; 30000; 25000; 20000]) 0 = Some rj /\
    1 <= ri <= Z.of_nat (length [25000; 30000; 25000; 20000]) /\
    (20000 < 25000 -> rj < ri) /\
    (20000 = 25000 -> ri = rj).
Proof.
  apply (ranks_follow_points [25000; 30000; 25000; 20000] 3 0 20000 25000);
    reflexivity.
Defined.

Lemma fold_min_spec (rest : list Z) (r : Z) :
  In (fold_left Z.min rest r) (r :: rest) /\
  forall x, In x (r :: rest) -> fold_left Z.min rest r <= x.
Proof.
  revert r. induction rest as [| y rest IH]; intros r.
  - cbn. split; [auto | intros x [<- | []]; lia].
  - cbn [fold_left]. destruct (IH (Z.min r y)) as [Hin Hle]. split.
    + destruct Hin as [Hin | Hin]; [| right; right; exact Hin].
      rewrite <- Hin. destruct (Z.min_spec r y) as [[_ ->] | [_ ->]];
        [left | right; left]; reflexivity.
    + intros x [<- | [<- | Hx]].
      * pose proof (Hle (Z.min r y) (or_introl eq_refl)). lia.
      * pose proof (Hle (Z.min r y) (or_introl eq_refl)). lia.
      * apply Hle. right. exact Hx.
Qed.

Lemma fold_max_spec (rest : list Z) (r : Z) :
  In (fold_left Z.max rest r) (r :: rest).
Proof.
  revert r. induction rest as [| y rest IH]; intros r.
  - cbn. auto.
  - cbn [fold_left]. destruct (IH (Z.max r y)) as [Hin | Hin];
      [| right; right; exact Hin].
    rewrite <- Hin. destruct (Z.max_spec r y) as [[_ ->] | [_ ->]];
      [right; left | left]; reflexivity.
Qed.

Lemma ranks_length (points : list Z) :
  length (computePlayerRanks points) = length points.
Proof.
  destruct points as [| p rest]; [reflexivity |].
  apply (ranks_at (p :: rest) 0 p). reflexivity.
Qed.

(** Every rank in the result is the rank of some seat. *)
Lemma rank_in_range (points : list Z) (r : Z) :
  In r (computePlayerRanks points) ->
  1 <= r <= Z.of_nat (length points).
Proof.
  intros Hin. apply list_elem_of_In, list_elem_of_lookup_1 in Hin as [k Hk].
  pose proof (lookup_lt_Some _ _ _ Hk) as Hlt.
  rewrite ranks_length in Hlt.
  destruct (lookup_lt_is_Some_2 points k Hlt) as [q Hq].
  assert (Hget : JS.get points (Z.of_nat k) = Some q).
  { unfold JS.get. destruct (Z.leb_spec 0 (Z.of_nat k)); [| lia].
    rewrite Nat2Z.id. exact Hq. }
  destruct (ranks_at points (Z.of_nat k) q Hget) as [_ Hr].
  unfold JS.get in Hr. destruct (Z.leb_spec 0 (Z.of_nat k)); [| lia].
  rewrite Nat2Z.id, Hk in Hr. injection Hr as ->.
  pose proof (higher_bound points q (get_In _ _ _ Hget)). lia.
Qed.

Lemma leader_exists (points : list Z) :
  points <> [] ->
  exists k q, points !! k = Some q /\ Forall (fun x => x <= q) points.
Proof.
  induction points as [| x l IH]; [congruence |]. intros _.
  destruct l as [| y l'].
  - exists 0%nat, x. split; [reflexivity |]. repeat constructor. lia.
  - destruct (IH ltac:(discriminate)) as (k & q & Hk & Hall).
    destruct (Z.le_gt_cases x q).
    + exists (S k), q. split; [exact Hk |]. constructor; assumption.
    + exists 0%nat, x. split; [reflexivity |].
      constructor; [lia |].
      eapply Forall_impl; [exact Hall |]. cbn. intros z Hz. lia.
Qed.

(** X16: someone always leads: the best rank among the seats is 1, and the
    worst rank lies between 1 and the number of seats (both are 1 for an
    empty table). *)
Theorem best_rank_is_one (points : list Z) :
  bestRank (computePlayerRanks points) = 1 /\
  1 <= worstRank (computePlayerRanks points)
    <= Z.max 1 (Z.of_nat (length points)).
Proof.
  destruct points as [| p rest] eqn:Epoints; [repeat split; cbn; lia |].
  rewrite <- Epoints.
  assert (Hne : points <> []) by (rewrite Epoints; discriminate).
  destruct (leader_exists points Hne) as (k & q & Hk & Hall).
  assert (Hget : JS.get points (Z.of_nat k) = Some q).
  { unfold JS.get. destruct (Z.leb_spec 0 (Z.of_nat k)); [| lia].
    rewrite Nat2Z.id. exact Hk. }
  destruct (ranks_at points (Z.of_nat k) q Hget) as [Hlen Hone].
  assert (Hzero : higherScores points q = 0).
  { unfold higherScores. rewrite filter_none; [reflexivity |].
    eapply Forall_impl; [exact Hall |]. cbn. intros x Hx.
    apply Z.ltb_ge, Hx. }
  rewrite Hzero in Hone. apply get_In in Hone.
  pose proof (rank_in_range points) as Hrange.
  destruct (computePlayerRanks points) as [| r ranks] eqn:Eranks.
  { contradiction. }
  cbn [bestRank worstRank].
  destruct (fold_min_spec ranks r) as [Hmin_in Hmin_le].
  pose proof (fold_max_spec ranks r) as Hmax_in.
  pose proof (Hrange _ Hmin_in). pose proof (Hrange _ Hmax_in).
  pose proof (Hmin_le 1 Hone). lia.
Qed.

(** ** Saving and loading *)

Lemma orDefault_snapshot (snapshot : option CoreSnapshot.t) :
  Json.orDefault (Some (encodeSnapshot snapshot)) JNull
  = encodeSnapshot snapshot.
Proof. destruct snapshot; reflexivity. Qed.

Lemma orDefault_meta (meta : option LastSettlementMeta.t) :
  Json.orDefault (Some (encodeMeta meta)) JNull = encodeMeta meta.
Proof. destruct meta; reflexivity. Qed.

Lemma seat_is_kept (d : Z) : isSeat d = true -> ensureSeatIndex d = d.
Proof. intros H. seat_cases d H; reflexivity. Qed.

Lemma reload_state (s : GameState) :
  length (points s) = 4%nat -> isSeat (dealerIndex s) = true ->
  cleanNames (names s) ->
  load (Document (encodeState s)) = Some (reloaded s).
Proof.
  intros Hlen Hd [Hn Hclean].
  destruct s as [pts k h r d hi nm b a m u].
  cbn [points dealerIndex names] in *.
  four nm Hn.
  unfold load, encodeState, reloaded, JInt.
  cbn [Json.truthy negb Json.prop Json.member String.eqb Ascii.eqb
       Bool.eqb Json.asArray Json.asNumber points kyotaku honba kyokuIndex
       dealerIndex history names lastSettlementBefore lastSettlementAfter
       lastSettlementMeta isInUndo default ensureSeatIndexOfNumber
       JS.remainder].
  rewrite length_map, Hlen. cbn [Nat.eqb negb].
  fold (JS.rem d 4). fold (ensureSeatIndex d).
  rewrite (seat_is_kept d Hd), (sanitizeNames_kept _ _ _ _ Hclean).
  rewrite !orDefault_snapshot, orDefault_meta.
  reflexivity.
Qed.

(** X17: a state with four stacks, a dealer among the seats and four clean
    nicknames survives saving and loading: the loader accepts the saved
    document and every field it installs is the saved value of the same
    field, the pending undo pair and the undone flag included. *)
Theorem save_then_load (s : GameState) :
  length (points s) = 4%nat -> isSeat (dealerIndex s) = true ->
  cleanNames (names s) ->
  load (Document (encodeState s)) = Some (reloaded s) /\
  forall current,
    stateAfterLoad (Document (encodeState s)) current = inr (reloaded s).
Proof.
  intros Hlen Hd Hn.
  pose proof (reload_state s Hlen Hd Hn) as H.
  split; [exact H |]. intros current. unfold stateAfterLoad.
  rewrite H. reflexivity.
Qed.

Lemma save_then_load_witness :
  let text := mkRendering "1-0" "E1" "hand" "12:00" "hand" in
  let s :=
    play [ (text, Draw [true; false; false; false]
                    [true; true; false; false]);
           (text, Tsumo (Some 1) "2" "30" [false; false; true; false]) ]
      createInitialGameState in
  load (Document (encodeState s)) = Some (reloaded s) /\
  forall current,
    stateAfterLoad (Document (encodeState s)) current = inr (reloaded s).
Proof.
  intros text s. apply (save_then_load s).
  - reflexivity.
  - reflexivity.
  - split; [reflexivity |]. repeat constructor; discriminate.
Defined.

Lemma sanitizeNames_clean (input : option json) :
  cleanNames (sanitizeNames input).
Proof.
  destruct (sanitizeNames_shape input) as (a & b & c & d & -> & H).
  split; [reflexivity | exact H].
Qed.

Lemma act_keeps_names_clean (a : Action) (s s' : GameState) :
  namesInvariant s -> act a s = Some s' -> namesInvariant s'.
Proof.
  intros Hinv. pose proof Hinv as (Hn & Hb & Ha).
  destruct a as [text e | | | form | editNames | resetNames]; cbn [act];
    intros E; try (injection E as <-).
  - unfold confirm.
    destruct (returned (settle s text e s)) eqn:Hok.
    + destruct (settle_commits _ _ _ _ Hok) as (c & m & E & Hnames & _).
      rewrite E. unfold namesInvariant. cbn. rewrite Hnames.
      repeat split; apply Hn.
    + rewrite settle_rejected by exact Hok. exact Hinv.
  - unfold handleUndoLastSettlement.
    destruct (lastSettlementBefore s) as [b|] eqn:Eb; [| exact Hinv].
    destruct (lastSettlementAfter s) as [c|] eqn:Ec; [| exact Hinv].
    destruct (lastSettlementMeta s); [| exact Hinv].
    split; [exact Hb |]. cbn. rewrite Eb, Ec. split; assumption.
  - unfold handleRedoLastSettlement.
    destruct (lastSettlementBefore s) as [b|] eqn:Eb; [| exact Hinv].
    destruct (lastSettlementAfter s) as [c|] eqn:Ec; [| exact Hinv].
    destruct (lastSettlementMeta s); [| exact Hinv].
    destruct (isInUndo s); [| exact Hinv]. cbn [negb].
    split; [exact Ha |]. cbn. rewrite Eb, Ec. split; assumption.
  - unfold handleEditRoundConfirm in E.
    destruct (JS.whole (editNumber form)); [| discriminate].
    destruct (JS.whole (JS.mathMax 0 (editHonba form))); [| discriminate].
    injection E as <-. exact Hinv.
  - split; [apply sanitizeNames_clean | split; assumption].
  - split; [| split; exact I].
    destruct resetNames; [| exact Hn].
    split; [reflexivity |]. repeat constructor; discriminate.
Qed.

Lemma runActions_names_clean (actions : list Action) (s s' : GameState) :
  namesInvariant s -> runActions actions s = Some s' -> namesInvariant s'.
Proof.
  revert s. induction actions as [| a rest IH]; intros s Hs E.
  - injection E as <-. exact Hs.
  - cbn [runActions] in E. destruct (act a s) as [s1|] eqn:Ea;
      [| discriminate].
    apply (IH s1); [| exact E].
    apply (act_keeps_names_clean a s s1 Hs Ea).
Qed.

(** X18: every state the operator can reach from the initial one, by
    settlements, undo, redo, round edits with whole numbers, nickname
    changes and resets, has four clean nicknames, and the loader installs
    from its saved document the nicknames, the points and the four numbers
    that were saved, with the undo pair: no nickname is altered by the
    sanitizer and the dealer is not moved. *)
Theorem reachable_states_reload (actions : list Action) :
  Forall (fun a => validAction a = true) actions ->
  exists s base,
    runActions actions createInitialGameState = Some s /\
    cleanNames (names s) /\
    load (Document (encodeState s)) = Some base /\
    Loaded.names base = names s /\
    Loaded.points base = map JInt (points s) /\
    Loaded.kyotaku base = JS.Whole (kyotaku s) /\
    Loaded.honba base = JS.Whole (honba s) /\
    Loaded.kyokuIndex base = JS.Whole (kyokuIndex s) /\
    Loaded.dealerIndex base = JS.Whole (dealerIndex s) /\
    Loaded.lastSettlementBefore base
      = encodeSnapshot (lastSettlementBefore s) /\
    Loaded.lastSettlementAfter base
      = encodeSnapshot (lastSettlementAfter s) /\
    Loaded.isInUndo base = JBool (isInUndo s).
Proof.
  intros Hall.
  destruct (runActions_invariant actions createInitialGameState
              initial_match_invariant Hall)
    as (s & E & (Hlen & Hd & _) & _).
  destruct (runActions_names_clean actions createInitialGameState s)
    as (Hn & _); [| exact E |].
  { split; [| split; exact I].
    split; [reflexivity |]. repeat constructor; discriminate. }
  exists s, (reloaded s).
  split; [exact E |]. split; [exact Hn |].
  split; [apply reload_state; assumption |].
  repeat split.
Qed.

Lemma reachable_states_reload_witness :
  let text := mkRendering "1-0" "E1" "hand" "12:00" "hand" in
  let actions :=
    [ Settle text (Tsumo (Some 1) "2" "30" [false; false; true; false]);
      SaveNames [JS.utf8 0x3000 +:+ "Aki"; "Ben "; EmptyString; "Dai"];
      EditRoundAction (mkEditRound South (JS.Whole 2) (JS.Whole 3) 1);
      Undo ] in
  exists s base,
    runActions actions createInitialGameState = Some s /\
    cleanNames (names s) /\
    load (Document (encodeState s)) = Some base /\
    Loaded.names base = names s /\
    Loaded.points base = map JInt (points s) /\
    Loaded.kyotaku base = JS.Whole (kyotaku s) /\
    Loaded.honba base = JS.Whole (honba s) /\
    Loaded.kyokuIndex base = JS.Whole (kyokuIndex s) /\
    Loaded.dealerIndex base = JS.Whole (dealerIndex s) /\
    Loaded.lastSettlementBefore base
      = encodeSnapshot (lastSettlementBefore s) /\
    Loaded.lastSettlementAfter base
      = encodeSnapshot (lastSettlementAfter s) /\
    Loaded.isInUndo base = JBool (isInUndo s).
Proof.
  intros text actions.
  apply (reachable_states_reload actions). repeat constructor.
Defined.

(** ** The round along a match *)

Lemma settle_round_invariant state text e prev :
  roundInvariant prev -> roundInvariant (next (settle state text e prev)).
Proof.
  intros (Hd & Hr & Hh).
  pose proof (Z.mod_pos_bound (kyokuIndex prev) 4 ltac:(lia)) as Hmod.
  destruct (returned (settle state text e prev)) eqn:Hok.
  - pose proof (settle_position _ _ _ _ Hok) as Hpos.
    rewrite installed_expected in Hpos by lia.
    unfold roundInvariant.
    assert (Hcases :
      expectedPosition prev e
        = (dealerIndex prev, kyokuIndex prev, honba prev + 1)
      \/ expectedPosition prev e = position prev
      \/ exists h, 0 <= h /\ expectedPosition prev e =
           (RoundSpec.nextSeat (dealerIndex prev),
            RoundSpec.nextRound (kyokuIndex prev), h)).
    { unfold expectedPosition, RoundSpec.afterWin, RoundSpec.afterDraw.
      destruct e as [[w|] ? ? ? | [w|] ? ? ? ? | tenpai ?];
        repeat match goal with
               | |- context [if ?c then _ else _] => destruct c
               end; eauto; right; right; eexists; (split; [| reflexivity]);
        lia. }
    unfold position in *.
    destruct Hcases as [E | [E | (h & Hh0 & E)]]; rewrite E in Hpos;
      injection Hpos as Hd' Hr' Hh'; rewrite Hd', Hr', Hh';
      try (repeat split; lia).
    unfold RoundSpec.nextSeat, RoundSpec.nextRound.
    assert (Hk : kyokuIndex prev = 0 \/ kyokuIndex prev = 1 \/
                 kyokuIndex prev = 2 \/ kyokuIndex prev = 3 \/
                 kyokuIndex prev = 4 \/ kyokuIndex prev = 5 \/
                 kyokuIndex prev = 6 \/ kyokuIndex prev = 7) by lia.
    rewrite Hd.
    destruct Hk as [-> | [-> | [-> | [-> | [-> | [-> | [-> | ->]]]]]]];
      repeat split; first [lia | reflexivity | vm_compute; congruence].
  - rewrite settle_rejected by exact Hok. exact (conj Hd (conj Hr Hh)).
Qed.

Lemma play_round_invariant (log : list (Rendering * Settlement))
    (s : GameState) :
  roundInvariant s -> roundInvariant (play log s).
Proof.
  revert s. induction log as [| [text e] rest IH]; intros s Hs; [exact Hs |].
  cbn [play]. apply IH. unfold confirm. apply settle_round_invariant, Hs.
Qed.

(** X19: along any sequence of settlements from the initial state the
    dealer's seat is the round index modulo 4 (East 1 and South 1 are dealt
    by seat 0, and so on), the round index stays within 0..7, so the round
    shown has a number from 1 to 4, and the honba is never negative. *)
Theorem dealer_follows_round (log : list (Rendering * Settlement)) :
  let s := play log createInitialGameState in
  dealerIndex s = kyokuIndex s mod 4 /\
  0 <= kyokuIndex s < 8 /\
  0 <= honba s /\
  1 <= RoundInfo.number (getRoundInfo (kyokuIndex s) (honba s)) <= 4 /\
  RoundInfo.number (getRoundInfo (kyokuIndex s) (honba s))
    = dealerIndex s + 1.
Proof.
  intros s.
  destruct (play_round_invariant log createInitialGameState) as (Hd & Hr & Hh).
  { repeat split; cbn; lia. }
  fold s in Hd, Hr, Hh.
  split; [exact Hd |]. split; [exact Hr |]. split; [exact Hh |].
  unfold getRoundInfo. cbn [RoundInfo.number]. rewrite Hd.
  destruct (Z.ltb_spec (kyokuIndex s) 4).
  - rewrite Z.mod_small by lia. lia.
  - replace (kyokuIndex s) with (kyokuIndex s - 4 + 1 * 4) at 3 4 by lia.
    rewrite Z.mod_add, Z.mod_small by lia. lia.
Qed.

(** ** What the loader always delivers *)

(** [ensureSeatIndex] keeps the sign of its argument: it lands on a seat
    for a number that is not negative, and on 0, -1, -2 or -3 otherwise. *)
Lemma ensureSeatIndex_range (d : Z) :
  -3 <= ensureSeatIndex d <= 3 /\
  (0 <= d -> isSeat (ensureSeatIndex d) = true) /\
  (d < 0 -> ensureSeatIndex d <= 0) /\
  (isSeat d = true -> ensureSeatIndex d = d).
Proof.
  unfold ensureSeatIndex, JS.rem, isSeat.
  destruct (Z.le_gt_cases 0 d) as [Hd | Hd].
  - pose proof (Z.rem_bound_pos_pos d 4 ltac:(lia) Hd).
    repeat split; try lia. intros Hs. apply Z.rem_small. lia.
  - pose proof (Z.rem_bound_pos_neg d 4 ltac:(lia) ltac:(lia)).
    repeat split; lia.
Qed.

(** The remainder of a number that is not whole is not whole either: it
    keeps its digits after the point and lies between -4 and 4, on the
    side of zero where the number is. *)
Lemma remainder_of_fraction (z : Z) (d : positive) :
  exists r,
    JS.remainder (JS.Fraction z d) 4 = JS.Fraction r d /\
    (0 <= z -> 0 <= r <= 3) /\
    (z < 0 -> -4 <= r <= -1).
Proof.
  cbn [JS.remainder]. eexists. split; [reflexivity |].
  destruct (Z.leb_spec 0 z) as [Hz | Hz].
  - pose proof (Z.quot_rem' z 4) as Hq.
    pose proof (Z.rem_bound_pos_pos z 4 ltac:(lia) Hz).
    split; lia.
  - pose proof (Z.quot_rem' (z + 1) 4) as Hq.
    pose proof (Z.rem_bound_pos_neg (z + 1) 4 ltac:(lia) ltac:(lia)).
    split; lia.
Qed.

(** X20: whatever document the loader accepts, the state it installs has
    four entries in [points] and four clean nicknames (not empty,
    trimmed), and its dealer index is the remainder by 4 of the stored
    number.  For a whole stored number that is a whole number between -3
    and 3, a seat when the stored one is not negative and never positive
    when it is negative.  A stored number that is not whole is accepted as
    well and leaves a dealer index that is not whole, with the same digits
    after the point, strictly between -4 and 4; a stored infinity leaves
    [NaN]. *)
Theorem loaded_state_shape (parsed : json) (base : Loaded.t) :
  load (Document parsed) = Some base ->
  length (Loaded.points base) = 4%nat /\
  cleanNames (Loaded.names base) /\
  exists stored,
    Json.prop parsed "dealerIndex" = Some (JNum stored) /\
    Loaded.dealerIndex base = JS.remainder stored 4 /\
    (forall d, stored = JS.Whole d ->
       Loaded.dealerIndex base = JS.Whole (Z.rem d 4) /\
       -3 <= Z.rem d 4 <= 3 /\
       (0 <= d -> isSeat (Z.rem d 4) = true) /\
       (d < 0 -> Z.rem d 4 <= 0)) /\
    (forall z digits, stored = JS.Fraction z digits ->
       JS.whole (Loaded.dealerIndex base) = None /\
       exists r,
         Loaded.dealerIndex base = JS.Fraction r digits /\
         (0 <= z -> 0 <= r <= 3) /\
         (z < 0 -> -4 <= r <= -1)) /\
    (forall negative, stored = JS.Infinity negative ->
       Loaded.dealerIndex base = JS.NotANumber).
Proof.
  intros Hload. unfold load in Hload.
  destruct (Json.truthy parsed); [| discriminate]. cbn [negb] in Hload.
  destruct (Json.asArray (Json.prop parsed "points")) as [pts|] eqn:Ep;
    [| discriminate].
  destruct (Json.asNumber (Json.prop parsed "honba")); [| discriminate].
  destruct (Json.asNumber (Json.prop parsed "kyokuIndex")); [| discriminate].
  destruct (Json.asNumber (Json.prop parsed "dealerIndex")) as [x|] eqn:Ed;
    [| discriminate].
  destruct (Nat.eqb (length pts) 4) eqn:El; [| discriminate].
  cbn [negb] in Hload. injection Hload as <-.
  cbn [Loaded.points Loaded.names Loaded.dealerIndex].
  apply Nat.eqb_eq in El. apply asNumber_isNumber in Ed as [Ed _].
  split; [exact El |]. split; [apply sanitizeNames_clean |].
  exists x. split; [exact Ed |]. split; [reflexivity |].
  unfold ensureSeatIndexOfNumber.
  split; [| split].
  - intros d ->. cbn [JS.remainder].
    destruct (ensureSeatIndex_range d) as (H1 & H2 & H3 & _).
    repeat split; assumption || apply H1.
  - intros z digits ->.
    destruct (remainder_of_fraction z digits) as (r & E & Hr).
    rewrite E. split; [reflexivity |]. exists r. split; [reflexivity | exact Hr].
  - intros negative ->. reflexivity.
Qed.

Lemma loaded_state_shape_witness :
  exists base,
    load (Document fractionalDocument) = Some base /\
    length (Loaded.points base) = 4%nat /\
    cleanNames (Loaded.names base) /\
    Loaded.names base = ["Aki"; "南风家"; "西风家"; "北风家"]%string /\
    Loaded.dealerIndex base = JS.Fraction 2 1 /\
    JS.whole (Loaded.dealerIndex base) = None.
Proof.
  eexists. split; [reflexivity |].
  pose proof (loaded_state_shape fractionalDocument _ eq_refl)
    as (Hlen & Hnames & _).
  split; [exact Hlen |]. split; [exact Hnames |].
  repeat split.
Defined.

(** ** The table of differences *)

(** X21: the entry of the difference table for seats i and j is
    [points[i] - points[j]] for every pair of seats, the diagonal included
    (where the program writes 0), so the table is antisymmetric. *)
Theorem diffMatrix_is_difference (points : list Z) (i j p q : Z) :
  JS.get points i = Some p -> JS.get points j = Some q ->
  exists row column,
    JS.get (diffMatrix points) i = Some row /\
    JS.get row j = Some (p - q) /\
    JS.get (diffMatrix points) j = Some column /\
    JS.get column i = Some (- (p - q)).
Proof.
  intros Hi Hj. unfold diffMatrix.
  do 2 eexists.
  split; [apply (get_mapi _ _ _ _ Hi) |].
  split.
  { rewrite (get_mapi _ _ _ _ Hj). f_equal.
    destruct (Z.eqb_spec i j) as [-> | _]; [| reflexivity].
    rewrite Hi in Hj. injection Hj as ->. lia. }
  split; [apply (get_mapi _ _ _ _ Hj) |].
  rewrite (get_mapi _ _ _ _ Hi). f_equal.
  destruct (Z.eqb_spec j i) as [-> | _]; [| lia].
  rewrite Hi in Hj. injection Hj as ->. lia.
Qed.

Lemma diffMatrix_is_difference_witness :
  exists row column,
    JS.get (diffMatrix [32800; 22400; 22400; 22400]) 0 = Some row /\
    JS.get row 3 = Some (32800 - 22400) /\
    JS.get (diffMatrix [32800; 22400; 22400; 22400]) 3 = Some column /\
    JS.get column 0 = Some (- (32800 - 22400)).
Proof.
  apply (diffMatrix_is_difference [32800; 22400; 22400; 22400] 0 3);
    reflexivity.
Defined.
